(** * macproxy_plus: the request-routing and response-transcoding pipeline

    A shallow embedding of [proxy.py]: the extension registry and the
    override slot, the three dispatch paths of [handle_request], the
    response normalizer [process_response_with_image_caching], the image
    cache [fetch_and_cache_image] and the size arithmetic of
    [optimize_image].

    The globals of the module ([override_extension], the files of
    [CACHE_DIR]) are fields of an explicit [World]; Python exceptions are the [Raise]
    branch of a result type; calls that leave the program (HTTP requests,
    extension handlers) take and return the state of the outside world and
    are recorded in a trace.

    Library calls that can raise where nothing catches them are
    fallible in the model too: [urljoin] on an image source, the HTML
    parser, and the assignment of a header value that contains a
    newline.

    The file has three parts: the program, function by function; the
    vocabulary of the statements; the statements and their proofs. *)

From Stdlib Require Import ZArith List String Ascii Bool Lia.
From Stdlib Require Import DecimalString.
From Stdlib Require Import Reals Lra.
From Stdlib.Floats Require Import SpecFloat.
Import ListNotations.

Local Open Scope string_scope.
Local Open Scope Z_scope.

(* ================================================================== *)
(** * Python strings *)
(* ================================================================== *)

Module PyStr.

(** [s.startswith(p)] *)
Definition startswith (p s : string) : bool := String.prefix p s.

(** [s[n:]] *)
Fixpoint drop (n : nat) (s : string) : string :=
  match n, s with
  | O, _ => s
  | S n', String _ t => drop n' t
  | S _, EmptyString => EmptyString
  end.

(** [s.endswith(d)] *)
Definition endswith (s d : string) : bool :=
  (String.length d <=? String.length s)%nat
  && String.eqb (drop (String.length s - String.length d) s) d.

Definition lower_ascii (c : ascii) : ascii :=
  let n := nat_of_ascii c in
  if ((65 <=? n) && (n <=? 90))%nat then ascii_of_nat (n + 32) else c.

(** [s.lower()], on ASCII letters *)
Fixpoint lower (s : string) : string :=
  match s with
  | EmptyString => EmptyString
  | String c t => String (lower_ascii c) (lower t)
  end.

(** [s.split(sep)[0]]: everything before the first [sep] *)
Fixpoint split_first (sep : ascii) (s : string) : string :=
  match s with
  | EmptyString => EmptyString
  | String c t => if Ascii.eqb c sep then EmptyString else String c (split_first sep t)
  end.

(** [s.split(sep)[-1]]: everything after the last [sep] *)
Fixpoint split_last_aux (sep : ascii) (s acc : string) : string :=
  match s with
  | EmptyString => acc
  | String c t =>
      if Ascii.eqb c sep then split_last_aux sep t EmptyString
      else split_last_aux sep t (acc ++ String c EmptyString)
  end.

Definition split_last (sep : ascii) (s : string) : string :=
  split_last_aux sep s EmptyString.

(** [s.replace(old, new, 1)] for a non-empty [old] *)
Fixpoint replace_first (old new s : string) : string :=
  if String.prefix old s then new ++ drop (String.length old) s
  else match s with
       | EmptyString => EmptyString
       | String c t => String c (replace_first old new t)
       end.

(** Truthiness of a value that is [None] or a [str]. *)
Definition truthy (o : option string) : bool :=
  match o with
  | Some s => negb (String.eqb s "")
  | None => false
  end.

End PyStr.

(* ================================================================== *)
(** * Python dicts with string keys

    A [dict] keeps its keys in insertion order; assigning to a key that
    is already present replaces the value and keeps the key's place. *)
(* ================================================================== *)

Module PyDict.

Definition t (V : Type) := list (string * V).

Definition empty {V} : t V := [].

(** [d.get(k)] *)
Fixpoint get {V} (d : t V) (k : string) : option V :=
  match d with
  | [] => None
  | (k', v) :: r => if String.eqb k' k then Some v else get r k
  end.

(** [d.get(k, default)] *)
Definition get_default {V} (d : t V) (k : string) (default : V) : V :=
  match get d k with
  | Some v => v
  | None => default
  end.

(** [k in d] *)
Definition mem {V} (d : t V) (k : string) : bool :=
  match get d k with
  | Some _ => true
  | None => false
  end.

(** [d[k] = v] *)
Fixpoint set {V} (d : t V) (k : string) (v : V) : t V :=
  match d with
  | [] => [(k, v)]
  | (k', v') :: r => if String.eqb k' k then (k', v) :: r else (k', v') :: set r k v
  end.

(** [d.items()] *)
Definition items {V} (d : t V) : list (string * V) := d.

Definition keys {V} (d : t V) : list string := map fst d.

End PyDict.

(* ================================================================== *)
(** * Python exceptions and results *)
(* ================================================================== *)

Inductive Exn : Type :=
| HTTPError (status : Z)                         (* requests: raise_for_status *)
| HTTPException (code : Z) (description : string) (* werkzeug: abort *)
| ZeroDivisionError
| IndexError
| ValueError (msg : string)
| OverflowError
| OtherException (msg : string).

(** [str(e)] *)
Definition exn_str (e : Exn) : string :=
  match e with
  | HTTPError _ => "HTTPError"
  | HTTPException _ d => d
  | ZeroDivisionError => "division by zero"
  | IndexError => "tuple index out of range"
  | ValueError m => m
  | OverflowError => "OverflowError"
  | OtherException m => m
  end.

Inductive Result (A : Type) : Type :=
| Ok (a : A)
| Raise (e : Exn).
Arguments Ok {A} a.
Arguments Raise {A} e.

Definition rbind {A B} (r : Result A) (k : A -> Result B) : Result B :=
  match r with
  | Ok a => k a
  | Raise e => Raise e
  end.

(* ================================================================== *)
(** * Python floats

    A Python [float] is an IEEE 754 binary64 number: the Standard
    Library's executable specification at precision 53 and maximal
    exponent 1024, rounding to nearest, ties to even. *)
(* ================================================================== *)

Module Float64.

Definition prec : Z := 53.
Definition emax : Z := 1024.

Definition float := spec_float.

(** [float(n)], exact for [|n| < 2^53] *)
Definition of_int (n : Z) : float := binary_normalize prec emax n 0 false.

Definition mul : float -> float -> float := SFmul prec emax.
Definition div : float -> float -> float := SFdiv prec emax.
Definition ltb : float -> float -> bool := SFltb.

(** [a / b] on two ints below [2^53] in absolute value *)
Definition int_truediv (a b : Z) : Result float :=
  if b =? 0 then Raise ZeroDivisionError else Ok (div (of_int a) (of_int b)).

(** [n * x] for an int [n] and a float [x] *)
Definition int_mul (n : Z) (x : float) : float := mul (of_int n) x.

(** [min(a, b)]: the first argument unless the second is smaller *)
Definition min2 (a b : float) : float := if ltb b a then b else a.

(** [int(x)]: truncation towards zero *)
Definition to_int (x : float) : Result Z :=
  match x with
  | S754_zero _ => Ok 0
  | S754_finite s m e => Ok (cond_Zopp s (Z.shiftl (Zpos m) e))
  | S754_infinity _ => Raise OverflowError
  | S754_nan => Raise (ValueError "cannot convert float NaN to integer")
  end.

End Float64.

(* ================================================================== *)
(** * PIL images

    Of an image the program reads the size and changes the size and the
    mode; the pixel data is carried along as an opaque payload. *)
(* ================================================================== *)

Definition bytes := string.

Record Image : Type := mkImage {
  img_size : Z * Z;        (* (width, height) *)
  img_mode : string;       (* "1", "L", "P", "RGB", ... *)
  img_raster : bytes
}.

(** The operations of PIL that [optimize_image] calls. *)
Record Pil : Type := mkPil {
  (** [Image.open(io.BytesIO(data))]; raises on undecodable data *)
  pil_open : bytes -> Result Image;
  (** pixel data of [img.resize(size, Image.LANCZOS)] *)
  pil_lanczos : Image -> Z * Z -> bytes;
  (** pixel data of [img.convert("1")] *)
  pil_dither : Image -> bytes;
  (** [img.save(output, format="GIF", optimize=True)] *)
  pil_save_gif : Image -> bytes
}.

(** [img.resize(size, Image.LANCZOS)]: a copy of the requested size in
    the same mode; PIL refuses a size with a dimension below one. *)
Definition Image_resize (pil : Pil) (img : Image) (size : Z * Z) : Result Image :=
  if (fst size <? 1) || (snd size <? 1)
  then Raise (ValueError "height and width must be > 0")
  else Ok (mkImage size (img_mode img) (pil_lanczos pil img size)).

(** [img.convert("1")]: same size, mode "1". *)
Definition Image_convert_1 (pil : Pil) (img : Image) : Image :=
  mkImage (img_size img) "1" (pil_dither pil img).

Definition MAX_WIDTH : Z := 512.
Definition MAX_HEIGHT : Z := 342.

(** The size arithmetic of [optimize_image]:
[[
    ratio = min(MAX_WIDTH / width, MAX_HEIGHT / height)
    new_size = (int(width * ratio), int(height * ratio))
]] *)
Definition new_size (width height : Z) : Result (Z * Z) :=
  rbind (Float64.int_truediv MAX_WIDTH width) (fun rw =>
  rbind (Float64.int_truediv MAX_HEIGHT height) (fun rh =>
  let ratio := Float64.min2 rw rh in
  rbind (Float64.to_int (Float64.int_mul width ratio)) (fun nw =>
  rbind (Float64.to_int (Float64.int_mul height ratio)) (fun nh =>
  Ok (nw, nh))))).

(** [optimize_image] from the decoded image to the image that is saved. *)
Definition optimize_decoded (pil : Pil) (img : Image) : Result Image :=
  let '(width, height) := img_size img in
  rbind (if (width >? MAX_WIDTH) || (height >? MAX_HEIGHT)
         then rbind (new_size width height) (Image_resize pil img)
         else Ok img) (fun img' =>
  Ok (Image_convert_1 pil img')).

Definition optimize_image (pil : Pil) (image_data : bytes) : Result bytes :=
  rbind (pil_open pil image_data) (fun img =>
  rbind (optimize_decoded pil img) (fun img' =>
  Ok (pil_save_gif pil img'))).


(* ================================================================== *)
(** * Werkzeug and Flask: headers, requests, responses *)
(* ================================================================== *)

Module Wz.

(** A [Headers] object: an ordered list of pairs whose keys compare
    without regard to letter case. *)
Definition Headers := list (string * string).

Definition key_eqb (a b : string) : bool :=
  String.eqb (PyStr.lower a) (PyStr.lower b).

(** [headers.get(key)] *)
Fixpoint get (h : Headers) (key : string) : option string :=
  match h with
  | [] => None
  | (k, v) :: r => if key_eqb k key then Some v else get r key
  end.

Definition remove (h : Headers) (key : string) : Headers :=
  filter (fun kv => negb (key_eqb (fst kv) key)) h.

(** [headers[key] = value]: the first entry under [key] is replaced in
    place and every later one removed; appended when there is none. *)
Fixpoint set (h : Headers) (key value : string) : Headers :=
  match h with
  | [] => [(key, value)]
  | (k, v) :: r =>
      if key_eqb k key then (key, value) :: remove r key
      else (k, v) :: set r key value
  end.

End Wz.

(** Body of a response: [bytes] or [str]. *)
Inductive Content : Type :=
| Bytes (b : bytes)
| Str (s : string).

(** A [flask.Response]. *)
Record Response : Type := mkResponse {
  resp_data : Content;
  resp_status : Z;
  resp_headers : Wz.Headers
}.

(** [str(n)] for a length *)
Definition decimal (n : nat) : string := NilZero.string_of_uint (Nat.to_uint n).

(** [len] of the body as it is sent. A [str] is represented by its UTF-8
    encoding, so its encoded length is its length. *)
Definition content_length (content : Content) : nat :=
  match content with
  | Bytes b => String.length b
  | Str s => String.length s
  end.

(** [Response(content, status_code)]: the default content type of a
    Flask response, and the length of the body that [set_data] records. *)
Definition Response_new (content : Content) (status_code : Z) : Response :=
  mkResponse content status_code
             [("Content-Type", "text/html; charset=utf-8");
              ("Content-Length", decimal (content_length content))].

(** A carriage return or a line feed in a header value. *)
Fixpoint has_newline (s : string) : bool :=
  match s with
  | EmptyString => false
  | String c t => Ascii.eqb c "010"%char || Ascii.eqb c "013"%char || has_newline t
  end.

(** [response.headers[key] = value]; werkzeug refuses a value with a
    newline in it. *)
Definition Response_set_header (r : Response) (kv : string * string) : Result Response :=
  if has_newline (snd kv)
  then Raise (ValueError "Header values must not contain newline characters.")
  else Ok (mkResponse (resp_data r) (resp_status r)
                      (Wz.set (resp_headers r) (fst kv) (snd kv))).

(** What a handler may return: a tuple, a response object, or a body. *)
Inductive ResponseLike : Type :=
| Tuple3 (content : Content) (status_code : Z) (headers : PyDict.t string)
| Tuple2 (content : Content) (status_code : Z)
| TupleN (first : option Content)   (* a tuple of any other length, with its element 0 if it has one *)
| Resp (r : Response)
| Raw (content : Content).

(** The inbound [flask.request]. *)
Record Request : Type := mkRequest {
  req_url : string;
  req_method : string;
  req_headers : Wz.Headers;
  req_args : PyDict.t string;
  req_form : PyDict.t string
}.

(** [urlparse(url)], the two fields the program reads *)
Record ParseResult : Type := mkParseResult {
  scheme : string;
  netloc : string
}.

(** A [requests.Response] whose body has been read. *)
Record HttpResponse : Type := mkHttpResponse {
  http_status : Z;
  http_content : bytes;
  http_headers : PyDict.t string   (* [dict(resp.headers)] *)
}.

(** A [requests.Response] opened with [stream=True]: the status is
    known, the body is read from the connection on first use. *)
Record StreamResponse : Type := mkStreamResponse {
  stream_status : Z;
  stream_conn : nat
}.

(** [response.raise_for_status()] *)
Definition raise_for_status (status : Z) : Result unit :=
  if (400 <=? status) && (status <? 600) then Raise (HTTPError status) else Ok tt.

(* ================================================================== *)
(** * Constants of the module *)
(* ================================================================== *)

Definition ERROR_HEADER : string := "[[Macproxy Encountered an Error]]".

Definition USER_AGENT : string :=
  "Mozilla/5.0 (Macintosh; Intel Mac OS X 10_15_7) AppleWebKit/537.36 (KHTML, like Gecko) Chrome/91.0.4472.114 Safari/537.36".

(** The headers of an image request: [{"User-Agent": USER_AGENT}] *)
Definition image_headers : PyDict.t string := [("User-Agent", USER_AGENT)].

(** The parsed command line. *)
Record CmdLine : Type := mkCmdLine {
  arg_port : Z;
  arg_user_agent : string;
  arg_html_formatter : string;
  arg_disable_char_conversion : bool
}.

(** The two keys [__main__] stores in [app.config]. *)
Record AppConfig : Type := mkAppConfig {
  cfg_USER_AGENT : string;
  cfg_DISABLE_CHAR_CONVERSION : bool
}.

(** [__main__]: from the parsed arguments to [app.config]. *)
Definition main_config (arguments : CmdLine) : AppConfig :=
  mkAppConfig (arg_user_agent arguments) (arg_disable_char_conversion arguments).

(* ================================================================== *)
(** * The world outside and the events sent to it *)
(* ================================================================== *)

Inductive Event : Type :=
| EvImageGet (url : string)              (* requests.get(url, stream=True, ...) *)
| EvImageBody (url : string)             (* response.content of that request *)
| EvOptimize (url : string)              (* optimize_image on that body *)
| EvCacheWrite (file_name : string)      (* the file written under CACHE_DIR *)
| EvHandler (ext : string)               (* <extension>.handle_request(request) *)
| EvOverrideStatus (ext : string)        (* <extension>.get_override_status() *)
| EvUpstream (method url : string) (headers : PyDict.t (option string)). (* session.get / session.post *)

(** An extension module of the [extensions] package. *)
Record ExtModule (Ext : Type) : Type := mkExtModule {
  ext_name : string;                                         (* the entry of ENABLED_EXTENSIONS *)
  DOMAIN : string;
  ext_handle_request : Request -> Ext -> Result ResponseLike * Ext;
  ext_get_override_status : option (Ext -> Result bool * Ext)  (* [None]: no such attribute *)
}.
Arguments mkExtModule {Ext}.
Arguments ext_name {Ext} _.
Arguments DOMAIN {Ext} _.
Arguments ext_handle_request {Ext} _.
Arguments ext_get_override_status {Ext} _.

(** [module.__name__] of [__import__(f"extensions.{ext}.{ext}")] *)
Definition module_name {Ext} (m : ExtModule Ext) : string :=
  "extensions." ++ ext_name m ++ "." ++ ext_name m.

(** The library functions the pipeline calls. *)
Record Lib (Ext : Type) : Type := mkLib {
  (** [urlparse] and [urljoin] of [urllib.parse] *)
  urlparse : string -> ParseResult;
  urljoin : string -> string -> Result string;   (* raises ValueError on a malformed URL *)
  (** [hashlib.md5(url.encode()).hexdigest()] *)
  md5_hexdigest : string -> string;
  (** [b.decode('utf-8', errors='replace')] *)
  utf8_decode_replace : bytes -> string;
  (** [html_utils.transcode_html] *)
  transcode_html : string -> bool -> string;
  (** BeautifulSoup: the parsed document, its [img] tags in document
      order, their [src] attribute, and [str(soup)] *)
  Soup : Type;
  soup_parse : string -> Result Soup;             (* raises on markup the parser rejects *)
  soup_find_all_img : Soup -> list nat;
  soup_get_src : Soup -> nat -> option string;
  soup_set_src : Soup -> nat -> string -> Soup;
  soup_str : Soup -> string;
  (** PIL *)
  pil : Pil;
  (** [requests.get(url, stream=True, headers=headers)] and reading the body *)
  requests_get_stream : string -> PyDict.t string -> Ext -> Result StreamResponse * Ext;
  stream_content : StreamResponse -> Ext -> Result bytes * Ext;
  (** [session.get(url, params=..., headers=...)] and
      [session.post(url, data=..., headers=..., allow_redirects=True)] *)
  session_send : string -> string -> PyDict.t string -> PyDict.t (option string)
                 -> Ext -> Result HttpResponse * Ext
}.
Arguments mkLib {Ext}.
Arguments urlparse {Ext} _.
Arguments urljoin {Ext} _.
Arguments md5_hexdigest {Ext} _.
Arguments utf8_decode_replace {Ext} _.
Arguments transcode_html {Ext} _.
Arguments Soup {Ext} _.
Arguments soup_parse {Ext} _.
Arguments soup_find_all_img {Ext} _.
Arguments soup_get_src {Ext} _.
Arguments soup_set_src {Ext} _.
Arguments soup_str {Ext} _.
Arguments pil {Ext} _.
Arguments requests_get_stream {Ext} _.
Arguments stream_content {Ext} _.
Arguments session_send {Ext} _.

(** The mutable state of the process and of what it talks to. *)
Record World (Ext : Type) : Type := mkWorld {
  override_extension : option string;   (* the module global *)
  cache_dir : PyDict.t bytes;           (* CACHE_DIR: file name -> contents *)
  outside : Ext;                        (* upstream servers, extension internals *)
  trace : list Event                    (* the calls made so far, oldest first *)
}.
Arguments mkWorld {Ext}.
Arguments override_extension {Ext} _.
Arguments cache_dir {Ext} _.
Arguments outside {Ext} _.
Arguments trace {Ext} _.

(* ================================================================== *)
(** * Computations: state of the world plus exceptions *)
(* ================================================================== *)

Section Monad.

Context {Ext : Type}.

Definition M (A : Type) : Type := World Ext -> Result A * World Ext.

Definition ret {A} (a : A) : M A := fun w => (Ok a, w).

Definition bind {A B} (m : M A) (k : A -> M B) : M B :=
  fun w => match m w with
           | (Ok a, w') => k a w'
           | (Raise e, w') => (Raise e, w')
           end.

Definition raise {A} (e : Exn) : M A := fun w => (Raise e, w).

(** [try: m  except Exception as e: h e] *)
Definition try_except {A} (m : M A) (h : Exn -> M A) : M A :=
  fun w => match m w with
           | (Ok a, w') => (Ok a, w')
           | (Raise e, w') => h e w'
           end.

Definition lift {A} (r : Result A) : M A := fun w => (r, w).

(** Record a call in the trace. *)
Definition emit (ev : Event) : M unit :=
  fun w => (Ok tt, mkWorld (override_extension w) (cache_dir w) (outside w) (trace w ++ [ev])).

(** A call that leaves the program. *)
Definition call_out {A} (f : Ext -> Result A * Ext) : M A :=
  fun w => let '(r, o) := f (outside w) in
           (r, mkWorld (override_extension w) (cache_dir w) o (trace w)).

Definition get_override : M (option string) :=
  fun w => (Ok (override_extension w), w).

Definition set_override (o : option string) : M unit :=
  fun w => (Ok tt, mkWorld o (cache_dir w) (outside w) (trace w)).

(** [os.path.exists(os.path.join(CACHE_DIR, file_name))] *)
Definition cache_exists (file_name : string) : M bool :=
  fun w => (Ok (PyDict.mem (cache_dir w) file_name), w).

(** [with open(file_path, 'wb') as f: f.write(data)] *)
Definition cache_write (file_name : string) (data : bytes) : M unit :=
  fun w => (Ok tt, mkWorld (override_extension w) (PyDict.set (cache_dir w) file_name data)
                           (outside w) (trace w ++ [EvCacheWrite file_name])).

End Monad.

Declare Scope proxy_scope.
Delimit Scope proxy_scope with proxy.
Notation "x <- m ;; k" := (bind m (fun x => k))
  (at level 61, m at next level, right associativity) : proxy_scope.
Notation "m ;;; k" := (bind m (fun _ => k))
  (at level 61, right associativity) : proxy_scope.
Local Open Scope proxy_scope.

(* ================================================================== *)
(** * proxy.py *)
(* ================================================================== *)

Section Proxy.

Context {Ext : Type}.
Variable lib : Lib Ext.
Variable app_config : AppConfig.
(** The modules imported for the names of [config.ENABLED_EXTENSIONS],
    in that order. *)
Variable ENABLED_EXTENSIONS : list (ExtModule Ext).

(** ** Loading the extensions
[[
  for ext in ENABLED_EXTENSIONS:
      extensions[ext] = module
      domain_to_extension[module.DOMAIN] = module
]] *)
Definition load_extensions (enabled : list (ExtModule Ext))
  : PyDict.t (ExtModule Ext) * PyDict.t (ExtModule Ext) :=
  fold_left (fun acc module =>
               (PyDict.set (fst acc) (ext_name module) module,
                PyDict.set (snd acc) (DOMAIN module) module))
            enabled (PyDict.empty, PyDict.empty).

Definition extensions : PyDict.t (ExtModule Ext) :=
  fst (load_extensions ENABLED_EXTENSIONS).

Definition domain_to_extension : PyDict.t (ExtModule Ext) :=
  snd (load_extensions ENABLED_EXTENSIONS).

(** ** The image cache *)

Definition fetch_and_cache_image (url : string) : M (option string) :=
  try_except
    (emit (EvImageGet url) ;;;
     response <- call_out (requests_get_stream lib url image_headers) ;;
     lift (raise_for_status (stream_status response)) ;;;
     let file_name := md5_hexdigest lib url ++ ".gif" in
     present <- cache_exists file_name ;;
     (if negb present then
        emit (EvImageBody url) ;;;
        content <- call_out (stream_content lib response) ;;
        emit (EvOptimize url) ;;;
        optimized_image <- lift (optimize_image (pil lib) content) ;;
        cache_write file_name optimized_image
      else ret tt) ;;;
     let cached_url := "/cached_image/" ++ file_name in
     ret (Some cached_url))
    (fun _ => ret None).

(** One turn of the loop of [replace_image_urls]. *)
Definition replace_one (base_url : string) (soup : Soup lib) (img : nat) : M (Soup lib) :=
  let src := soup_get_src lib soup img in
  if PyStr.truthy src then
    match src with
    | Some src =>
        full_url <- lift (urljoin lib base_url src) ;;
        cached_url <- fetch_and_cache_image full_url ;;
        if PyStr.truthy cached_url then
          match cached_url with
          | Some cached_url => ret (soup_set_src lib soup img cached_url)
          | None => ret soup
          end
        else ret soup
    | None => ret soup
    end
  else ret soup.

Fixpoint replace_loop (base_url : string) (imgs : list nat) (soup : Soup lib) : M (Soup lib) :=
  match imgs with
  | [] => ret soup
  | img :: rest => soup' <- replace_one base_url soup img ;; replace_loop base_url rest soup'
  end.

Definition replace_image_urls (content base_url : string) : M string :=
  soup <- lift (soup_parse lib content) ;;
  soup' <- replace_loop base_url (soup_find_all_img lib soup) soup ;;
  ret (soup_str lib soup').

(** ** The response normalizer *)

(** The three ways the normalizer treats a body. *)
Inductive Branch : Type := BranchHtml | BranchText | BranchPassthrough.

(** [content_type = headers.get('Content-Type', '').lower()] and the
    two [startswith] tests. *)
Definition content_type_of (headers : PyDict.t string) : string :=
  PyStr.lower (PyDict.get_default headers "Content-Type" "").

Definition branch_of (headers : PyDict.t string) : Branch :=
  let content_type := content_type_of headers in
  if PyStr.startswith "text/html" content_type then BranchHtml
  else if PyStr.startswith "text/" content_type then BranchText
  else BranchPassthrough.

(** [if isinstance(content, bytes): content = content.decode('utf-8', errors='replace')] *)
Definition decode_if_bytes (content : Content) : string :=
  match content with
  | Bytes b => utf8_decode_replace lib b
  | Str s => s
  end.

(** [for key, value in headers.items(): response.headers[key] = value] *)
Fixpoint set_headers (items : list (string * string)) (response : Response) : Result Response :=
  match items with
  | [] => Ok response
  | kv :: rest => rbind (Response_set_header response kv) (set_headers rest)
  end.

(** The final response: status, body, and every pair of [headers] set
    in turn. *)
Definition build_response (content : Content) (status_code : Z) (headers : PyDict.t string)
  : Result Response :=
  set_headers (PyDict.items headers) (Response_new content status_code).

Definition process_parts (content : Content) (status_code : Z) (headers : PyDict.t string)
                         (base_url : string) : M Response :=
  content' <-
    match branch_of headers with
    | BranchHtml =>
        c <- replace_image_urls (decode_if_bytes content) base_url ;;
        ret (Str (transcode_html lib c (cfg_DISABLE_CHAR_CONVERSION app_config)))
    | BranchText =>
        ret (Str (transcode_html lib (decode_if_bytes content)
                                 (cfg_DISABLE_CHAR_CONVERSION app_config)))
    | BranchPassthrough => ret content
    end ;;
  lift (build_response content' status_code headers).

Definition process_response_with_image_caching (response : ResponseLike) (base_url : string)
  : M Response :=
  match response with
  | Tuple3 content status_code headers => process_parts content status_code headers base_url
  | Tuple2 content status_code => process_parts content status_code PyDict.empty base_url
  | TupleN (Some content) => process_parts content 200 PyDict.empty base_url
  | TupleN None => raise IndexError
  | Resp r => ret r
  | Raw content => process_parts content 200 PyDict.empty base_url
  end.

(** ** The default fetcher *)

Definition prepare_headers (request : Request) : PyDict.t (option string) :=
  [ ("Accept", Wz.get (req_headers request) "Accept");
    ("Accept-Language", Wz.get (req_headers request) "Accept-Language");
    ("Referer", Wz.get (req_headers request) "Referer");
    ("User-Agent", Some USER_AGENT) ].

Definition send_request (request : Request) (url : string) (headers : PyDict.t (option string))
  : M HttpResponse :=
  if String.eqb (req_method request) "POST" then
    emit (EvUpstream "POST" url headers) ;;;
    call_out (session_send lib "POST" url (req_form request) headers)
  else
    emit (EvUpstream "GET" url headers) ;;;
    call_out (session_send lib "GET" url (req_args request) headers).

Definition handle_default_request (request : Request) : M Response :=
  let url := PyStr.replace_first "https://" "http://" (req_url request) in
  let headers := prepare_headers request in
  try_except
    (resp <- send_request request url headers ;;
     process_response_with_image_caching
       (Tuple3 (Bytes (http_content resp)) (http_status resp) (http_headers resp)) url)
    (fun e => raise (HTTPException 500 (ERROR_HEADER ++ exn_str e))).

(** ** The dispatcher *)

Definition check_override_status (extension_name : string) (module : ExtModule Ext) : M unit :=
  match ext_get_override_status module with
  | Some get_override_status =>
      emit (EvOverrideStatus (ext_name module)) ;;;
      status <- call_out get_override_status ;;
      if negb status then set_override None else ret tt
  | None => ret tt
  end.

Definition handle_override_extension (request : Request) (scheme : string)
  : M (option Response) :=
  ov <- get_override ;;
  if PyStr.truthy ov then
    match ov with
    | Some name =>
        let extension_name := PyStr.split_last "."%char name in
        match PyDict.get extensions extension_name with
        | Some module =>
            if existsb (String.eqb scheme) ["http"; "https"; "ftp"] then
              emit (EvHandler (ext_name module)) ;;;
              response <- call_out (ext_handle_request module request) ;;
              check_override_status extension_name module ;;;
              r <- process_response_with_image_caching response (req_url request) ;;
              ret (Some r)
            else ret None
        | None => set_override None ;;; ret None
        end
    | None => ret None
    end
  else ret None.

Fixpoint find_in_items (items : list (string * ExtModule Ext)) (host : string)
  : option (ExtModule Ext) :=
  match items with
  | [] => None
  | (domain, extension) :: rest =>
      if PyStr.endswith host domain then Some extension else find_in_items rest host
  end.

Definition find_matching_extension (host : string) : option (ExtModule Ext) :=
  find_in_items (PyDict.items domain_to_extension) host.

Definition handle_matching_extension (request : Request) (matching_extension : ExtModule Ext)
  : M Response :=
  emit (EvHandler (ext_name matching_extension)) ;;;
  response <- call_out (ext_handle_request matching_extension request) ;;
  match ext_get_override_status matching_extension with
  | Some get_override_status =>
      emit (EvOverrideStatus (ext_name matching_extension)) ;;;
      status <- call_out get_override_status ;;
      if status then set_override (Some (module_name matching_extension)) else ret tt
  | None => ret tt
  end ;;;
  process_response_with_image_caching response (req_url request).

Definition handle_request (request : Request) : M Response :=
  let parsed_url := urlparse lib (req_url request) in
  let scheme := scheme parsed_url in
  let host := PyStr.split_first ":"%char (netloc parsed_url) in
  override_response <- handle_override_extension request scheme ;;
  match override_response with
  | Some override_response =>
      process_response_with_image_caching (Resp override_response) (req_url request)
  | None =>
      match find_matching_extension host with
      | Some matching_extension => handle_matching_extension request matching_extension
      | None => handle_default_request request
      end
  end.

End Proxy.

(* ================================================================== *)
(** * The rest of proxy.py: start-up, the static route, the response hook *)
(* ================================================================== *)

(** What Flask's [send_file] makes of a file that exists: the response
    for its contents under the given mimetype, which may depend on the
    conditional headers of the request being served. *)
Record Flask : Type := mkFlask {
  send_file : Request -> bytes -> string -> Response
}.

Section Rest.

Context {Ext : Type}.
Variable flask : Flask.


(** The description of werkzeug's [NotFound]. *)
Definition NOT_FOUND_DESCRIPTION : string :=
  "The requested URL was not found on the server. If you entered the URL manually please check your spelling and try again.".

(** Flask's [send_from_directory(directory, filename, mimetype=...)]:
    [send_file] on the file of that name, and [NotFound] for a name that
    is no file of the directory. *)
Definition send_from_directory (request : Request) (directory : PyDict.t bytes)
           (filename mimetype : string) : Result Response :=
  match PyDict.get directory filename with
  | Some data => Ok (send_file flask request data mimetype)
  | None => Raise (HTTPException 404 NOT_FOUND_DESCRIPTION)
  end.

(** The route [/cached_image/<path:filename>] *)
Definition serve_cached_image (request : Request) (filename : string) : @M Ext Response :=
  fun w => (send_from_directory request (cache_dir w) filename "image/gif", w).

(** The [after_request] hook; [g_content_type] is [g.content_type], or
    [None] when no handler of the request has set that attribute. The
    bare [except] swallows the missing attribute and the refused
    assignment alike.
[[
  try: resp.headers["Content-Type"] = g.content_type
  except: pass
  return resp
]] *)
Definition apply_caching (g_content_type : option string) (resp : Response) : Response :=
  match g_content_type with
  | Some content_type =>
      match Response_set_header resp ("Content-Type", content_type) with
      | Ok resp' => resp'
      | Raise _ => resp
      end
  | None => resp
  end.

End Rest.

(* ================================================================== *)
(** * A small concrete world

    Stand-ins for the libraries and a handful of extension modules, on
    which the pipeline runs by computation: URLs of the shape
    [scheme://netloc/path], documents that are one [img] tag or none,
    images whose encoding is their size, and an outside world that only
    counts the HTTP requests it has answered. An image source that
    starts with [//[] is no URL, and a document that starts with [<![]
    is rejected by the parser. *)
(* ================================================================== *)

Module Demo.

Definition urlparse (url : string) : ParseResult :=
  let scheme := PyStr.split_first ":"%char url in
  mkParseResult scheme
                (PyStr.split_first "/"%char (PyStr.drop (String.length scheme + 3) url)).

Definition img_open : string := "<img src='".

Definition find_all_img (doc : string) : list nat :=
  if String.prefix img_open doc then [0%nat] else [].

Definition get_src (doc : string) (tag : nat) : option string :=
  if String.prefix img_open doc
  then Some (PyStr.split_first "'"%char (PyStr.drop (String.length img_open) doc))
  else None.

Definition set_src (doc : string) (tag : nat) (v : string) : string :=
  match get_src doc tag with
  | Some old => img_open ++ v ++ PyStr.drop (String.length img_open + String.length old) doc
  | None => doc
  end.

(** Every body decodes to a 600 x 400 RGB image. *)
Definition demo_pil : Pil :=
  mkPil (fun data => Ok (mkImage (600, 400) "RGB" data))
        (fun img _ => img_raster img)
        (fun img => img_raster img)
        (fun img => "GIF:" ++ img_mode img).

(** [status_of n]: the status of the answer to the request number [n];
    [online]: whether the default fetcher reaches its upstream server. *)
Definition make_lib (status_of : nat -> Z) (online : bool) : Lib nat :=
  mkLib urlparse
        (fun base src => if String.prefix "//[" src
                         then Raise (ValueError "Invalid IPv6 URL") else Ok src)
        (fun url => "md5-of-" ++ url)
        (fun b => b)
        (fun s disable => if disable then s else "<transcoded>" ++ s)
        string
        (fun s => if String.prefix "<![" s
                  then Raise (OtherException "the parser rejected the markup") else Ok s)
        find_all_img get_src set_src (fun s => s)
        demo_pil
        (fun url headers n => (Ok (mkStreamResponse (status_of n) n), S n))
        (fun resp n => (Ok "image-bytes", n))
        (fun method url payload headers n =>
           if online
           then (Ok (mkHttpResponse (status_of n) "<p>upstream</p>"
                                    [("Content-Type", "text/html")]), S n)
           else (Raise (OtherException "connection refused"), n)).

Definition demo_lib (status_of : nat -> Z) : Lib nat := make_lib status_of true.

Definition always_ok : nat -> Z := fun _ => 200.
Definition ok_then_503 : nat -> Z := fun n => if Nat.eqb n 0 then 200 else 503.

Definition html_page : ResponseLike :=
  Tuple3 (Bytes "<p>page</p>") 200 [("Content-Type", "text/html")].

(** Serves a page, never asks for the override. *)
Definition ext_plain (name domain : string) : ExtModule nat :=
  mkExtModule name domain (fun _ n => (Ok html_page, n)) None.

(** Serves a page and reports override status [status]. *)
Definition ext_status (name domain : string) (status : bool) : ExtModule nat :=
  mkExtModule name domain (fun _ n => (Ok html_page, n)) (Some (fun n => (Ok status, n))).

(** Its handler raises. *)
Definition ext_failing (name domain : string) : ExtModule nat :=
  mkExtModule name domain (fun _ n => (Raise (OtherException "boom"), n)) None.

Definition get (url : string) : Request :=
  mkRequest url "GET" [("Accept", "text/html"); ("Cookie", "session=1")] [] [].

Definition fresh : World nat := mkWorld None [] 0%nat [].

Definition with_override (name : string) : World nat := mkWorld (Some name) [] 0%nat [].

Definition config : AppConfig := main_config (mkCmdLine 5001 "Mozilla/5.0" "html5" false).

End Demo.

(* ================================================================== *)
(** * More of the concrete world *)
(* ================================================================== *)

Module Scenes.



(** Every body decodes to an image 1024 wide and 1 high. *)
Definition sliver_pil : Pil :=
  mkPil (fun data => Ok (mkImage (1024, 1) "RGB" data))
        (fun img _ => img_raster img)
        (fun img => img_raster img)
        (fun img => "GIF:" ++ img_mode img).

(** [lib] with another PIL. *)
Definition with_pil (lib : Lib nat) (p : Pil) : Lib nat :=
  mkLib (urlparse lib) (urljoin lib) (md5_hexdigest lib) (utf8_decode_replace lib)
        (transcode_html lib)
        (Soup lib) (soup_parse lib) (soup_find_all_img lib) (soup_get_src lib)
        (soup_set_src lib) (soup_str lib)
        p
        (requests_get_stream lib) (stream_content lib) (session_send lib).

Definition sliver_lib : Lib nat := with_pil (Demo.demo_lib Demo.always_ok) sliver_pil.

(** [lib] with an upstream server that answers every request with the
    HTML page [page], status 200. *)
Definition with_upstream_page (lib : Lib nat) (page : string) : Lib nat :=
  mkLib (urlparse lib) (urljoin lib) (md5_hexdigest lib) (utf8_decode_replace lib)
        (transcode_html lib)
        (Soup lib) (soup_parse lib) (soup_find_all_img lib) (soup_get_src lib)
        (soup_set_src lib) (soup_str lib)
        (pil lib)
        (requests_get_stream lib) (stream_content lib)
        (fun method url payload headers n =>
           (Ok (mkHttpResponse 200 page [("Content-Type", "text/html")]), S n)).

(** Every server answers 503, respectively 404. *)
Definition always_503 : nat -> Z := fun _ => 503.
Definition always_404 : nat -> Z := fun _ => 404.

(** [send_file] without conditional headers: the contents, status 200. *)
Definition flask : Flask :=
  mkFlask (fun _ data mimetype => mkResponse (Bytes data) 200 [("Content-Type", mimetype)]).

(** A GET that carries credentials. *)
Definition get_with_credentials (url : string) : Request :=
  mkRequest url "GET"
            [("Accept", "text/html"); ("Cookie", "session=2"); ("Authorization", "Basic abc")]
            [] [].

End Scenes.

(* ================================================================== *)
(** * Vocabulary of the statements

    What the theorems below are stated with, beyond the program itself:
    names for the parts of its runs, the reading of a float as a real
    number, and what Flask makes of the outcome of the view function. *)
(* ================================================================== *)

Section CacheVocabulary.

Context {Ext : Type}.
Variable lib : Lib Ext.

(** The file name and the reference the cache uses for a URL. *)
Definition cache_key (url : string) : string := md5_hexdigest lib url ++ ".gif".
Definition cache_ref (url : string) : string := "/cached_image/" ++ cache_key url.

(** The world after a call that only issued the streamed GET. *)
Definition after_get (url : string) (w : World Ext) (o : Ext) : World Ext :=
  mkWorld (override_extension w) (cache_dir w) o (trace w ++ [EvImageGet url]).

(** What a call returns when the entry is already on disk: the reference
    if the GET came back with a status that is no error, and nothing
    otherwise. *)
Definition revalidate (url : string) (o : Ext) : option string * Ext :=
  match requests_get_stream lib url image_headers o with
  | (Ok response, o') =>
      match raise_for_status (stream_status response) with
      | Ok _ => (Some (cache_ref url), o')
      | Raise _ => (None, o')
      end
  | (Raise _, o') => (None, o')
  end.

End CacheVocabulary.


Definition set_all (headers : PyDict.t string) (h0 : Wz.Headers) : Wz.Headers :=
  fold_left (fun h kv => Wz.set h (fst kv) (snd kv)) headers h0.

Definition image_event (ev : Event) : Prop :=
  match ev with
  | EvImageGet _ | EvImageBody _ | EvOptimize _ | EvCacheWrite _ => True
  | EvHandler _ | EvOverrideStatus _ | EvUpstream _ _ _ => False
  end.

(** What the image cache may change: it leaves the override slot alone
    and adds only events of its own to the trace. *)
Definition image_step {Ext} (w w' : World Ext) : Prop :=
  override_extension w' = override_extension w
  /\ exists evs, trace w' = (trace w ++ evs)%list /\ Forall image_event evs.

Section NormalizerVocabulary.

Context {Ext : Type}.
Variable lib : Lib Ext.
Variable app_config : AppConfig.

(** The body the normalizer puts into the response. *)
Definition normalized_body (content : Content) (headers : PyDict.t string) (base_url : string)
  : M Content :=
  let content_type := PyStr.lower (PyDict.get_default headers "Content-Type" "") in
  if PyStr.startswith "text/html" content_type then
    c <- replace_image_urls lib (decode_if_bytes lib content) base_url ;;
    ret (Str (transcode_html lib c (cfg_DISABLE_CHAR_CONVERSION app_config)))
  else if PyStr.startswith "text/" content_type then
    ret (Str (transcode_html lib (decode_if_bytes lib content)
                             (cfg_DISABLE_CHAR_CONVERSION app_config)))
  else ret content.

(** The parts of a response that is not a response object: content,
    status defaulting to 200, headers defaulting to empty. *)
Definition decompose (response : ResponseLike) : option (Content * Z * PyDict.t string) :=
  match response with
  | Tuple3 content status_code headers => Some (content, status_code, headers)
  | Tuple2 content status_code => Some (content, status_code, PyDict.empty)
  | TupleN (Some content) => Some (content, 200, PyDict.empty)
  | Raw content => Some (content, 200, PyDict.empty)
  | TupleN None | Resp _ => None
  end.

(** The body and the world a run of the normalizer ends with. *)
Definition body_of (x : Result Response * World Ext) : Result Content * World Ext :=
  (match fst x with Ok r => Ok (resp_data r) | Raise e => Raise e end, snd x).

End NormalizerVocabulary.

(** No value of the mapping has a newline in it: every pair can be
    assigned to the headers of a response. *)
Definition assignable (headers : PyDict.t string) : bool :=
  forallb (fun kv => negb (has_newline (snd kv))) headers.

(** ** The normalizer as the specification words it

Section 4.2 and 4.3 of the specification, written out step by step
    and without the functions of [proxy.py], to be compared with
    [process_response_with_image_caching]. The image cache of section
    4.4 is [fetch_and_cache_image]. *)

Section NormalizerSpecification.

Context {Ext : Type}.
Variable lib : Lib Ext.
Variable app_config : AppConfig.

(** "decode bytes as UTF-8 with lossy replacement of invalid sequences
    if needed" *)
Definition spec_decode (content : Content) : string :=
  match content with
  | Bytes b => utf8_decode_replace lib b
  | Str text => text
  end.

(** "locate every image-reference element's source attribute, resolve
    it against the base URL into an absolute URL, and replace it with a
    reference to a locally cached, transformed copy"; a per-image failure
    "leaves that one image's source attribute unmodified and continues
    with the remaining images". An element without a source, or with an
    empty one, is passed over. The resolution itself is no per-image
    failure: when it raises, the rewriting ends with that exception. *)
Fixpoint spec_rewrite_tags (base_url : string) (tags : list nat) (doc : Soup lib)
         (w : World Ext) : Result (Soup lib) * World Ext :=
  match tags with
  | [] => (Ok doc, w)
  | tag :: rest =>
      match soup_get_src lib doc tag with
      | None => spec_rewrite_tags base_url rest doc w
      | Some EmptyString => spec_rewrite_tags base_url rest doc w
      | Some source =>
          match urljoin lib base_url source with
          | Raise e => (Raise e, w)
          | Ok absolute =>
              match fetch_and_cache_image lib absolute w with
              | (Ok (Some reference), w1) =>
                  spec_rewrite_tags base_url rest (soup_set_src lib doc tag reference) w1
              | (_, w1) => spec_rewrite_tags base_url rest doc w1
              end
          end
      end
  end.

Definition spec_rewrite_images (text base_url : string) (w : World Ext)
  : Result string * World Ext :=
  match soup_parse lib text with
  | Raise e => (Raise e, w)
  | Ok doc =>
      match spec_rewrite_tags base_url (soup_find_all_img lib doc) doc w with
      | (Ok doc', w') => (Ok (soup_str lib doc'), w')
      | (Raise e, w') => (Raise e, w')
      end
  end.

(** The headers a response starts with: Flask's content type and the
    length of the body. *)
Definition spec_default_headers (body : Content) : Wz.Headers :=
  [("Content-Type", "text/html; charset=utf-8");
   ("Content-Length",
    decimal (match body with Bytes b => String.length b | Str text => String.length text end))].

(** "Reassemble into a final response: status code, all original header
    key/value pairs re-applied, transformed content as body"; a header
    value with a newline in it cannot be applied. *)
Definition spec_assemble (body : Content) (status_code : Z) (headers : PyDict.t string)
  : Result Response :=
  if assignable headers
  then Ok (mkResponse body status_code (set_all headers (spec_default_headers body)))
  else Raise (ValueError "Header values must not contain newline characters.").

(** The three branches, by the declared content type. *)
Definition spec_body (content : Content) (headers : PyDict.t string) (base_url : string)
           (w : World Ext) : Result Content * World Ext :=
  let content_type := PyStr.lower (PyDict.get_default headers "Content-Type" "") in
  let flag := cfg_DISABLE_CHAR_CONVERSION app_config in
  if PyStr.startswith "text/html" content_type then
    match spec_rewrite_images (spec_decode content) base_url w with
    | (Ok markup, w') => (Ok (Str (transcode_html lib markup flag)), w')
    | (Raise e, w') => (Raise e, w')
    end
  else if PyStr.startswith "text/" content_type then
    (Ok (Str (transcode_html lib (spec_decode content) flag)), w)
  else (Ok content, w).

Definition spec_normalize (content : Content) (status_code : Z) (headers : PyDict.t string)
           (base_url : string) (w : World Ext) : Result Response * World Ext :=
  match spec_body content headers base_url w with
  | (Ok body, w') => (spec_assemble body status_code headers, w')
  | (Raise e, w') => (Raise e, w')
  end.

End NormalizerSpecification.

Section RegistryVocabulary.

Context {Ext : Type}.

(** The first module of a list whose DOMAIN is a suffix of [host]. *)
Definition first_match (host : string) (l : list (ExtModule Ext)) : option (ExtModule Ext) :=
  find (fun m => PyStr.endswith host (DOMAIN m)) l.

(** The last module of a list that declares the domain [d]. *)
Definition last_with_domain (d : string) (l : list (ExtModule Ext)) : option (ExtModule Ext) :=
  find (fun m => String.eqb (DOMAIN m) d) (rev l).

(** What registration order selects for [host]: the domain of the first
    module that matches, and under it the module stored last. *)
Definition selected (host : string) (l : list (ExtModule Ext)) : option (ExtModule Ext) :=
  match first_match host l with
  | Some m0 => last_with_domain (DOMAIN m0) l
  | None => None
  end.

Fixpoint find_item (items : list (string * ExtModule Ext)) (host : string)
  : option (string * ExtModule Ext) :=
  match items with
  | [] => None
  | (domain, extension) :: rest =>
      if PyStr.endswith host domain then Some (domain, extension) else find_item rest host
  end.

Definition register_domains (l : list (ExtModule Ext)) (d0 : PyDict.t (ExtModule Ext))
  : PyDict.t (ExtModule Ext) :=
  fold_left (fun d m => PyDict.set d (DOMAIN m) m) l d0.

Definition register_names (l : list (ExtModule Ext)) (d0 : PyDict.t (ExtModule Ext))
  : PyDict.t (ExtModule Ext) :=
  fold_left (fun d m => PyDict.set d (ext_name m) m) l d0.

End RegistryVocabulary.

(** Events by which a request is handed to a handler or to the default
    fetcher. *)
Definition dispatch_event (ev : Event) : bool :=
  match ev with
  | EvHandler _ | EvUpstream _ _ _ => true
  | EvImageGet _ | EvImageBody _ | EvOptimize _ | EvCacheWrite _ | EvOverrideStatus _ => false
  end.

Definition dispatches (tr : list Event) : list Event := filter dispatch_event tr.

Section DispatcherVocabulary.

Context {Ext : Type}.
Variable lib : Lib Ext.
Variable app_config : AppConfig.
Variable ENABLED_EXTENSIONS : list (ExtModule Ext).

Local Abbreviation process := (process_response_with_image_caching lib app_config).

(** [handle_request] with the override response returned as it is,
    without the second pass through the normalizer. *)
Definition handle_request_once (request : Request) : M Response :=
  let parsed_url := urlparse lib (req_url request) in
  let scheme := scheme parsed_url in
  let host := PyStr.split_first ":"%char (netloc parsed_url) in
  override_response <- handle_override_extension lib app_config ENABLED_EXTENSIONS request scheme ;;
  match override_response with
  | Some override_response => ret override_response
  | None =>
      match find_matching_extension ENABLED_EXTENSIONS host with
      | Some matching_extension =>
          handle_matching_extension lib app_config request matching_extension
      | None => handle_default_request lib app_config request
      end
  end.

(** The override path: the named extension's handler, the status check,
    one normalization. *)
Definition override_path (request : Request) (extension_name : string) (module : ExtModule Ext)
  : M Response :=
  emit (EvHandler (ext_name module)) ;;;
  response <- call_out (ext_handle_request module request) ;;
  check_override_status extension_name module ;;;
  process response (req_url request).

(** The extension gave the override up: its handler returned and its
    status then reported false. *)
Definition released (module : ExtModule Ext) (request : Request) (o : Ext) : bool :=
  match ext_handle_request module request o with
  | (Ok _, o1) =>
      match ext_get_override_status module with
      | Some get_override_status =>
          match get_override_status o1 with
          | (Ok status, _) => negb status
          | (Raise _, _) => false
          end
      | None => false
      end
  | (Raise _, _) => false
  end.


Definition supported (request : Request) : Prop :=
  In (scheme (urlparse lib (req_url request))) ["http"; "https"; "ftp"].

(** The requests of a list served one after the other. *)
Fixpoint serve (requests : list Request) (w : World Ext) : World Ext :=
  match requests with
  | [] => w
  | request :: rest =>
      serve rest (snd (handle_request lib app_config ENABLED_EXTENSIONS request w))
  end.

(** The override slot names [name] before each request of the list. *)
Fixpoint held (name : string) (requests : list Request) (w : World Ext) : Prop :=
  match requests with
  | [] => True
  | request :: rest =>
      override_extension w = Some name
      /\ held name rest (snd (handle_request lib app_config ENABLED_EXTENSIONS request w))
  end.

Definition cleared (w : World Ext) : World Ext :=
  mkWorld None (cache_dir w) (outside w) (trace w).

Definition request_host (request : Request) : string :=
  PyStr.split_first ":"%char (netloc (urlparse lib (req_url request))).

End DispatcherVocabulary.

Section FloatVocabulary.

Local Open Scope R_scope.

Definition bpow (e : Z) : R := powerRZ 2 e.

(** The real number a float stands for. *)
Definition F2R (x : spec_float) : R :=
  match x with
  | S754_finite s m e => IZR (cond_Zopp s (Zpos m)) * bpow e
  | _ => 0
  end.

(** The unit roundoff used for the bounds: one part in [2^52]. *)
Definition u : R := bpow (-52).

(** A positive normal float whose exponent is at most [k] in absolute
    value. *)
Definition good (k : Z) (x : spec_float) : Prop :=
  exists (m : positive) (e : Z),
    x = S754_finite false m e /\ (2 ^ 52 <= Zpos m < 2 ^ 53)%Z /\ (- k <= e <= k)%Z.

End FloatVocabulary.

(** [needle in hay] *)
Fixpoint contains (needle hay : string) : bool :=
  String.prefix needle hay
  || match hay with
     | EmptyString => false
     | String _ rest => contains needle rest
     end.

(** markupsafe's [escape], character by character. *)
Definition escape_char (c : ascii) : string :=
  if Ascii.eqb c "&"%char then "&amp;"
  else if Ascii.eqb c "<"%char then "&lt;"
  else if Ascii.eqb c ">"%char then "&gt;"
  else if Ascii.eqb c "'"%char then "&#39;"
  else if Ascii.eqb c "034"%char then "&#34;"
  else String c EmptyString.

Fixpoint html_escape (s : string) : string :=
  match s with
  | EmptyString => EmptyString
  | String c t => escape_char c ++ html_escape t
  end.

(** [.replace("\n", "<br>")] *)
Fixpoint br_newlines (s : string) : string :=
  match s with
  | EmptyString => EmptyString
  | String c t => (if Ascii.eqb c "010"%char then "<br>" else String c EmptyString)
                    ++ br_newlines t
  end.

Definition nl : string := String "010"%char EmptyString.

(** The name werkzeug gives a status. *)
Definition http_status_name (code : Z) : string :=
  if code =? 404 then "Not Found"
  else if code =? 500 then "Internal Server Error"
  else "Unknown Error".

(** The description of werkzeug's [InternalServerError]. *)
Definition INTERNAL_ERROR_DESCRIPTION : string :=
  "The server encountered an internal error and was unable to complete your request. Either the server is overloaded or there is an error in the application.".

(** werkzeug's [HTTPException.get_body]: the page for a status and a
    description, the description escaped and put in a paragraph. *)
Definition error_page (code : Z) (description : string) : string :=
  "<!doctype html>" ++ nl
  ++ "<html lang=en>" ++ nl
  ++ "<title>" ++ decimal (Z.to_nat code) ++ " " ++ http_status_name code ++ "</title>" ++ nl
  ++ "<h1>" ++ http_status_name code ++ "</h1>" ++ nl
  ++ "<p>" ++ br_newlines (html_escape description) ++ "</p>" ++ nl.

(** Flask around the view function: a returned response goes out as it
    is, [abort(code, description)] becomes werkzeug's page of that
    status around the description, and any other exception becomes the
    page of [InternalServerError]. *)
Definition flask_finalize (r : Result Response) : Response :=
  match r with
  | Ok response => response
  | Raise (HTTPException code description) =>
      Response_new (Str (error_page code description)) code
  | Raise _ =>
      Response_new (Str (error_page 500 INTERNAL_ERROR_DESCRIPTION)) 500
  end.

Definition carries_marker (response : Response) : bool :=
  match resp_data response with
  | Bytes b => contains ERROR_HEADER b
  | Str s => contains ERROR_HEADER s
  end.

(* ================================================================== *)
(** * More vocabulary *)
(* ================================================================== *)

(** Files of the cache stay, with their contents. *)
Definition cache_grows {Ext} (w w' : World Ext) : Prop :=
  forall file data,
    PyDict.get (cache_dir w) file = Some data -> PyDict.get (cache_dir w') file = Some data.

(** Every run of [m] relates the world before to the world after by [R]. *)
Definition keeps {Ext A} (R : World Ext -> World Ext -> Prop) (m : @M Ext A) : Prop :=
  forall w r w', m w = (r, w') -> R w w'.

(** No image request gets a usable answer. *)
Definition images_unreachable {Ext} (lib : Lib Ext) : Prop :=
  forall url o,
    match requests_get_stream lib url image_headers o with
    | (Ok response, _) => exists e, raise_for_status (stream_status response) = Raise e
    | (Raise _, _) => True
    end.



(** No dot in an extension's name. *)
Definition plain_name (name : string) : Prop := ~ In "."%char (list_ascii_of_string name).

(** The override slot is empty or names a registered extension. *)
Definition override_registered {Ext} (exts : list (ExtModule Ext)) (w : World Ext) : Prop :=
  match override_extension w with
  | None => True
  | Some name =>
      name <> "" /\ exists m, PyDict.get (extensions exts) (PyStr.split_last "."%char name) = Some m
  end.


(** The last module of a list that was enabled under the name [n]. *)
Definition last_with_name {Ext} (n : string) (l : list (ExtModule Ext)) : option (ExtModule Ext) :=
  find (fun m => String.eqb (ext_name m) n) (rev l).

(** Where a request goes once the override step has returned nothing. *)
Definition by_host {Ext} (lib : Lib Ext) (app_config : AppConfig)
           (ENABLED_EXTENSIONS : list (ExtModule Ext)) (request : Request) : @M Ext Response :=
  match find_matching_extension ENABLED_EXTENSIONS (request_host lib request) with
  | Some m => handle_matching_extension lib app_config request m
  | None => handle_default_request lib app_config request
  end.

(** What [send_request] sends: the method, and the payload that goes
    with it. *)
Definition outbound_method (request : Request) : string :=
  if String.eqb (req_method request) "POST" then "POST" else "GET".

Definition outbound_payload (request : Request) : PyDict.t string :=
  if String.eqb (req_method request) "POST" then req_form request else req_args request.

(** The URL the default fetcher asks for. *)
Definition outbound_url (request : Request) : string :=
  PyStr.replace_first "https://" "http://" (req_url request).

(** The world once the upstream request of the default fetcher has been
    answered. *)
Definition after_upstream {Ext} (request : Request) (w : World Ext) (o : Ext) : World Ext :=
  mkWorld (override_extension w) (cache_dir w) o
          (trace w ++ [EvUpstream (outbound_method request) (outbound_url request)
                                  (prepare_headers request)]).

(** The absolute URLs of the images of a document, in document order,
    up to the first source that [urljoin] refuses: of every [img] tag
    whose [src] is present and not empty the URL, and that refusal when
    there is one. *)
Fixpoint image_urls {Ext} (lib : Lib Ext) (base_url : string) (soup : Soup lib)
         (imgs : list nat) : list string * option Exn :=
  match imgs with
  | [] => ([], None)
  | img :: rest =>
      match soup_get_src lib soup img with
      | Some src =>
          if PyStr.truthy (Some src) then
            match urljoin lib base_url src with
            | Ok url => (url :: fst (image_urls lib base_url soup rest),
                         snd (image_urls lib base_url soup rest))
            | Raise e => ([], Some e)
            end
          else image_urls lib base_url soup rest
      | None => image_urls lib base_url soup rest
      end
  end.

(* ================================================================== *)
(** * The image cache *)
(* ================================================================== *)

Section ImageCache.

Context {Ext : Type}.
Variable lib : Lib Ext.

Lemma fetch_and_cache_image_total (url : string) (w : World Ext) :
  exists r w', fetch_and_cache_image lib url w = (Ok r, w').
Proof.
  unfold fetch_and_cache_image, try_except.
  match goal with |- context [match ?c with _ => _ end] => destruct c as [[r|e] w'] end;
    do 2 eexists; reflexivity.
Qed.

Lemma fetch_cached (url : string) (w : World Ext) :
  PyDict.mem (cache_dir w) (cache_key lib url) = true ->
  fetch_and_cache_image lib url w
  = (Ok (fst (revalidate lib url (outside w))),
     after_get url w (snd (revalidate lib url (outside w)))).
Proof.
  intros Hmem.
  unfold fetch_and_cache_image, try_except, bind, emit, call_out, lift, cache_exists,
    revalidate, after_get, ret; cbn.
  destruct (requests_get_stream lib url image_headers (outside w)) as [[response|e] o']; cbn; [|reflexivity].
  destruct (raise_for_status (stream_status response)) as [[]|e]; cbn; [|reflexivity].
  fold (cache_key lib url). rewrite Hmem. reflexivity.
Qed.

Lemma dict_mem_set {V} (d : PyDict.t V) (k : string) (v : V) :
  PyDict.mem (PyDict.set d k v) k = true.
Proof.
  unfold PyDict.mem.
  induction d as [|[k' v'] d IH]; cbn.
  - now rewrite String.eqb_refl.
  - destruct (String.eqb k' k) eqn:E; cbn; rewrite E; auto.
Qed.

Lemma fetch_some_cached (url : string) (w w' : World Ext) (c : string) :
  fetch_and_cache_image lib url w = (Ok (Some c), w') ->
  c = cache_ref lib url /\ PyDict.mem (cache_dir w') (cache_key lib url) = true.
Proof.
  unfold fetch_and_cache_image, try_except, bind, emit, call_out, lift, cache_exists,
    cache_write, ret; cbn.
  destruct (requests_get_stream lib url image_headers (outside w)) as [[response|e] o']; cbn;
    [|discriminate].
  destruct (raise_for_status (stream_status response)) as [[]|e]; cbn; [|discriminate].
  fold (cache_key lib url).
  destruct (PyDict.mem (cache_dir w) (cache_key lib url)) eqn:Hmem; cbn.
  - intros H; inversion H; subst; cbn. split; [reflexivity|assumption].
  - destruct (stream_content lib response o') as [[content|e] o'']; cbn; [|discriminate].
    destruct (optimize_image (pil lib) content) as [img|e]; cbn; [|discriminate].
    intros H; inversion H; subst; cbn. split; [reflexivity|apply dict_mem_set].
Qed.

(** C1, as the code has it. Once the entry for [url] is on disk (it is
    after any call that returned a reference), a call of
    [fetch_and_cache_image url] still issues the streamed GET and checks
    its status, and does nothing else: the body is not read, nothing is
    encoded, nothing is written. It returns the same reference
    [/cached_image/<key>.gif] when that GET succeeds with a status that
    is no error, and nothing when it does not. *)
Theorem cached_entry_is_revalidated_not_reencoded (url : string) (w : World Ext) :
  (PyDict.mem (cache_dir w) (cache_key lib url) = true
   \/ exists w0 c, fetch_and_cache_image lib url w0 = (Ok (Some c), w)) ->
  exists r o,
    fetch_and_cache_image lib url w = (Ok r, after_get url w o)
    /\ revalidate lib url (outside w) = (r, o)
    /\ (r = Some (cache_ref lib url) \/ r = None)
    /\ (forall w0 c, fetch_and_cache_image lib url w0 = (Ok (Some c), w) -> c = cache_ref lib url).
Proof.
  intros H.
  assert (Hmem : PyDict.mem (cache_dir w) (cache_key lib url) = true).
  { destruct H as [H|(w0 & c & H)]; [assumption|].
    now apply fetch_some_cached in H. }
  exists (fst (revalidate lib url (outside w))), (snd (revalidate lib url (outside w))).
  split; [now apply fetch_cached|].
  split; [now destruct (revalidate lib url (outside w))|].
  split.
  - unfold revalidate.
    destruct (requests_get_stream lib url image_headers (outside w)) as [[response|e] o']; cbn; auto.
    destruct (raise_for_status (stream_status response)); cbn; auto.
  - intros w0 c Hc. now apply fetch_some_cached in Hc.
Qed.

End ImageCache.

(** C1 as stated fails: the second call for the same URL asks the
    upstream server again (the trace grows by one GET), and when that
    second GET is answered with an error status the call returns nothing
    although the entry is on disk. *)
Lemma second_call_fetches_upstream_again :
  let url := "http://h/a.png" in
  (let lib := Demo.demo_lib Demo.always_ok in
   let '(r1, w1) := fetch_and_cache_image lib url Demo.fresh in
   let '(r2, w2) := fetch_and_cache_image lib url w1 in
   r1 = Ok (Some "/cached_image/md5-of-http://h/a.png.gif")
   /\ r2 = r1
   /\ trace w2 = (trace w1 ++ [EvImageGet url])%list
   /\ trace w2 <> trace w1)
  /\
  (let lib := Demo.demo_lib Demo.ok_then_503 in
   let '(r1, w1) := fetch_and_cache_image lib url Demo.fresh in
   let '(r2, w2) := fetch_and_cache_image lib url w1 in
   r1 = Ok (Some "/cached_image/md5-of-http://h/a.png.gif")
   /\ PyDict.mem (cache_dir w1) "md5-of-http://h/a.png.gif" = true
   /\ r2 = Ok None
   /\ r2 <> r1).
Proof.
  cbv zeta. split; vm_compute; repeat split; discriminate.
Qed.

(** C1 on a run: the second call for a URL fetched a moment ago. *)
Lemma cached_entry_is_revalidated_witness :
  let lib := Demo.demo_lib Demo.always_ok in
  let url := "http://h/a.png" in
  let w := snd (fetch_and_cache_image lib url Demo.fresh) in
  PyDict.mem (cache_dir w) (cache_key lib url) = true
  /\ exists r o,
       fetch_and_cache_image lib url w = (Ok r, after_get url w o)
       /\ revalidate lib url (outside w) = (r, o)
       /\ (r = Some (cache_ref lib url) \/ r = None)
       /\ (forall w0 c, fetch_and_cache_image lib url w0 = (Ok (Some c), w) -> c = cache_ref lib url).
Proof.
  cbv zeta. split; [reflexivity|].
  apply (cached_entry_is_revalidated_not_reencoded (Demo.demo_lib Demo.always_ok)).
  left. reflexivity.
Defined.

(* ================================================================== *)
(** * Werkzeug headers *)
(* ================================================================== *)

Arguments Wz.key_eqb : simpl never.


Lemma key_eqb_sym (a b : string) : Wz.key_eqb a b = Wz.key_eqb b a.
Proof. unfold Wz.key_eqb. apply String.eqb_sym. Qed.

Lemma key_eqb_trans (a b c : string) :
  Wz.key_eqb a b = true -> Wz.key_eqb b c = true -> Wz.key_eqb a c = true.
Proof.
  unfold Wz.key_eqb. rewrite !String.eqb_eq. congruence.
Qed.

Lemma key_eqb_neq_l (a b c : string) :
  Wz.key_eqb a b = true -> Wz.key_eqb b c = false -> Wz.key_eqb a c = false.
Proof.
  unfold Wz.key_eqb. rewrite String.eqb_eq, !String.eqb_neq. congruence.
Qed.

Lemma wz_get_remove_other (h : Wz.Headers) (k' k : string) :
  Wz.key_eqb k' k = false -> Wz.get (Wz.remove h k') k = Wz.get h k.
Proof.
  intros Hk. induction h as [|[a v] h IH]; cbn; [reflexivity|].
  destruct (Wz.key_eqb a k') eqn:Ea; cbn.
  - rewrite (key_eqb_neq_l _ _ _ Ea Hk). exact IH.
  - destruct (Wz.key_eqb a k); [reflexivity|exact IH].
Qed.


Lemma wz_get_set_other (h : Wz.Headers) (k' v' k : string) :
  Wz.key_eqb k' k = false -> Wz.get (Wz.set h k' v') k = Wz.get h k.
Proof.
  intros Hk. induction h as [|[a x] h IH]; cbn.
  - now rewrite Hk.
  - destruct (Wz.key_eqb a k') eqn:Ea; cbn.
    + rewrite Hk, (key_eqb_neq_l _ _ _ Ea Hk). now apply wz_get_remove_other.
    + destruct (Wz.key_eqb a k); [reflexivity|exact IH].
Qed.



Lemma set_headers_spec (hs : list (string * string)) (r : Response) :
  set_headers hs r
  = if assignable hs
    then Ok (mkResponse (resp_data r) (resp_status r) (set_all hs (resp_headers r)))
    else Raise (ValueError "Header values must not contain newline characters.").
Proof.
  revert r. induction hs as [|kv hs IH]; intros r; [now destruct r|].
  cbn [set_headers assignable forallb]. unfold Response_set_header.
  destruct (has_newline (snd kv)); cbn [negb andb rbind]; [reflexivity|].
  rewrite IH. reflexivity.
Qed.

Lemma build_response_spec (body : Content) (status_code : Z) (headers : PyDict.t string) :
  build_response body status_code headers = spec_assemble body status_code headers.
Proof.
  unfold build_response, spec_assemble, PyDict.items. rewrite set_headers_spec.
  destruct (assignable headers); [|reflexivity]. now destruct body.
Qed.

(* ================================================================== *)
(** * The response normalizer *)
(* ================================================================== *)

Lemma bind_ret_r {Ext A} (m : @M Ext A) (w : World Ext) : bind m ret w = m w.
Proof. unfold bind, ret. now destruct (m w) as [[a|e] w']. Qed.

Lemma image_step_refl {Ext} (w : World Ext) : image_step w w.
Proof. split; [reflexivity|]. exists []. now rewrite app_nil_r. Qed.

Lemma image_step_trans {Ext} (w1 w2 w3 : World Ext) :
  image_step w1 w2 -> image_step w2 w3 -> image_step w1 w3.
Proof.
  intros [H1 (e1 & T1 & F1)] [H2 (e2 & T2 & F2)]. split; [congruence|].
  exists (e1 ++ e2)%list. split.
  - now rewrite T2, T1, app_assoc.
  - apply Forall_app. auto.
Qed.

Section Normalizer.

Context {Ext : Type}.
Variable lib : Lib Ext.
Variable app_config : AppConfig.

Ltac step_done :=
  intros H; inversion H; subst; clear H;
  split; [reflexivity|]; cbn;
  eexists; split; [rewrite <- ?app_assoc; reflexivity | repeat constructor].

Lemma fetch_image_step (url : string) (w w' : World Ext) (r : Result (option string)) :
  fetch_and_cache_image lib url w = (r, w') -> image_step w w'.
Proof.
  unfold fetch_and_cache_image, try_except, bind, emit, call_out, lift, cache_exists,
    cache_write, ret; cbn.
  destruct (requests_get_stream lib url image_headers (outside w)) as [[response|e] o']; cbn;
    [|step_done].
  destruct (raise_for_status (stream_status response)) as [[]|e]; cbn; [|step_done].
  destruct (PyDict.mem (cache_dir w) (md5_hexdigest lib url ++ ".gif")); cbn; [step_done|].
  destruct (stream_content lib response o') as [[content|e] o'']; cbn; [|step_done].
  destruct (optimize_image (pil lib) content) as [img|e]; cbn; step_done.
Qed.

Lemma cache_ref_truthy (url : string) : PyStr.truthy (Some (cache_ref lib url)) = true.
Proof. reflexivity. Qed.

(** The loop of [replace_image_urls] is the rewriting of the
    specification, tag by tag. *)
Lemma replace_loop_spec (base_url : string) (imgs : list nat) (soup : Soup lib) (w : World Ext) :
  replace_loop lib base_url imgs soup w = spec_rewrite_tags lib base_url imgs soup w.
Proof.
  revert soup w. induction imgs as [|img imgs IH]; intros soup w; [reflexivity|].
  cbn [replace_loop spec_rewrite_tags]. unfold bind at 1, replace_one.
  destruct (soup_get_src lib soup img) as [[|c src]|]; cbn [PyStr.truthy String.eqb negb];
    try (unfold ret at 1; apply IH).
  unfold bind at 1, lift.
  destruct (urljoin lib base_url (String c src)) as [full_url|e]; [|reflexivity].
  unfold bind at 1.
  destruct (fetch_and_cache_image_total lib full_url w) as (r & w1 & Hf). rewrite Hf.
  destruct r as [reference|].
  - destruct (fetch_some_cached lib full_url w w1 reference Hf) as [-> _].
    rewrite cache_ref_truthy. unfold ret at 1. apply IH.
  - cbn [PyStr.truthy]. unfold ret at 1. apply IH.
Qed.

Lemma replace_image_urls_spec (content base_url : string) (w : World Ext) :
  replace_image_urls lib content base_url w = spec_rewrite_images lib content base_url w.
Proof.
  unfold replace_image_urls, spec_rewrite_images, bind at 1, lift.
  destruct (soup_parse lib content) as [soup|e]; [|reflexivity].
  unfold bind. rewrite replace_loop_spec.
  now destruct (spec_rewrite_tags lib base_url (soup_find_all_img lib soup) soup w) as [[s|e] w'].
Qed.

Lemma spec_rewrite_tags_step (base_url : string) (imgs : list nat) (soup : Soup lib)
      (w w' : World Ext) (r : Result (Soup lib)) :
  spec_rewrite_tags lib base_url imgs soup w = (r, w') -> image_step w w'.
Proof.
  revert soup w. induction imgs as [|img imgs IH]; intros soup w; cbn [spec_rewrite_tags].
  - intros E. inversion E; subst. apply image_step_refl.
  - destruct (soup_get_src lib soup img) as [[|c src]|]; try apply IH.
    destruct (urljoin lib base_url (String c src)) as [full_url|e].
    + destruct (fetch_and_cache_image lib full_url w) as [r1 w1] eqn:Hf.
      apply fetch_image_step in Hf.
      destruct r1 as [[reference|]|e]; intros E; apply IH in E;
        eapply image_step_trans; eassumption.
    + intros E. inversion E; subst. apply image_step_refl.
Qed.

(** Image rewriting leaves the override slot alone and adds only
    image-cache events to the trace, however it ends. *)
Lemma replace_image_urls_step (content base_url : string) (w w' : World Ext)
      (r : Result string) :
  replace_image_urls lib content base_url w = (r, w') -> image_step w w'.
Proof.
  rewrite replace_image_urls_spec. unfold spec_rewrite_images.
  destruct (soup_parse lib content) as [soup|e].
  - destruct (spec_rewrite_tags lib base_url (soup_find_all_img lib soup) soup w)
      as [[s|e] w1] eqn:Hl; apply spec_rewrite_tags_step in Hl;
      intros E; inversion E; subst; assumption.
  - intros E. inversion E; subst. apply image_step_refl.
Qed.

Lemma normalized_body_spec (content : Content) (headers : PyDict.t string) (base_url : string)
      (w : World Ext) :
  normalized_body lib app_config content headers base_url w
  = spec_body lib app_config content headers base_url w.
Proof.
  unfold normalized_body, spec_body.
  destruct (PyStr.startswith "text/html" _).
  - unfold bind. change (decode_if_bytes lib content) with (spec_decode lib content).
    rewrite replace_image_urls_spec.
    now destruct (spec_rewrite_images lib (spec_decode lib content) base_url w) as [[c|e] w'].
  - destruct (PyStr.startswith "text/" _); reflexivity.
Qed.

Lemma normalized_body_step (content : Content) (headers : PyDict.t string) (base_url : string)
      (w w' : World Ext) (r : Result Content) :
  normalized_body lib app_config content headers base_url w = (r, w') -> image_step w w'.
Proof.
  unfold normalized_body.
  destruct (PyStr.startswith "text/html" _).
  - unfold bind.
    destruct (replace_image_urls lib (decode_if_bytes lib content) base_url w)
      as [[c|e] w1] eqn:H; apply replace_image_urls_step in H;
      intros E; inversion E; subst; assumption.
  - destruct (PyStr.startswith "text/" _); intros E; inversion E; subst;
      apply image_step_refl.
Qed.

Lemma process_parts_eq (content : Content) (status_code : Z) (headers : PyDict.t string)
      (base_url : string) (w : World Ext) :
  process_parts lib app_config content status_code headers base_url w
  = bind (normalized_body lib app_config content headers base_url)
         (fun body => lift (build_response body status_code headers)) w.
Proof.
  unfold process_parts, normalized_body, branch_of, content_type_of.
  destruct (PyStr.startswith "text/html" _); [reflexivity|].
  destruct (PyStr.startswith "text/" _); reflexivity.
Qed.

Lemma process_decomposed (response : ResponseLike) [content : Content] [status_code : Z]
      [headers : PyDict.t string] (base_url : string) (w : World Ext) :
  decompose response = Some (content, status_code, headers) ->
  process_response_with_image_caching lib app_config response base_url w
  = process_parts lib app_config content status_code headers base_url w.
Proof.
  destruct response as [c s h|c s|[c|]|r|c]; cbn; intros H; inversion H; subst; reflexivity.
Qed.

(** The normalizer on anything that can be taken apart is the
    normalizer of the specification. *)
Lemma process_spec (response : ResponseLike) [content : Content] [status_code : Z]
      [headers : PyDict.t string] (base_url : string) (w : World Ext) :
  decompose response = Some (content, status_code, headers) ->
  process_response_with_image_caching lib app_config response base_url w
  = spec_normalize lib app_config content status_code headers base_url w.
Proof.
  intros D. rewrite (process_decomposed response base_url w D), process_parts_eq.
  unfold bind, spec_normalize. rewrite normalized_body_spec.
  destruct (spec_body lib app_config content headers base_url w) as [[body|e] w']; [|reflexivity].
  unfold lift. now rewrite build_response_spec.
Qed.

(** Whatever its input and however it ends, the normalizer leaves the
    override slot alone and adds only image-cache events to the trace. *)
Lemma process_response_image_step (response : ResponseLike) (base_url : string)
      (w w' : World Ext) (r : Result Response) :
  process_response_with_image_caching lib app_config response base_url w = (r, w') ->
  image_step w w'.
Proof.
  destruct (decompose response) as [[[c s] h]|] eqn:D.
  - rewrite (process_decomposed response base_url w D), process_parts_eq. unfold bind.
    destruct (normalized_body lib app_config c h base_url w) as [[body|e] w1] eqn:H;
      apply normalized_body_step in H; intros E; inversion E; subst; assumption.
  - destruct response as [? ? ?|? ?|[?|]|?|?]; try discriminate; cbn;
      intros E; inversion E; subst; apply image_step_refl.
Qed.

Lemma spec_assemble_ok (body : Content) (status_code : Z) (headers : PyDict.t string)
      (final : Response) :
  spec_assemble body status_code headers = Ok final ->
  assignable headers = true
  /\ resp_data final = body
  /\ resp_status final = status_code
  /\ resp_headers final = set_all headers (spec_default_headers body).
Proof.
  unfold spec_assemble. destruct (assignable headers); [|discriminate].
  intros E. inversion E; subst. auto.
Qed.


Lemma body_of_tuple3 (content : Content) (status_code : Z) (headers : PyDict.t string)
      (base_url : string) (w : World Ext) :
  assignable headers = true ->
  body_of (process_response_with_image_caching lib app_config
             (Tuple3 content status_code headers) base_url w)
  = normalized_body lib app_config content headers base_url w.
Proof.
  intros Ha. cbn [process_response_with_image_caching]. rewrite process_parts_eq.
  unfold body_of, bind.
  destruct (normalized_body lib app_config content headers base_url w) as [[body|e] w']; cbn;
    [|reflexivity].
  rewrite build_response_spec. unfold spec_assemble. now rewrite Ha.
Qed.

(** C7, as the code has it. The branch is chosen by a prefix match on the
    lower-cased value found under the key spelled exactly [Content-Type]:
    two header mappings whose values under that key differ only by letter
    case take the same branch and hand the same body to the response
    (and leave the same world), so that the final bodies are the same
    whenever the headers of both can be assigned; a mapping with no key
    of that exact spelling has no content type for the normalizer, and
    its body passes through untouched. *)
Theorem content_type_value_decides_branch :
  (forall (h1 h2 : PyDict.t string) (content : Content) (status_code : Z)
          (base_url : string) (w : World Ext),
      PyStr.lower (PyDict.get_default h1 "Content-Type" "")
      = PyStr.lower (PyDict.get_default h2 "Content-Type" "") ->
      branch_of h1 = branch_of h2
      /\ normalized_body lib app_config content h1 base_url w
         = normalized_body lib app_config content h2 base_url w
      /\ (assignable h1 = true -> assignable h2 = true ->
          body_of (process_response_with_image_caching lib app_config
                     (Tuple3 content status_code h1) base_url w)
          = body_of (process_response_with_image_caching lib app_config
                       (Tuple3 content status_code h2) base_url w)))
  /\
  (forall (h : PyDict.t string) (content : Content) (status_code : Z)
          (base_url : string) (w : World Ext),
      PyDict.get h "Content-Type" = None ->
      branch_of h = BranchPassthrough
      /\ normalized_body lib app_config content h base_url w = (Ok content, w)
      /\ (assignable h = true ->
          body_of (process_response_with_image_caching lib app_config
                     (Tuple3 content status_code h) base_url w)
          = (Ok content, w))).
Proof.
  split.
  - intros h1 h2 content status_code base_url w Heq.
    split; [unfold branch_of, content_type_of; now rewrite Heq|].
    assert (Hn : normalized_body lib app_config content h1 base_url w
                 = normalized_body lib app_config content h2 base_url w)
      by (unfold normalized_body; now rewrite Heq).
    split; [exact Hn|]. intros A1 A2. now rewrite !body_of_tuple3.
  - intros h content status_code base_url w Hnone.
    assert (B : branch_of h = BranchPassthrough).
    { unfold branch_of, content_type_of, PyDict.get_default. now rewrite Hnone. }
    split; [assumption|].
    assert (Hn : normalized_body lib app_config content h base_url w = (Ok content, w)).
    { unfold normalized_body, PyDict.get_default. now rewrite Hnone. }
    split; [exact Hn|]. intros A. now rewrite body_of_tuple3.
Qed.

(** Normalizing the normalizer's own output changes nothing: the output
    is a response object, and those pass through. *)
Lemma renormalize_is_ret (response : ResponseLike) (base_url base_url' : string)
        (w : World Ext) :
  bind (process_response_with_image_caching lib app_config response base_url)
       (fun r => process_response_with_image_caching lib app_config (Resp r) base_url') w
  = process_response_with_image_caching lib app_config response base_url w.
Proof.
  apply (bind_ret_r (process_response_with_image_caching lib app_config response base_url) w).
Qed.

End Normalizer.

(* ================================================================== *)
(** * The registry *)
(* ================================================================== *)

Lemma str_length_app (p d : string) :
  String.length (p ++ d) = (String.length p + String.length d)%nat.
Proof. induction p as [|c p IH]; cbn; [reflexivity|now rewrite IH]. Qed.

Lemma endswith_app (p d : string) : PyStr.endswith (p ++ d) d = true.
Proof.
  unfold PyStr.endswith.
  rewrite str_length_app.
  replace (String.length p + String.length d - String.length d)%nat
    with (String.length p) by lia.
  assert (L : (String.length d <=? String.length p + String.length d)%nat = true)
    by (apply Nat.leb_le; lia).
  rewrite L. cbn. clear L.
  induction p as [|c p IH]; cbn; [apply String.eqb_refl|exact IH].
Qed.

Lemma drop_app_length (n : nat) (s : string) :
  (n <= String.length s)%nat -> exists p, s = p ++ PyStr.drop n s /\ String.length p = n.
Proof.
  revert s. induction n as [|n IH]; intros s Hn.
  - exists "". auto.
  - destruct s as [|c s]; cbn in Hn; [lia|].
    destruct (IH s) as (p & Hp & Hl); [lia|].
    exists (String c p). cbn. split; [now rewrite <- Hp|now rewrite Hl].
Qed.

(** [host.endswith(domain)] holds exactly when [domain] is a suffix of
    [host]. *)
Lemma endswith_spec (s d : string) :
  PyStr.endswith s d = true <-> exists p, s = p ++ d.
Proof.
  split.
  - unfold PyStr.endswith. intros H. apply andb_prop in H. destruct H as [Hl He].
    apply Nat.leb_le in Hl. apply String.eqb_eq in He.
    destruct (drop_app_length (String.length s - String.length d) s) as (p & Hp & _); [lia|].
    exists p. now rewrite He in Hp.
  - intros [p ->]. apply endswith_app.
Qed.

(** A netloc [host:port] loses its port. *)
Lemma split_first_strips_port (h port : string) :
  ~ In ":"%char (list_ascii_of_string h) ->
  PyStr.split_first ":"%char (h ++ String ":"%char port) = h.
Proof.
  induction h as [|c h IH]; intros Hno; cbn; [reflexivity|].
  cbn in Hno. destruct (Ascii.eqb c ":"%char) eqn:E.
  - apply Ascii.eqb_eq in E. tauto.
  - f_equal. apply IH. tauto.
Qed.

Section Registry.

Context {Ext : Type}.
Variable ENABLED_EXTENSIONS : list (ExtModule Ext).

Lemma find_in_items_item (items : list (string * ExtModule Ext)) (host : string) :
  find_in_items items host = option_map snd (find_item items host).
Proof.
  induction items as [|[d e] r IH]; cbn; [reflexivity|].
  destruct (PyStr.endswith host d); [reflexivity|exact IH].
Qed.

Lemma find_item_matches (items : list (string * ExtModule Ext)) (host k : string)
      (x : ExtModule Ext) :
  find_item items host = Some (k, x) -> PyStr.endswith host k = true.
Proof.
  induction items as [|[d e] r IH]; cbn; [discriminate|].
  destruct (PyStr.endswith host d) eqn:E; [|exact IH].
  intros H. inversion H; subst. exact E.
Qed.

Lemma find_item_set (d : PyDict.t (ExtModule Ext)) (k : string) (v : ExtModule Ext)
      (host : string) :
  find_item (PyDict.set d k v) host
  = match find_item d host with
    | Some (k0, x) => if String.eqb k0 k then Some (k0, v) else Some (k0, x)
    | None => if PyStr.endswith host k then Some (k, v) else None
    end.
Proof.
  induction d as [|[k' v'] r IH]; cbn; [reflexivity|].
  destruct (String.eqb k' k) eqn:Ek; cbn.
  - apply String.eqb_eq in Ek. subst k'.
    destruct (PyStr.endswith host k) eqn:Eh.
    + now rewrite String.eqb_refl.
    + destruct (find_item r host) as [[k0 x]|] eqn:Ef; [|reflexivity].
      destruct (String.eqb k0 k) eqn:E0; [|reflexivity].
      apply String.eqb_eq in E0. subst k0.
      apply find_item_matches in Ef. congruence.
  - destruct (PyStr.endswith host k') eqn:Eh.
    + now rewrite Ek.
    + exact IH.
Qed.

Lemma load_extensions_split (l : list (ExtModule Ext)) (e0 d0 : PyDict.t (ExtModule Ext)) :
  fold_left (fun acc module =>
               (PyDict.set (fst acc) (ext_name module) module,
                PyDict.set (snd acc) (DOMAIN module) module)) l (e0, d0)
  = (register_names l e0, register_domains l d0).
Proof.
  revert e0 d0. induction l as [|m l IH]; intros e0 d0; cbn; [reflexivity|apply IH].
Qed.

Lemma domain_to_extension_eq :
  domain_to_extension ENABLED_EXTENSIONS = register_domains ENABLED_EXTENSIONS PyDict.empty.
Proof.
  unfold domain_to_extension, load_extensions. now rewrite load_extensions_split.
Qed.

Lemma extensions_eq :
  extensions ENABLED_EXTENSIONS = register_names ENABLED_EXTENSIONS PyDict.empty.
Proof.
  unfold extensions, load_extensions. now rewrite load_extensions_split.
Qed.

Lemma first_match_snoc (host : string) (l : list (ExtModule Ext)) (m : ExtModule Ext) :
  first_match host (l ++ [m])
  = match first_match host l with
    | Some m0 => Some m0
    | None => if PyStr.endswith host (DOMAIN m) then Some m else None
    end.
Proof.
  unfold first_match. induction l as [|a l IH]; cbn; [reflexivity|].
  destruct (PyStr.endswith host (DOMAIN a)); [reflexivity|exact IH].
Qed.

Lemma last_with_domain_snoc (d : string) (l : list (ExtModule Ext)) (m : ExtModule Ext) :
  last_with_domain d (l ++ [m])
  = if String.eqb (DOMAIN m) d then Some m else last_with_domain d l.
Proof.
  unfold last_with_domain. now rewrite rev_app_distr.
Qed.

Lemma first_match_some (host : string) (l : list (ExtModule Ext)) (m0 : ExtModule Ext) :
  first_match host l = Some m0 -> In m0 l /\ PyStr.endswith host (DOMAIN m0) = true.
Proof. unfold first_match. apply find_some. Qed.

Lemma last_with_domain_in (d : string) (l : list (ExtModule Ext)) (m : ExtModule Ext) :
  In m l -> DOMAIN m = d -> exists m', last_with_domain d l = Some m'.
Proof.
  intros Hin Hd. unfold last_with_domain.
  destruct (find (fun m1 => String.eqb (DOMAIN m1) d) (rev l)) as [m'|] eqn:E; [eauto|].
  apply in_rev in Hin. pose proof (find_none _ _ E m Hin) as Hf. cbn in Hf.
  apply String.eqb_neq in Hf. contradiction.
Qed.

(** The dict built by the loading loop, read in its own order. *)
Lemma find_item_registered (host : string) (l : list (ExtModule Ext)) :
  find_item (register_domains l PyDict.empty) host
  = match first_match host l with
    | Some m0 => option_map (fun m => (DOMAIN m0, m)) (last_with_domain (DOMAIN m0) l)
    | None => None
    end.
Proof.
  induction l as [|m l IH] using rev_ind; [reflexivity|].
  unfold register_domains in *. rewrite fold_left_app. cbn [fold_left].
  rewrite find_item_set, IH, first_match_snoc.
  destruct (first_match host l) as [m0|] eqn:F.
  - destruct (first_match_some _ _ _ F) as [Hin _].
    destruct (last_with_domain_in _ l _ Hin eq_refl) as [m' Hm'].
    rewrite Hm'. cbn. rewrite last_with_domain_snoc.
    rewrite (String.eqb_sym (DOMAIN m0) (DOMAIN m)).
    destruct (String.eqb (DOMAIN m) (DOMAIN m0)); [reflexivity|now rewrite Hm'].
  - destruct (PyStr.endswith host (DOMAIN m)); [|reflexivity].
    rewrite last_with_domain_snoc, String.eqb_refl. reflexivity.
Qed.

Lemma find_matching_extension_selected (host : string) :
  find_matching_extension ENABLED_EXTENSIONS host = selected host ENABLED_EXTENSIONS.
Proof.
  unfold find_matching_extension, PyDict.items, selected.
  rewrite find_in_items_item, domain_to_extension_eq, find_item_registered.
  destruct (first_match host ENABLED_EXTENSIONS) as [m0|]; [|reflexivity].
  now destruct (last_with_domain (DOMAIN m0) ENABLED_EXTENSIONS).
Qed.

Lemma last_with_domain_nodup (l : list (ExtModule Ext)) (m : ExtModule Ext) :
  NoDup (map DOMAIN l) -> In m l -> last_with_domain (DOMAIN m) l = Some m.
Proof.
  induction l as [|a l IH] using rev_ind; intros Hnd Hin; [contradiction|].
  rewrite last_with_domain_snoc.
  rewrite map_app in Hnd. cbn in Hnd.
  apply in_app_or in Hin. destruct Hin as [Hin|[->|[]]].
  - destruct (String.eqb (DOMAIN a) (DOMAIN m)) eqn:E.
    + apply String.eqb_eq in E. exfalso.
      apply NoDup_remove_2 in Hnd. apply Hnd. rewrite app_nil_r, E.
      now apply in_map.
    + apply IH; [|assumption]. apply NoDup_remove_1 in Hnd. now rewrite app_nil_r in Hnd.
  - now rewrite String.eqb_refl.
Qed.

Lemma selected_nodup (host : string) :
  NoDup (map DOMAIN ENABLED_EXTENSIONS) ->
  selected host ENABLED_EXTENSIONS = first_match host ENABLED_EXTENSIONS.
Proof.
  intros Hnd. unfold selected.
  destruct (first_match host ENABLED_EXTENSIONS) as [m0|] eqn:F; [|reflexivity].
  apply last_with_domain_nodup; [assumption|].
  now apply first_match_some in F.
Qed.

End Registry.

Lemma matching_extension_enabled {Ext} (exts : list (ExtModule Ext)) (host : string)
      (m : ExtModule Ext) :
  find_matching_extension exts host = Some m ->
  In m exts /\ PyStr.endswith host (DOMAIN m) = true.
Proof.
  rewrite find_matching_extension_selected. unfold selected.
  destruct (first_match host exts) as [m0|] eqn:F; [|discriminate].
  apply first_match_some in F. destruct F as [_ Hend].
  unfold last_with_domain. intros H. apply find_some in H. destruct H as [Hin Hd].
  apply String.eqb_eq in Hd. rewrite Hd. split; [now apply in_rev|exact Hend].
Qed.

(* ================================================================== *)
(** * The dispatcher *)
(* ================================================================== *)

Lemma image_events_no_dispatch (evs : list Event) :
  Forall image_event evs -> Forall (fun ev => dispatch_event ev = false) evs.
Proof.
  intros H. eapply Forall_impl; [|exact H]. intros [| | | | | |]; cbn; tauto.
Qed.

Lemma dispatches_none (evs : list Event) :
  Forall (fun ev => dispatch_event ev = false) evs -> dispatches evs = [].
Proof.
  induction 1 as [|ev evs Hev _ IH]; cbn; [reflexivity|]. now rewrite Hev.
Qed.

Section Routing.

Context {Ext : Type}.
Variable lib : Lib Ext.
Variable app_config : AppConfig.
Variable ENABLED_EXTENSIONS : list (ExtModule Ext).

Local Abbreviation process := (process_response_with_image_caching lib app_config).
Local Abbreviation registry := (extensions ENABLED_EXTENSIONS).

Lemma supported_existsb [request : Request] :
  supported lib request ->
  existsb (String.eqb (scheme (urlparse lib (req_url request)))) ["http"; "https"; "ftp"] = true.
Proof.
  intros H. apply existsb_exists. exists (scheme (urlparse lib (req_url request))).
  split; [exact H|apply String.eqb_refl].
Qed.

Lemma truthy_some [name : string] : name <> "" -> PyStr.truthy (Some name) = true.
Proof. intros H. cbn. apply String.eqb_neq in H. now rewrite H. Qed.

Lemma override_inactive (request : Request) (scheme : string) [w : World Ext] :
  PyStr.truthy (override_extension w) = false ->
  handle_override_extension lib app_config ENABLED_EXTENSIONS request scheme w = (Ok None, w).
Proof.
  intros H. unfold handle_override_extension, bind, get_override. rewrite H. reflexivity.
Qed.

Lemma override_stale (request : Request) (scheme : string) [name : string] [w : World Ext] :
  override_extension w = Some name -> name <> "" ->
  PyDict.get registry (PyStr.split_last "."%char name) = None ->
  handle_override_extension lib app_config ENABLED_EXTENSIONS request scheme w
  = (Ok None, cleared w).
Proof.
  intros Ho Hn Hg. unfold handle_override_extension, bind, get_override.
  rewrite Ho, (truthy_some Hn), Hg. reflexivity.
Qed.

Lemma override_active [request : Request] [name : string] [module : ExtModule Ext]
      [w : World Ext] :
  override_extension w = Some name -> name <> "" ->
  PyDict.get registry (PyStr.split_last "."%char name) = Some module ->
  supported lib request ->
  handle_override_extension lib app_config ENABLED_EXTENSIONS request
    (scheme (urlparse lib (req_url request))) w
  = bind (override_path lib app_config request (PyStr.split_last "."%char name) module)
         (fun r => ret (Some r)) w.
Proof.
  intros Ho Hn Hg Hs. unfold handle_override_extension, bind at 1, get_override.
  rewrite Ho, (truthy_some Hn), Hg, (supported_existsb Hs).
  unfold override_path, bind, emit; cbn.
  destruct (call_out _ _) as [[response|e] w1]; [|reflexivity].
  destruct (check_override_status _ _ _) as [[[]|e] w2]; [|reflexivity].
  reflexivity.
Qed.

Lemma handle_request_override [request : Request] [name : string] [module : ExtModule Ext]
      [w : World Ext] :
  override_extension w = Some name -> name <> "" ->
  PyDict.get registry (PyStr.split_last "."%char name) = Some module ->
  supported lib request ->
  handle_request lib app_config ENABLED_EXTENSIONS request w
  = override_path lib app_config request (PyStr.split_last "."%char name) module w.
Proof.
  intros Ho Hn Hg Hs. unfold handle_request. unfold bind at 1.
  rewrite (override_active Ho Hn Hg Hs). unfold bind at 1.
  destruct (override_path _ _ _ _ _ w) as [[r|e] w']; reflexivity.
Qed.

Lemma handle_request_no_override (request : Request) [w : World Ext] :
  PyStr.truthy (override_extension w) = false ->
  handle_request lib app_config ENABLED_EXTENSIONS request w
  = match find_matching_extension ENABLED_EXTENSIONS (request_host lib request) with
    | Some m => handle_matching_extension lib app_config request m w
    | None => handle_default_request lib app_config request w
    end.
Proof.
  intros H. unfold handle_request, request_host, bind.
  rewrite (override_inactive _ _ H).
  now destruct (find_matching_extension ENABLED_EXTENSIONS _).
Qed.

End Routing.

Section DispatcherFacts.

Context {Ext : Type}.
Variable lib : Lib Ext.
Variable app_config : AppConfig.
Variable ENABLED_EXTENSIONS : list (ExtModule Ext).

Local Abbreviation process := (process_response_with_image_caching lib app_config).
Local Abbreviation registry := (extensions ENABLED_EXTENSIONS).

Ltac run_process rest0 :=
  match goal with
  | |- context [process_response_with_image_caching lib app_config ?resp ?u ?w0] =>
      let r := fresh "r" in
      let w' := fresh "w'" in
      let Hp := fresh "Hp" in
      let Hov := fresh "Hov" in
      let evs := fresh "evs" in
      let Ht := fresh "Ht" in
      let Hf := fresh "Hf" in
      destruct (process_response_with_image_caching lib app_config resp u w0)
        as [r w'] eqn:Hp;
      apply process_response_image_step in Hp as [Hov (evs & Ht & Hf)];
      cbn in Hov, Ht;
      exists r, w', (rest0 ++ evs)%list;
      split; [reflexivity|];
      split; [rewrite Ht, <- ?app_assoc; reflexivity|];
      split; [apply Forall_app; split;
              [repeat constructor|now apply image_events_no_dispatch]|];
      exact Hov
  end.

Lemma override_path_post (request : Request) (name : string) (module : ExtModule Ext)
      (w : World Ext) :
  exists r w' rest,
    override_path lib app_config request name module w = (r, w')
    /\ trace w' = (trace w ++ EvHandler (ext_name module) :: rest)%list
    /\ Forall (fun ev => dispatch_event ev = false) rest
    /\ override_extension w'
       = if released module request (outside w) then None else override_extension w.
Proof.
  unfold override_path, released, check_override_status, bind, emit, call_out,
    set_override, ret; cbn.
  destruct (ext_handle_request module request (outside w)) as [[response|e] o1]; cbn.
  2:{ do 2 eexists. exists []. split; [reflexivity|]. split; [reflexivity|].
      split; [constructor|reflexivity]. }
  destruct (ext_get_override_status module) as [g|]; cbn.
  - destruct (g o1) as [[status|e] o2]; cbn.
    + destruct status; cbn; run_process [EvOverrideStatus (ext_name module)].
    + do 2 eexists. exists [EvOverrideStatus (ext_name module)].
      split; [reflexivity|]. split; [now rewrite <- app_assoc|].
      split; [repeat constructor|reflexivity].
  - run_process (@nil Event).
Qed.

Lemma matching_path_post (request : Request) (m : ExtModule Ext) (w : World Ext) :
  exists r w' rest,
    handle_matching_extension lib app_config request m w = (r, w')
    /\ trace w' = (trace w ++ EvHandler (ext_name m) :: rest)%list
    /\ Forall (fun ev => dispatch_event ev = false) rest
    /\ (override_extension w' = override_extension w
        \/ override_extension w' = Some (module_name m)).
Proof.
  unfold handle_matching_extension, bind, emit, call_out, set_override, ret; cbn.
  destruct (ext_handle_request m request (outside w)) as [[response|e] o1]; cbn.
  2:{ do 2 eexists. exists []. split; [reflexivity|]. split; [reflexivity|].
      split; [constructor|now left]. }
  destruct (ext_get_override_status m) as [g|]; cbn.
  - destruct (g o1) as [[status|e] o2]; cbn.
    + destruct status; cbn.
      * match goal with
        | |- context [process_response_with_image_caching lib app_config ?resp ?u ?w0] =>
            destruct (process_response_with_image_caching lib app_config resp u w0)
              as [r w'] eqn:Hp;
            apply process_response_image_step in Hp as [Hov (evs & Ht & Hf)]
        end.
        cbn in Hov, Ht. exists r, w', (EvOverrideStatus (ext_name m) :: evs).
        split; [reflexivity|]. split; [rewrite Ht, <- ?app_assoc; reflexivity|].
        split; [constructor; [reflexivity|now apply image_events_no_dispatch]|].
        now right.
      * match goal with
        | |- context [process_response_with_image_caching lib app_config ?resp ?u ?w0] =>
            destruct (process_response_with_image_caching lib app_config resp u w0)
              as [r w'] eqn:Hp;
            apply process_response_image_step in Hp as [Hov (evs & Ht & Hf)]
        end.
        cbn in Hov, Ht. exists r, w', (EvOverrideStatus (ext_name m) :: evs).
        split; [reflexivity|]. split; [rewrite Ht, <- ?app_assoc; reflexivity|].
        split; [constructor; [reflexivity|now apply image_events_no_dispatch]|].
        now left.
    + do 2 eexists. exists [EvOverrideStatus (ext_name m)].
      split; [reflexivity|]. split; [now rewrite <- app_assoc|].
      split; [repeat constructor|now left].
  - match goal with
    | |- context [process_response_with_image_caching lib app_config ?resp ?u ?w0] =>
        destruct (process_response_with_image_caching lib app_config resp u w0)
          as [r w'] eqn:Hp;
        apply process_response_image_step in Hp as [Hov (evs & Ht & Hf)]
    end.
    cbn in Hov, Ht. exists r, w', evs.
    split; [reflexivity|]. split; [rewrite Ht, <- ?app_assoc; reflexivity|].
    split; [now apply image_events_no_dispatch|now left].
Qed.

Lemma default_path_post (request : Request) (w : World Ext) :
  exists r w' ev rest,
    handle_default_request lib app_config request w = (r, w')
    /\ dispatch_event ev = true
    /\ trace w' = (trace w ++ ev :: rest)%list
    /\ Forall (fun ev => dispatch_event ev = false) rest
    /\ override_extension w' = override_extension w.
Proof.
  unfold handle_default_request, try_except, send_request, bind at 1.
  destruct (String.eqb (req_method request) "POST");
    unfold bind, emit, call_out, raise; cbn;
    match goal with
    | |- context [session_send lib ?m ?u ?p ?h (outside w)] =>
        destruct (session_send lib m u p h (outside w)) as [[resp|e] o1]; cbn
    end.
  all: try (do 2 eexists; eexists (EvUpstream _ _ _); exists []; split; [reflexivity|];
            split; [reflexivity|]; split; [reflexivity|]; split; [constructor|reflexivity]).
  all: match goal with
    | |- context [process_parts lib app_config ?c ?s ?h ?u ?w0] =>
        destruct (process_parts lib app_config c s h u w0) as [r w'] eqn:Hp;
        change (process_parts lib app_config c s h u w0)
          with (process_response_with_image_caching lib app_config (Tuple3 c s h) u w0) in Hp;
        apply process_response_image_step in Hp as [Hov (evs & Ht & Hf)]
    end;
    cbn in Hov, Ht; destruct r as [r|e];
    do 2 eexists; eexists (EvUpstream _ _ _); exists evs;
    (split; [reflexivity|]); (split; [reflexivity|]);
    (split; [rewrite Ht, <- ?app_assoc; reflexivity|]);
    (split; [now apply image_events_no_dispatch|exact Hov]).
Qed.


Lemma dispatches_app (a b : list Event) :
  dispatches (a ++ b) = (dispatches a ++ dispatches b)%list.
Proof. apply filter_app. Qed.

(** C3. While the override slot names a registered extension, a request
    whose scheme is http, https or ftp goes to that extension's handler,
    whatever its host: the handler call is the only dispatch of the
    request, and afterwards the slot is empty if the extension's status
    reported false and still holds the name otherwise. Hence, over any
    run of such requests before each of which the slot holds the name,
    every request is dispatched to that handler. *)
Theorem override_captures_every_request (name : string) (module : ExtModule Ext) :
  name <> "" ->
  PyDict.get registry (PyStr.split_last "."%char name) = Some module ->
  (forall (request : Request) (w : World Ext),
      override_extension w = Some name -> supported lib request ->
      exists r w' rest,
        handle_request lib app_config ENABLED_EXTENSIONS request w = (r, w')
        /\ trace w' = (trace w ++ EvHandler (ext_name module) :: rest)%list
        /\ Forall (fun ev => dispatch_event ev = false) rest
        /\ override_extension w'
           = if released module request (outside w) then None else Some name)
  /\
  (forall (requests : list Request) (w : World Ext),
      Forall (supported lib) requests ->
      held lib app_config ENABLED_EXTENSIONS name requests w ->
      dispatches (trace (serve lib app_config ENABLED_EXTENSIONS requests w))
      = (dispatches (trace w)
         ++ repeat (EvHandler (ext_name module)) (List.length requests))%list).
Proof.
  intros Hn Hg.
  assert (Step : forall (request : Request) (w : World Ext),
             override_extension w = Some name -> supported lib request ->
             exists r w' rest,
               handle_request lib app_config ENABLED_EXTENSIONS request w = (r, w')
               /\ trace w' = (trace w ++ EvHandler (ext_name module) :: rest)%list
               /\ Forall (fun ev => dispatch_event ev = false) rest
               /\ override_extension w'
                  = if released module request (outside w) then None else Some name).
  { intros request w Ho Hs.
    rewrite (handle_request_override lib app_config ENABLED_EXTENSIONS Ho Hn Hg Hs).
    destruct (override_path_post request (PyStr.split_last "."%char name) module w)
      as (r & w' & rest & H1 & H2 & H3 & H4).
    exists r, w', rest. rewrite Ho in H4. auto. }
  split; [exact Step|].
  induction requests as [|request requests IH]; intros w Hs Hh;
    cbn [serve List.length repeat].
  - now rewrite app_nil_r.
  - inversion Hs as [|? ? Hs1 Hs2]; subst. destruct Hh as [Ho Hh].
    destruct (Step request w Ho Hs1) as (r & w' & rest & H1 & H2 & H3 & _).
    rewrite H1 in *. cbn [snd] in *.
    rewrite (IH w' Hs2 Hh), H2, dispatches_app.
    replace (dispatches (EvHandler (ext_name module) :: rest))
      with [EvHandler (ext_name module)]
      by (unfold dispatches; cbn; fold (dispatches rest); now rewrite (dispatches_none _ H3)).
    rewrite <- app_assoc. reflexivity.
Qed.


(** C8, as the code has it. With no override active, the request is
    dispatched on its host, the netloc cut at the first colon: to the
    module stored under the first-registered domain that is a suffix of
    the host, and to the default fetcher when no registered domain is.
    The module stored under a domain is the last one registered with it,
    so the first-registered matching extension is the one selected
    whenever no two extensions declare the same domain. *)
Theorem host_match_dispatch (request : Request) (w : World Ext) :
  PyStr.truthy (override_extension w) = false ->
  let host := request_host lib request in
  handle_request lib app_config ENABLED_EXTENSIONS request w
  = match selected host ENABLED_EXTENSIONS with
    | Some m => handle_matching_extension lib app_config request m w
    | None => handle_default_request lib app_config request w
    end
  /\ (forall m, selected host ENABLED_EXTENSIONS = Some m ->
                exists m0, first_match host ENABLED_EXTENSIONS = Some m0
                           /\ DOMAIN m = DOMAIN m0
                           /\ exists p, host = p ++ DOMAIN m)
  /\ (selected host ENABLED_EXTENSIONS = None ->
      forall m, In m ENABLED_EXTENSIONS -> forall p, host <> p ++ DOMAIN m)
  /\ (NoDup (map DOMAIN ENABLED_EXTENSIONS) ->
      selected host ENABLED_EXTENSIONS = first_match host ENABLED_EXTENSIONS)
  /\ (forall h port,
         netloc (urlparse lib (req_url request)) = h ++ String ":"%char port ->
         ~ In ":"%char (list_ascii_of_string h) -> host = h).
Proof.
  intros Ho host.
  split.
  { rewrite (handle_request_no_override lib app_config ENABLED_EXTENSIONS request Ho).
    now rewrite find_matching_extension_selected. }
  split.
  { intros m Hm. unfold selected in Hm.
    destruct (first_match host ENABLED_EXTENSIONS) as [m0|] eqn:F; [|discriminate].
    exists m0. split; [reflexivity|].
    unfold last_with_domain in Hm. apply find_some in Hm. destruct Hm as [_ Hd].
    apply String.eqb_eq in Hd. split; [exact Hd|].
    apply first_match_some in F. destruct F as [_ F].
    apply endswith_spec in F. now rewrite Hd. }
  split.
  { intros Hsel m Hin p Hp. unfold selected in Hsel.
    destruct (first_match host ENABLED_EXTENSIONS) as [m0|] eqn:F.
    - destruct (first_match_some _ _ _ F) as [Hin0 _].
      destruct (last_with_domain_in _ _ _ Hin0 eq_refl) as [m' Hm']. congruence.
    - unfold first_match in F. pose proof (find_none _ _ F m Hin) as Hf. cbn in Hf.
      assert (PyStr.endswith host (DOMAIN m) = true) by (apply endswith_spec; eauto).
      congruence. }
  split; [apply selected_nodup|].
  intros h port Hnet Hno. unfold host, request_host. rewrite Hnet.
  now apply split_first_strips_port.
Qed.

(** C10. The normalizer applied to its own output returns it unchanged
    and does nothing else, so the second normalization of the override
    response in [handle_request] can be dropped: [handle_request] and
    [handle_request_once] run alike on every request in every world. *)
Theorem second_normalization_is_identity :
  (forall (response : ResponseLike) (base_url base_url' : string) (w : World Ext),
      bind (process response base_url) (fun r => process (Resp r) base_url') w
      = process response base_url w)
  /\ (forall (r : Response) (base_url : string) (w : World Ext),
         process (Resp r) base_url w = (Ok r, w))
  /\ (forall (request : Request) (w : World Ext),
         handle_request lib app_config ENABLED_EXTENSIONS request w
         = handle_request_once lib app_config ENABLED_EXTENSIONS request w).
Proof.
  split; [intros; apply renormalize_is_ret|]. split; [reflexivity|].
  intros request w. unfold handle_request, handle_request_once, bind.
  destruct (handle_override_extension _ _ _ _ _ w) as [[[r|]|e] w']; reflexivity.
Qed.

(** A handler that raises: nothing catches the exception on either
    extension path, and the override slot is left as it was. *)
Lemma handler_exception_propagates (request : Request) (w : World Ext) (m : ExtModule Ext)
      (e : Exn) (o : Ext) :
  ext_handle_request m request (outside w) = (Raise e, o) ->
  let w' := mkWorld (override_extension w) (cache_dir w) o
                    (trace w ++ [EvHandler (ext_name m)]) in
  handle_matching_extension lib app_config request m w = (Raise e, w')
  /\ forall name, override_path lib app_config request name m w = (Raise e, w').
Proof.
  intros H w'. unfold handle_matching_extension, override_path, bind, emit, call_out; cbn.
  rewrite H. auto.
Qed.

End DispatcherFacts.

(* ================================================================== *)
(** * Runs on the concrete world *)
(* ================================================================== *)

(** C3 on a run: with the override held by [cap], a request for a
    Wikipedia page goes to [cap], not to the extension of that host. *)
Lemma override_captures_witness :
  let lib := Demo.demo_lib Demo.always_ok in
  let module := Demo.ext_status "cap" "capture.test" true in
  let exts := [module; Demo.ext_plain "wiki" "wikipedia.org"] in
  let name := "extensions.cap.cap" in
  let request := Demo.get "http://en.wikipedia.org/wiki/Rocq" in
  let w := Demo.with_override name in
  name <> ""
  /\ PyDict.get (extensions exts) (PyStr.split_last "."%char name) = Some module
  /\ override_extension w = Some name
  /\ supported lib request
  /\ exists r w' rest,
       handle_request lib Demo.config exts request w = (r, w')
       /\ trace w' = (trace w ++ EvHandler (ext_name module) :: rest)%list
       /\ Forall (fun ev => dispatch_event ev = false) rest
       /\ override_extension w'
          = if released module request (outside w) then None else Some name.
Proof.
  cbv zeta.
  assert (Hn : "extensions.cap.cap" <> "") by discriminate.
  assert (Hg : PyDict.get
                 (extensions [Demo.ext_status "cap" "capture.test" true;
                              Demo.ext_plain "wiki" "wikipedia.org"])
                 (PyStr.split_last "."%char "extensions.cap.cap")
               = Some (Demo.ext_status "cap" "capture.test" true)) by reflexivity.
  assert (Hs : supported (Demo.demo_lib Demo.always_ok)
                         (Demo.get "http://en.wikipedia.org/wiki/Rocq"))
    by (left; reflexivity).
  repeat (split; [assumption || reflexivity|]).
  exact (proj1 (override_captures_every_request (Demo.demo_lib Demo.always_ok) Demo.config
                  _ _ _ Hn Hg)
           (Demo.get "http://en.wikipedia.org/wiki/Rocq")
           (Demo.with_override "extensions.cap.cap") eq_refl Hs).
Defined.



(** The same run with an extension that reports status false, and with
    no extension for the host: the slot is empty afterwards. *)
Lemma stale_override_left_empty :
  let lib := Demo.demo_lib Demo.always_ok in
  let w := Demo.with_override "extensions.gone.gone" in
  override_extension
    (snd (handle_request lib Demo.config [Demo.ext_status "shy" "capture.test" false]
                         (Demo.get "http://capture.test/") w)) = None
  /\ override_extension
       (snd (handle_request lib Demo.config [Demo.ext_status "cap" "capture.test" true]
                            (Demo.get "http://elsewhere.test/") w)) = None.
Proof. cbv zeta. split; reflexivity. Qed.



(** C7 as stated fails: the same value under [content-type] and under
    [Content-Type] leads to two different branches and two different
    bodies. *)
Lemma content_type_key_case_matters :
  let lib := Demo.demo_lib Demo.always_ok in
  let page := Bytes "<img src='http://h/a.png'>" in
  let lower_key := [("content-type", "text/html")] in
  let exact_key := [("Content-Type", "text/html")] in
  branch_of lower_key = BranchPassthrough
  /\ branch_of exact_key = BranchHtml
  /\ fst (body_of (process_response_with_image_caching lib Demo.config
                     (Tuple3 page 200 lower_key) "http://h/" Demo.fresh))
     = Ok page
  /\ fst (body_of (process_response_with_image_caching lib Demo.config
                     (Tuple3 page 200 exact_key) "http://h/" Demo.fresh))
     = Ok (Str "<transcoded><img src='/cached_image/md5-of-http://h/a.png.gif'>")
  /\ body_of (process_response_with_image_caching lib Demo.config
                (Tuple3 page 200 lower_key) "http://h/" Demo.fresh)
     <> body_of (process_response_with_image_caching lib Demo.config
                   (Tuple3 page 200 exact_key) "http://h/" Demo.fresh).
Proof.
  cbv zeta. repeat (split; [reflexivity|]). vm_compute. discriminate.
Qed.

(** C7 on a run: [Text/HTML] and [text/html] under the exact key. *)
Lemma content_type_value_witness :
  let lib := Demo.demo_lib Demo.always_ok in
  let h1 := [("Content-Type", "Text/HTML")] in
  let h2 := [("Content-Type", "text/html"); ("X-Served-By", "demo")] in
  PyStr.lower (PyDict.get_default h1 "Content-Type" "")
  = PyStr.lower (PyDict.get_default h2 "Content-Type" "")
  /\ assignable h1 = true /\ assignable h2 = true
  /\ branch_of h1 = branch_of h2
  /\ body_of (process_response_with_image_caching lib Demo.config
                (Tuple3 (Bytes "<p>x</p>") 200 h1) "http://h/" Demo.fresh)
     = body_of (process_response_with_image_caching lib Demo.config
                  (Tuple3 (Bytes "<p>x</p>") 200 h2) "http://h/" Demo.fresh).
Proof.
  cbv zeta. split; [reflexivity|]. split; [reflexivity|]. split; [reflexivity|].
  destruct (proj1 (content_type_value_decides_branch (Demo.demo_lib Demo.always_ok)
                                                     Demo.config)
              [("Content-Type", "Text/HTML")]
              [("Content-Type", "text/html"); ("X-Served-By", "demo")]
              (Bytes "<p>x</p>") 200 "http://h/" Demo.fresh eq_refl) as (B & _ & F).
  split; [exact B|]. exact (F eq_refl eq_refl).
Defined.

(** C8 as stated fails: of two extensions that declare the same domain,
    the one registered later handles the request. *)
Lemma same_domain_later_extension_wins :
  let lib := Demo.demo_lib Demo.always_ok in
  let exts := [Demo.ext_plain "first" "example.org"; Demo.ext_plain "second" "example.org"] in
  let request := Demo.get "http://www.example.org:8080/" in
  request_host lib request = "www.example.org"
  /\ option_map ext_name (first_match "www.example.org" exts) = Some "first"
  /\ option_map ext_name (find_matching_extension exts "www.example.org") = Some "second"
  /\ trace (snd (handle_request lib Demo.config exts request Demo.fresh))
     = [EvHandler "second"].
Proof.
  cbv zeta. repeat split; reflexivity.
Qed.

(** C8 on a run: three extensions with distinct domains, two of which
    match the host; the port is cut off before matching. *)
Lemma host_match_dispatch_witness :
  let lib := Demo.demo_lib Demo.always_ok in
  let wiki := Demo.ext_plain "wiki" "wikipedia.org" in
  let exts := [Demo.ext_plain "org" "example.org"; wiki; Demo.ext_plain "en" "en.wikipedia.org"] in
  let request := Demo.get "http://en.wikipedia.org:8080/wiki/Rocq" in
  PyStr.truthy (override_extension Demo.fresh) = false
  /\ NoDup (map DOMAIN exts)
  /\ request_host lib request = "en.wikipedia.org"
  /\ selected "en.wikipedia.org" exts = Some wiki
  /\ selected (request_host lib request) exts = first_match (request_host lib request) exts
  /\ handle_request lib Demo.config exts request Demo.fresh
     = handle_matching_extension lib Demo.config request wiki Demo.fresh.
Proof.
  cbv zeta.
  assert (Hnd : NoDup (map DOMAIN [Demo.ext_plain "org" "example.org";
                                   Demo.ext_plain "wiki" "wikipedia.org";
                                   Demo.ext_plain "en" "en.wikipedia.org"])).
  { cbn. repeat constructor; cbn; intuition discriminate. }
  split; [reflexivity|]. split; [exact Hnd|].
  destruct (host_match_dispatch (Demo.demo_lib Demo.always_ok) Demo.config
              [Demo.ext_plain "org" "example.org"; Demo.ext_plain "wiki" "wikipedia.org";
               Demo.ext_plain "en" "en.wikipedia.org"]
              (Demo.get "http://en.wikipedia.org:8080/wiki/Rocq")
              Demo.fresh eq_refl) as (H1 & _ & _ & H4 & H5).
  split; [apply (H5 "en.wikipedia.org" "8080");
          [reflexivity|cbn; intuition discriminate]|].
  split; [reflexivity|]. split; [exact (H4 Hnd)|].
  rewrite H1. reflexivity.
Defined.

(* ================================================================== *)
(** * Floating-point arithmetic of the image sizes

    Bounds on binary64 multiplication, division and truncation, proved
    on the Standard Library's executable specification: each operation
    on positive normal numbers is off by at most one part in [2^52]. *)
(* ================================================================== *)

Section FloatBounds.

Lemma Zdigits2_log2 (m : Z) : 0 < m -> Zdigits2 m = Z.log2 m + 1.
Proof.
  destruct m as [|p|p]; try lia. intros _. cbn.
  induction p as [p IH|p IH|]; cbn; try reflexivity.
  - destruct p; cbn in *; lia.
  - destruct p; cbn in *; lia.
Qed.

Lemma Zdigits2_bounds (m : Z) :
  0 < m -> 2 ^ (Zdigits2 m - 1) <= m < 2 ^ Zdigits2 m.
Proof.
  intros H. rewrite (Zdigits2_log2 m H).
  replace (Z.log2 m + 1 - 1) with (Z.log2 m) by lia.
  replace (Z.log2 m + 1) with (Z.succ (Z.log2 m)) by lia.
  now apply Z.log2_spec.
Qed.

Lemma Zdigits2_unique (m d : Z) :
  0 < d -> 2 ^ (d - 1) <= m < 2 ^ d -> Zdigits2 m = d.
Proof.
  intros Hd H.
  assert (0 < m) by (pose proof (Z.pow_pos_nonneg 2 (d - 1)); lia).
  rewrite Zdigits2_log2 by assumption.
  rewrite (Z.log2_unique m (d - 1)); try lia.
  replace (Z.succ (d - 1)) with d by lia. exact H.
Qed.

Lemma shr_1_m (r : shr_record) : 0 <= shr_m r -> shr_m (shr_1 r) = shr_m r / 2.
Proof.
  destruct r as [m rb sb]. cbn. intros H.
  destruct m as [|[p|p|]|p]; cbn; try lia.
  - rewrite Pos2Z.inj_xI. apply Z.div_unique with (r := 1); lia.
  - rewrite Pos2Z.inj_xO. apply Z.div_unique with (r := 0); lia.
Qed.

Lemma iter_shr_m (p : positive) (r : shr_record) :
  0 <= shr_m r -> shr_m (iter_pos shr_1 p r) = shr_m r / 2 ^ Zpos p.
Proof.
  revert r. induction p as [p IH|p IH|]; intros r H; cbn [iter_pos].
  - assert (H1 : 0 <= shr_m (shr_1 r)) by (rewrite shr_1_m by lia; apply Z.div_pos; lia).
    assert (H2 : 0 <= shr_m (iter_pos shr_1 p (shr_1 r)))
      by (rewrite IH by lia; apply Z.div_pos; lia).
    rewrite IH, IH, shr_1_m by lia.
    rewrite !Z.div_div by lia.
    f_equal. change (Zpos p~1) with (2 * Zpos p + 1).
    replace (2 * Zpos p + 1) with (1 + Zpos p + Zpos p) by lia.
    rewrite !Z.pow_add_r by lia. lia.
  - assert (H2 : 0 <= shr_m (iter_pos shr_1 p r))
      by (rewrite IH by lia; apply Z.div_pos; lia).
    rewrite IH, IH by lia.
    rewrite !Z.div_div by lia.
    f_equal. change (Zpos p~0) with (2 * Zpos p).
    replace (2 * Zpos p) with (Zpos p + Zpos p) by lia.
    rewrite !Z.pow_add_r by lia. lia.
  - rewrite shr_1_m by lia. reflexivity.
Qed.

Lemma shr_m_of_loc (m : Z) (l : location) : shr_m (shr_record_of_loc m l) = m.
Proof. destruct l as [|[]]; reflexivity. Qed.

(** [shr] divides the mantissa by [2^n] and adds [n] to the exponent. *)
Lemma shr_spec (r : shr_record) (e n : Z) :
  0 <= shr_m r -> 0 <= n ->
  shr_m (fst (shr r e n)) = shr_m r / 2 ^ n /\ snd (shr r e n) = e + n.
Proof.
  intros Hm Hn. destruct n as [|p|p]; cbn; try lia.
  - rewrite Z.div_1_r. lia.
  - split; [now apply iter_shr_m|reflexivity].
Qed.

Lemma round_nearest_even_cases (m : Z) (l : location) :
  round_nearest_even m l = m \/ round_nearest_even m l = m + 1.
Proof.
  destruct l as [|[]]; cbn; auto. destruct (Z.even m); auto.
Qed.

Lemma fexp_normal (x : Z) : -1021 <= x -> fexp Float64.prec Float64.emax x = x - 53.
Proof. intros H. unfold fexp, emin, Float64.prec, Float64.emax. lia. Qed.

(** Rounding a mantissa of at least 53 bits: the result keeps the first
    53 bits, or adds one to them. *)
Lemma binary_round_aux_spec (m e : Z) (l : location) :
  2 ^ 52 <= m -> -1074 <= e -> e + (Zdigits2 m - 53) + 1 <= 971 ->
  exists (m' : positive) (e' m2 : Z),
    binary_round_aux Float64.prec Float64.emax false m e l = S754_finite false m' e'
    /\ 2 ^ 52 <= Zpos m' < 2 ^ 53
    /\ (m2 = m / 2 ^ (Zdigits2 m - 53) \/ m2 = m / 2 ^ (Zdigits2 m - 53) + 1)
    /\ e + (Zdigits2 m - 53) <= e' <= e + (Zdigits2 m - 53) + 1
    /\ Zpos m' * 2 ^ (e' - (e + (Zdigits2 m - 53))) = m2.
Proof.
  intros Hm He Hmax.
  assert (Hpos : 0 < m) by lia.
  pose proof (Zdigits2_bounds m Hpos) as Hd.
  set (d := Zdigits2 m) in *.
  assert (Hd53 : 53 <= d).
  { destruct (Z_lt_le_dec d 53) as [Hlt|]; [|assumption]. exfalso.
    assert (2 ^ d <= 2 ^ 52) by (apply Z.pow_le_mono_r; lia). lia. }
  set (n := d - 53) in *.
  assert (Hsplit : 2 ^ d = 2 ^ n * 2 ^ 53).
  { replace d with (n + 53) by (unfold n; lia). apply Z.pow_add_r; lia. }
  assert (Hsplit' : 2 ^ (d - 1) = 2 ^ n * 2 ^ 52).
  { replace (d - 1) with (n + 52) by (unfold n; lia). apply Z.pow_add_r; lia. }
  assert (Hn : 0 < 2 ^ n) by (apply Z.pow_pos_nonneg; unfold n; lia).
  set (m1 := m / 2 ^ n).
  assert (Hm1 : 2 ^ 52 <= m1 < 2 ^ 53).
  { unfold m1. split.
    - apply Z.div_le_lower_bound; lia.
    - apply Z.div_lt_upper_bound; lia. }
  unfold binary_round_aux, shr_fexp.
  fold d. rewrite fexp_normal by lia.
  replace (d + e - 53 - e) with n by (unfold n; lia).
  destruct (shr_spec (shr_record_of_loc m l) e n) as [S1 S2];
    [rewrite shr_m_of_loc; lia|unfold n; lia|].
  rewrite shr_m_of_loc in S1. fold m1 in S1.
  destruct (shr (shr_record_of_loc m l) e n) as [mrs1 e1]. cbn [fst snd] in S1, S2.
  subst e1. rewrite S1.
  set (m2 := round_nearest_even m1 (loc_of_shr_record mrs1)).
  assert (Hm2 : m2 = m1 \/ m2 = m1 + 1) by apply round_nearest_even_cases.
  assert (Hm2b : 2 ^ 52 <= m2 <= 2 ^ 53) by lia.
  destruct (Z_lt_le_dec m2 (2 ^ 53)) as [Hlt|Hge].
  - assert (D2 : Zdigits2 m2 = 53) by (apply Zdigits2_unique; [lia|exact (conj (proj1 Hm2b) Hlt)]).
    rewrite D2, fexp_normal by lia.
    replace (53 + (e + n) - 53 - (e + n)) with 0 by lia.
    cbn [shr shr_record_of_loc shr_m].
    destruct m2 as [|p|p] eqn:E2; try lia.
    replace (e + n <=? Float64.emax - Float64.prec) with true by (symmetry; apply Z.leb_le; unfold Float64.emax, Float64.prec; lia).
    exists p, (e + n), (Zpos p).
    split; [reflexivity|]. split; [lia|]. split; [exact Hm2|]. split; [lia|].
    replace (e + n - (e + n)) with 0 by lia. lia.
  - assert (E53 : m2 = 2 ^ 53) by lia.
    rewrite E53.
    replace (Zdigits2 (2 ^ 53)) with 54 by reflexivity.
    rewrite fexp_normal by lia.
    replace (54 + (e + n) - 53 - (e + n)) with 1 by lia.
    cbn [shr shr_record_of_loc iter_pos shr_1 shr_m].
    replace (e + n + 1 <=? Float64.emax - Float64.prec) with true
      by (symmetry; apply Z.leb_le; unfold Float64.emax, Float64.prec; lia).
    change (2 ^ 53) with (Zpos (xO (Pos.pow 2 52))).
    cbn [shr_1 shr_m].
    exists (Pos.pow 2 52), (e + n + 1), (2 ^ 53).
    split; [reflexivity|]. split; [cbn; lia|]. split; [now rewrite <- E53|].
    split; [lia|].
    replace (e + n + 1 - (e + n)) with 1 by lia. reflexivity.
Qed.

Lemma binary_round_aux_exact (m : positive) (e : Z) :
  2 ^ 52 <= Zpos m < 2 ^ 53 -> -1074 <= e <= 971 ->
  binary_round_aux Float64.prec Float64.emax false (Zpos m) e loc_Exact = S754_finite false m e.
Proof.
  intros Hm He.
  assert (D : Zdigits2 (Zpos m) = 53) by (apply Zdigits2_unique; [lia|exact Hm]).
  unfold binary_round_aux, shr_fexp. rewrite D, fexp_normal by lia.
  replace (53 + e - 53 - e) with 0 by lia.
  cbn [shr shr_record_of_loc loc_of_shr_record round_nearest_even shr_m].
  rewrite D, fexp_normal by lia.
  replace (53 + e - 53 - e) with 0 by lia.
  cbn [shr shr_record_of_loc shr_m].
  replace (e <=? Float64.emax - Float64.prec) with true
    by (symmetry; apply Z.leb_le; unfold Float64.emax, Float64.prec; lia).
  reflexivity.
Qed.


Local Open Scope R_scope.

Lemma bpow_pos (e : Z) : 0 < bpow e.
Proof. apply powerRZ_lt. lra. Qed.

Lemma bpow_add (a b : Z) : bpow (a + b) = bpow a * bpow b.
Proof. apply powerRZ_add. lra. Qed.

Lemma bpow_IZR (k : Z) : (0 <= k)%Z -> bpow k = IZR (2 ^ k).
Proof.
  intros H. unfold bpow. rewrite <- (Z2Nat.id k H) at 1.
  rewrite <- pow_powerRZ. rewrite pow_IZR. now rewrite Z2Nat.id.
Qed.

Lemma bpow_1 : bpow 1 = 2.
Proof. rewrite bpow_IZR by lia. reflexivity. Qed.

Lemma bpow_0 : bpow 0 = 1.
Proof. reflexivity. Qed.

Lemma bpow_le (a b : Z) : (a <= b)%Z -> bpow a <= bpow b.
Proof.
  intros H. replace b with (a + (b - a))%Z by lia. rewrite bpow_add.
  rewrite (bpow_IZR (b - a)) by lia.
  assert (1 <= IZR (2 ^ (b - a))).
  { apply IZR_le. pose proof (Z.pow_pos_nonneg 2 (b - a)). lia. }
  rewrite <- (Rmult_1_r (bpow a)) at 1.
  apply Rmult_le_compat_l; [left; apply bpow_pos|assumption].
Qed.

(** [x] lies in the binade cell of the integer mantissa [m] at exponent [e]. *)
Lemma round_real (m e : Z) (l : location) (x : R) :
  (2 ^ 52 <= m)%Z -> (-1074 <= e)%Z -> (e + (Zdigits2 m - 53) + 1 <= 971)%Z ->
  IZR m * bpow e <= x < IZR (m + 1) * bpow e ->
  exists (m' : positive) (e' : Z),
    binary_round_aux Float64.prec Float64.emax false m e l = S754_finite false m' e'
    /\ (2 ^ 52 <= Zpos m' < 2 ^ 53)%Z
    /\ (e + (Zdigits2 m - 53) <= e' <= e + (Zdigits2 m - 53) + 1)%Z
    /\ x * (1 - u) <= IZR (Zpos m') * bpow e' <= x * (1 + u).
Proof.
  intros Hm He Hmax Hx.
  destruct (binary_round_aux_spec m e l Hm He Hmax)
    as (m' & e' & m2 & Hr & Hm' & Hm2 & He' & Hprod).
  exists m', e'. split; [exact Hr|]. split; [exact Hm'|]. split; [exact He'|].
  assert (Hpos : (0 < m)%Z) by lia.
  pose proof (Zdigits2_bounds m Hpos) as Hd.
  set (d := Zdigits2 m) in *. set (n := (d - 53)%Z) in *.
  assert (Hd53 : (53 <= d)%Z).
  { destruct (Z_lt_le_dec d 53) as [Hlt|]; [|assumption]. exfalso.
    assert (2 ^ d <= 2 ^ 52)%Z by (apply Z.pow_le_mono_r; lia). lia. }
  assert (Hn0 : (0 <= n)%Z) by (unfold n; lia).
  assert (Hn : (0 < 2 ^ n)%Z) by (apply Z.pow_pos_nonneg; lia).
  set (m1 := (m / 2 ^ n)%Z) in *.
  assert (Hdiv : (m1 * 2 ^ n <= m < (m1 + 1) * 2 ^ n)%Z).
  { unfold m1. pose proof (Z.div_mod m (2 ^ n)). pose proof (Z.mod_pos_bound m (2 ^ n) Hn).
    nia. }
  assert (Hm1 : (2 ^ 52 <= m1)%Z).
  { unfold m1. apply Z.div_le_lower_bound; [lia|].
    replace (d - 1)%Z with (n + 52)%Z in Hd by (unfold n; lia).
    rewrite Z.pow_add_r in Hd by lia. lia. }
  (* the value of the result, in units of [bpow (e + n)] *)
  assert (Hval : IZR (Zpos m') * bpow e' = IZR m2 * bpow (e + n)).
  { rewrite <- Hprod. rewrite mult_IZR.
    replace e' with ((e' - (e + n)) + (e + n))%Z at 1 by lia.
    rewrite bpow_add, <- (bpow_IZR (e' - (e + n))) by lia. ring. }
  set (B := bpow (e + n)) in *.
  assert (HB : 0 < B) by apply bpow_pos.
  assert (Hbe : bpow e * IZR (2 ^ n) = B).
  { unfold B. rewrite bpow_add, (bpow_IZR n) by lia. ring. }
  assert (Hbe0 : 0 < bpow e) by apply bpow_pos.
  assert (Hz1 : IZR m1 * IZR (2 ^ n) <= IZR m)
    by (rewrite <- mult_IZR; apply IZR_le; lia).
  assert (Hz2 : IZR (m + 1) <= (IZR m1 + 1) * IZR (2 ^ n))
    by (rewrite <- plus_IZR, <- mult_IZR; apply IZR_le; lia).
  assert (Hlo : IZR m1 * B <= x).
  { apply Rle_trans with (IZR m * bpow e); [|tauto].
    rewrite <- Hbe. nra. }
  assert (Hhi : x <= (IZR m1 + 1) * B).
  { apply Rle_trans with (IZR (m + 1) * bpow e); [lra|].
    rewrite <- Hbe. nra. }
  assert (HF : IZR m1 * B <= IZR m2 * B <= (IZR m1 + 1) * B).
  { destruct Hm2 as [->| ->]; [|rewrite plus_IZR]; nra. }
  assert (HT : u * IZR (2 ^ 52) = 1).
  { unfold u. rewrite <- (bpow_IZR 52) by lia. rewrite <- bpow_add. reflexivity. }
  assert (Hu0 : 0 < u) by apply bpow_pos.
  assert (HmT : IZR (2 ^ 52) <= IZR m1) by now apply IZR_le.
  assert (HBx : B <= x * u).
  { apply Rle_trans with (IZR m1 * B * u); [|apply Rmult_le_compat_r; lra].
    replace B with (IZR (2 ^ 52) * B * u) at 1
      by (transitivity (B * (u * IZR (2 ^ 52))); [ring|rewrite HT; ring]).
    apply Rmult_le_compat_r; [lra|]. apply Rmult_le_compat_r; lra. }
  rewrite Hval. lra.
Qed.

Lemma good_pos (k : Z) (x : spec_float) : good k x -> 0 < F2R x.
Proof.
  intros (m & e & -> & Hm & _). cbn.
  apply Rmult_lt_0_compat; [apply IZR_lt; lia|apply bpow_pos].
Qed.

Lemma Zdigits2_le (m d : Z) : (0 < m < 2 ^ d)%Z -> (0 <= d)%Z -> (Zdigits2 m <= d)%Z.
Proof.
  intros Hm Hd. pose proof (Zdigits2_bounds m (proj1 Hm)) as Hb.
  destruct (Z_lt_le_dec d (Zdigits2 m)) as [Hlt|]; [|assumption]. exfalso.
  assert (2 ^ d <= 2 ^ (Zdigits2 m - 1))%Z by (apply Z.pow_le_mono_r; lia). lia.
Qed.

Lemma Zdigits2_ge (m d : Z) : (2 ^ (d - 1) <= m)%Z -> (0 < d)%Z -> (d <= Zdigits2 m)%Z.
Proof.
  intros Hm Hd.
  assert (Hpos : (0 < m)%Z) by (pose proof (Z.pow_pos_nonneg 2 (d - 1)); lia).
  pose proof (Zdigits2_bounds m Hpos) as Hb.
  destruct (Z_lt_le_dec (Zdigits2 m) d) as [Hlt|]; [|assumption]. exfalso.
  assert (2 ^ Zdigits2 m <= 2 ^ (d - 1))%Z.
  { apply Z.pow_le_mono_r; [lia|]. lia. }
  lia.
Qed.

Lemma mul_spec (k1 k2 : Z) (x y : spec_float) :
  good k1 x -> good k2 y -> (k1 + k2 + 54 <= 900)%Z ->
  good (k1 + k2 + 54) (SFmul Float64.prec Float64.emax x y)
  /\ F2R x * F2R y * (1 - u) <= F2R (SFmul Float64.prec Float64.emax x y) <= F2R x * F2R y * (1 + u).
Proof.
  intros (mx & ex & -> & Hmx & Hex) (my & ey & -> & Hmy & Hey) Hk.
  cbn [SFmul xorb].
  assert (Hprod : (2 ^ 104 <= Zpos (mx * my) < 2 ^ 106)%Z).
  { rewrite Pos2Z.inj_mul.
    change (2 ^ 104)%Z with (2 ^ 52 * 2 ^ 52)%Z. change (2 ^ 106)%Z with (2 ^ 53 * 2 ^ 53)%Z.
    nia. }
  assert (Hd1 : (Zdigits2 (Zpos (mx * my)) <= 106)%Z) by (apply Zdigits2_le; lia).
  assert (Hd2 : (105 <= Zdigits2 (Zpos (mx * my)))%Z) by (apply Zdigits2_ge; [cbn; lia|lia]).
  destruct (round_real (Zpos (mx * my)) (ex + ey) loc_Exact
              (IZR (Zpos mx) * bpow ex * (IZR (Zpos my) * bpow ey)))
    as (m' & e' & Hr & Hm' & He' & Hv); try lia.
  { rewrite Pos2Z.inj_mul, plus_IZR, mult_IZR, bpow_add.
    pose proof (bpow_pos ex). pose proof (bpow_pos ey).
    assert (0 < bpow ex * bpow ey) by now apply Rmult_lt_0_compat.
    split; [right; ring|nra]. }
  rewrite Hr. split.
  - exists m', e'. split; [reflexivity|]. split; [exact Hm'|lia].
  - cbn [F2R cond_Zopp]. exact Hv.
Qed.

Lemma div_spec (k1 k2 : Z) (x y : spec_float) :
  good k1 x -> good k2 y -> (k1 + k2 + 54 <= 900)%Z ->
  good (k1 + k2 + 54) (SFdiv Float64.prec Float64.emax x y)
  /\ F2R x * (1 - u) <= F2R (SFdiv Float64.prec Float64.emax x y) * F2R y <= F2R x * (1 + u).
Proof.
  intros (mx & ex & -> & Hmx & Hex) (my & ey & -> & Hmy & Hey) Hk.
  cbn [SFdiv xorb]. unfold SFdiv_core_binary.
  assert (Dx : Zdigits2 (Zpos mx) = 53%Z) by (apply Zdigits2_unique; [lia|exact Hmx]).
  assert (Dy : Zdigits2 (Zpos my) = 53%Z) by (apply Zdigits2_unique; [lia|exact Hmy]).
  rewrite Dx, Dy, fexp_normal by lia.
  replace (Z.min (53 + ex - (53 + ey) - 53) (ex - ey))%Z with (ex - ey - 53)%Z by lia.
  replace (ex - ey - (ex - ey - 53))%Z with 53%Z by lia.
  rewrite Z.shiftl_mul_pow2 by lia.
  pose proof (Z_div_mod (Zpos mx * 2 ^ 53) (Zpos my) eq_refl) as Hdm.
  destruct (Z.div_eucl (Zpos mx * 2 ^ 53) (Zpos my)) as [q r].
  destruct Hdm as [Hq Hr].
  assert (Hqb : (2 ^ 52 <= q < 2 ^ 54)%Z).
  { change (2 ^ 54)%Z with (2 * 2 ^ 53)%Z in *. nia. }
  assert (Hd1 : (Zdigits2 q <= 54)%Z) by (apply Zdigits2_le; lia).
  assert (Hd2 : (53 <= Zdigits2 q)%Z) by (apply Zdigits2_ge; [cbn; lia|lia]).
  set (X := IZR (Zpos mx) * bpow ex).
  set (Y := IZR (Zpos my) * bpow ey).
  assert (HY : 0 < Y).
  { apply Rmult_lt_0_compat; [apply IZR_lt; lia|apply bpow_pos]. }
  assert (HXY : X / Y * Y = X) by (unfold Rdiv; rewrite Rmult_assoc, Rinv_l; lra).
  destruct (round_real q (ex - ey - 53) (new_location (Zpos my) r) (X / Y))
    as (m' & e' & Hres & Hm' & He' & Hv); try lia.
  { (* the quotient lies in the cell of [q] *)
    assert (Hbe : bpow ex = bpow (ex - ey - 53) * IZR (2 ^ 53) * bpow ey).
    { rewrite <- (bpow_IZR 53), <- !bpow_add by lia. f_equal. lia. }
    assert (HqR : IZR (Zpos mx) * IZR (2 ^ 53) = IZR (Zpos my) * IZR q + IZR r).
    { rewrite <- !mult_IZR, <- plus_IZR. now f_equal. }
    assert (Hr0 : 0 <= IZR r < IZR (Zpos my)) by (split; [apply IZR_le|apply IZR_lt]; lia).
    pose proof (bpow_pos (ex - ey - 53)) as Hb1. pose proof (bpow_pos ey) as Hb2.
    assert (Hb12 : 0 < bpow (ex - ey - 53) * bpow ey) by now apply Rmult_lt_0_compat.
    split.
    - apply Rmult_le_reg_r with Y; [exact HY|]. rewrite HXY. unfold X, Y. rewrite Hbe.
      nra.
    - apply Rmult_lt_reg_r with Y; [exact HY|]. rewrite HXY. unfold X, Y. rewrite Hbe.
      rewrite plus_IZR. nra. }
  rewrite Hres. split.
  - exists m', e'. split; [reflexivity|]. split; [exact Hm'|lia].
  - cbn [F2R cond_Zopp]. fold Y.
    assert (H1 : X / Y * (1 - u) * Y = X * (1 - u)) by (rewrite <- HXY at 2; ring).
    assert (H2 : X / Y * (1 + u) * Y = X * (1 + u)) by (rewrite <- HXY at 2; ring).
    fold X. rewrite <- H1, <- H2.
    split; apply Rmult_le_compat_r; lra.
Qed.

Lemma pos_iter_xO (p k : positive) :
  Zpos (Pos.iter xO p k) = (Zpos p * 2 ^ Zpos k)%Z.
Proof.
  induction k as [|k IH] using Pos.peano_ind.
  - cbn. lia.
  - rewrite Pos.iter_succ, Pos2Z.inj_xO, IH, Pos2Z.inj_succ, Z.pow_succ_r by lia. ring.
Qed.

Lemma of_int_spec (n : Z) :
  (0 < n < 2 ^ 53)%Z ->
  good 53 (binary_normalize Float64.prec Float64.emax n 0 false)
  /\ F2R (binary_normalize Float64.prec Float64.emax n 0 false) = IZR n.
Proof.
  intros Hn. destruct n as [|p|p]; try lia.
  cbn [binary_normalize]. unfold binary_round, shl_align.
  pose proof (Zdigits2_bounds (Zpos p) (proj1 Hn)) as Hd.
  pose proof (Zdigits2_le (Zpos p) 53 Hn ltac:(lia)) as Hd53.
  change (Zpos (digits2_pos p)) with (Zdigits2 (Zpos p)).
  set (d := Zdigits2 (Zpos p)) in *.
  assert (Hd1 : (1 <= d)%Z).
  { destruct (Z_lt_le_dec d 1) as [Hlt|]; [|assumption]. exfalso.
    assert (2 ^ d <= 2 ^ 0)%Z by (apply Z.pow_le_mono_r; lia).
    change (2 ^ 0)%Z with 1%Z in *. lia. }
  rewrite fexp_normal by lia.
  destruct (d + 0 - 53 - 0)%Z as [|k|k] eqn:Ek; try lia.
  - assert (d = 53%Z) by lia. rewrite H in Hd.
    rewrite binary_round_aux_exact by (try exact (conj (proj1 Hd) (proj2 Hn)); lia).
    split.
    + exists p, 0%Z. split; [reflexivity|]. split; [exact (conj (proj1 Hd) (proj2 Hn))|lia].
    + cbn [F2R cond_Zopp]. rewrite bpow_0. ring.
  - pose proof (pos_iter_xO p k) as Hit.
    assert (Hk : Zpos k = (53 - d)%Z) by lia.
    assert (Hs : (2 ^ (d - 1) * 2 ^ Zpos k = 2 ^ 52)%Z).
    { rewrite <- Z.pow_add_r by lia. f_equal. lia. }
    assert (Hs' : (2 ^ d * 2 ^ Zpos k = 2 ^ 53)%Z).
    { rewrite <- Z.pow_add_r by lia. f_equal. lia. }
    assert (Hk0 : (0 < 2 ^ Zpos k)%Z) by (apply Z.pow_pos_nonneg; lia).
    assert (Hb : (2 ^ 52 <= Zpos (Pos.iter xO p k) < 2 ^ 53)%Z) by (rewrite Hit; nia).
    rewrite binary_round_aux_exact by (try exact Hb; lia).
    split.
    + exists (Pos.iter xO p k), (d + 0 - 53)%Z. split; [reflexivity|]. split; [exact Hb|lia].
    + cbn [F2R cond_Zopp]. rewrite Hit, mult_IZR, <- (bpow_IZR (Zpos k)) by lia.
      rewrite Rmult_assoc, <- bpow_add.
      replace (Zpos k + (d + 0 - 53))%Z with 0%Z by lia. rewrite bpow_0. ring.
Qed.

Lemma good_lt_exp (m1 m2 : positive) (e1 e2 : Z) :
  (2 ^ 52 <= Zpos m1 < 2 ^ 53)%Z -> (2 ^ 52 <= Zpos m2 < 2 ^ 53)%Z -> (e1 < e2)%Z ->
  IZR (Zpos m1) * bpow e1 <= IZR (Zpos m2) * bpow e2.
Proof.
  intros H1 H2 He.
  apply Rle_trans with (IZR (2 ^ 53) * bpow e1).
  - apply Rmult_le_compat_r; [left; apply bpow_pos|apply IZR_le; lia].
  - apply Rle_trans with (IZR (2 ^ 52) * bpow (e1 + 1)).
    + rewrite bpow_add, bpow_1. change (2 ^ 53)%Z with (2 ^ 52 * 2)%Z.
      rewrite mult_IZR. right. ring.
    + apply Rle_trans with (IZR (2 ^ 52) * bpow e2).
      * apply Rmult_le_compat_l; [apply IZR_le; lia|apply bpow_le; lia].
      * apply Rmult_le_compat_r; [left; apply bpow_pos|apply IZR_le; lia].
Qed.

Lemma ltb_spec (k1 k2 : Z) (a b : spec_float) :
  good k1 a -> good k2 b ->
  if SFltb a b then F2R a <= F2R b else F2R b <= F2R a.
Proof.
  intros (m1 & e1 & -> & H1 & _) (m2 & e2 & -> & H2 & _).
  unfold SFltb. cbn [SFcompare F2R cond_Zopp].
  destruct (Z.compare_spec e1 e2) as [He|He|He].
  - subst e2. change (Pos.compare_cont Eq m1 m2) with (Pos.compare m1 m2).
    destruct (Pos.compare_spec m1 m2) as [Hm|Hm|Hm];
      (apply Rmult_le_compat_r; [left; apply bpow_pos|apply IZR_le; lia]).
  - now apply good_lt_exp.
  - now apply good_lt_exp.
Qed.

Lemma min2_spec (k1 k2 : Z) (a b : spec_float) :
  good k1 a -> good k2 b ->
  (Float64.min2 a b = a \/ Float64.min2 a b = b)
  /\ F2R (Float64.min2 a b) <= F2R a /\ F2R (Float64.min2 a b) <= F2R b.
Proof.
  intros Ha Hb. pose proof (ltb_spec _ _ _ _ Hb Ha) as H.
  unfold Float64.min2, Float64.ltb.
  destruct (SFltb b a); split; auto; split; lra.
Qed.

Lemma to_int_spec (k : Z) (x : spec_float) :
  good k x -> exists n, Float64.to_int x = Ok n /\ IZR n <= F2R x < IZR n + 1.
Proof.
  intros (m & e & -> & Hm & _). cbn [Float64.to_int F2R cond_Zopp].
  eexists. split; [reflexivity|].
  destruct (Z_lt_le_dec e 0) as [Hneg|Hpos].
  - rewrite Z.shiftl_div_pow2 by lia.
    set (k' := (- e)%Z). assert (Hk : (0 < 2 ^ k')%Z) by (apply Z.pow_pos_nonneg; lia).
    pose proof (Z.div_mod (Zpos m) (2 ^ k') ltac:(lia)) as Hdm.
    pose proof (Z.mod_pos_bound (Zpos m) (2 ^ k') Hk) as Hmod.
    set (q := (Zpos m / 2 ^ k')%Z) in *. set (r := (Zpos m mod 2 ^ k')%Z) in *.
    assert (Hb : bpow e * IZR (2 ^ k') = 1).
    { rewrite <- (bpow_IZR k'), <- bpow_add by lia.
      replace (e + k')%Z with 0%Z by lia. apply bpow_0. }
    assert (HmR : IZR (Zpos m) = IZR (2 ^ k') * IZR q + IZR r).
    { rewrite <- mult_IZR, <- plus_IZR. now f_equal. }
    assert (Hr : 0 <= IZR r < IZR (2 ^ k')) by (split; [apply IZR_le|apply IZR_lt]; lia).
    pose proof (bpow_pos e) as Hbe. rewrite HmR.
    assert (Hrb : 0 <= IZR r * bpow e < 1).
    { split; [apply Rmult_le_pos; lra|].
      rewrite <- Hb, (Rmult_comm (bpow e)). apply Rmult_lt_compat_r; lra. }
    replace ((IZR (2 ^ k') * IZR q + IZR r) * bpow e)
      with (IZR q * (bpow e * IZR (2 ^ k')) + IZR r * bpow e) by ring.
    rewrite Hb. lra.
  - rewrite Z.shiftl_mul_pow2 by lia. rewrite mult_IZR, <- (bpow_IZR e) by lia. lra.
Qed.

Lemma u_small : 0 < u /\ u * 4503599627370496 = 1.
Proof.
  split; [apply bpow_pos|].
  unfold u. change 4503599627370496 with (IZR (2 ^ 52)).
  rewrite <- (bpow_IZR 52), <- bpow_add by lia. reflexivity.
Qed.

(** The scaled length along the axis that fixes the ratio stays within
    one pixel below the maximum [c]. *)
Lemma scaled_upper (c s t p : R) :
  0 < c <= 512 -> 0 < t <= s -> s <= c * (1 + u) -> p <= t * (1 + u) -> p < c + 1.
Proof.
  intros Hc Ht Hs Hp. destruct u_small as [Hu0 Hu].
  assert (Hu1 : u <= 1 / 4503599627370496) by lra.
  assert (H1 : t * (1 + u) <= s * (1 + u)) by (apply Rmult_le_compat_r; lra).
  assert (H2 : s * (1 + u) <= c * (1 + u) * (1 + u)) by (apply Rmult_le_compat_r; lra).
  assert (H3 : c * (1 + u) * (1 + u) < c + 1) by nra.
  lra.
Qed.

Lemma scaled_lower (c s p : R) :
  0 < c <= 512 -> c * (1 - u) <= s -> s * (1 - u) <= p -> c - 1 < p.
Proof.
  intros Hc Hs Hp. destruct u_small as [Hu0 Hu].
  assert (Hu1 : u <= 1 / 4503599627370496) by lra.
  assert (H2 : c * (1 - u) * (1 - u) <= s * (1 - u)) by (apply Rmult_le_compat_r; lra).
  assert (H3 : c - 1 < c * (1 - u) * (1 - u)) by nra.
  lra.
Qed.

(** [c / a] as the program computes it. *)
Lemma ratio_spec (c a : Z) :
  (0 < c < 2 ^ 53)%Z -> (0 < a < 2 ^ 53)%Z ->
  let r := Float64.div (Float64.of_int c) (Float64.of_int a) in
  Float64.int_truediv c a = Ok r
  /\ good 160 r
  /\ IZR c * (1 - u) <= F2R r * IZR a <= IZR c * (1 + u).
Proof.
  intros Hc Ha r.
  destruct (of_int_spec c Hc) as [Gc Vc]. destruct (of_int_spec a Ha) as [Ga Va].
  destruct (div_spec 53 53 _ _ Gc Ga ltac:(lia)) as [Gr Vr].
  fold (Float64.of_int c) in *. fold (Float64.of_int a) in *.
  split.
  - unfold Float64.int_truediv. destruct (Z.eqb_spec a 0); [lia|reflexivity].
  - split; [exact Gr|]. rewrite Vc, Va in Vr. exact Vr.
Qed.

(** [int(a * r)] as the program computes it. *)
Lemma scaled_spec (a : Z) (r : spec_float) :
  (0 < a < 2 ^ 53)%Z -> good 160 r ->
  exists n : Z,
    Float64.to_int (Float64.int_mul a r) = Ok n
    /\ (0 <= n)%Z
    /\ IZR a * F2R r * (1 - u) - 1 < IZR n <= IZR a * F2R r * (1 + u).
Proof.
  intros Ha Gr.
  destruct (of_int_spec a Ha) as [Ga Va].
  destruct (mul_spec 53 160 _ _ Ga Gr ltac:(lia)) as [Gp Vp].
  fold (Float64.of_int a) in *. rewrite Va in Vp.
  destruct (to_int_spec _ _ Gp) as (n & Hn & Vn).
  exists n. split; [exact Hn|].
  pose proof (good_pos _ _ Gp) as Hpos.
  split.
  - change (Float64.mul (Float64.of_int a) r) with (Float64.int_mul a r) in *.
    assert (-1 < n)%Z; [|lia]. apply lt_IZR. lra.
  - change (Float64.mul (Float64.of_int a) r) with (Float64.int_mul a r) in *. lra.
Qed.

(** Along the other axis: [n] is the truncation of [b * ratio], where
    [ratio * a] is [c] up to rounding. *)
Lemma aspect_upper (c a b ratio n : R) :
  0 < c <= 512 -> 0 < a -> 0 < b <= 2147483648 -> 0 < ratio ->
  ratio * a <= c * (1 + u) -> n <= b * ratio * (1 + u) ->
  n * a < c * b + 1.
Proof.
  intros Hc Ha Hb Hr Hs Hn. destruct u_small as [Hu0 Hu].
  assert (Hu1 : u <= 1 / 4503599627370496) by lra.
  assert (H1 : n * a <= b * ratio * (1 + u) * a) by (apply Rmult_le_compat_r; lra).
  assert (H2 : b * (ratio * a) <= b * (c * (1 + u))) by (apply Rmult_le_compat_l; lra).
  assert (H3 : b * (ratio * a) * (1 + u) <= b * (c * (1 + u)) * (1 + u))
    by (apply Rmult_le_compat_r; lra).
  assert (H4 : b * c * (2 * u + u * u) < 1).
  { assert (b * c <= 2147483648 * 512) by nra.
    assert (2 * u + u * u <= 3 * u) by nra.
    assert (0 <= b * c) by nra.
    assert (b * c * (2 * u + u * u) <= 2147483648 * 512 * (3 * u)) by nra.
    lra. }
  nra.
Qed.

Lemma aspect_lower (c a b ratio n : R) :
  0 < c <= 512 -> 0 < a -> 0 < b <= 2147483648 -> 0 < ratio ->
  c * (1 - u) <= ratio * a -> b * ratio * (1 - u) - 1 < n ->
  c * b - 1 < n * a + a.
Proof.
  intros Hc Ha Hb Hr Hs Hn. destruct u_small as [Hu0 Hu].
  assert (Hu1 : u <= 1 / 4503599627370496) by lra.
  assert (H1 : b * ratio * (1 - u) * a < (n + 1) * a) by (apply Rmult_lt_compat_r; lra).
  assert (H2 : b * (c * (1 - u)) <= b * (ratio * a)) by (apply Rmult_le_compat_l; lra).
  assert (H3 : b * (c * (1 - u)) * (1 - u) <= b * (ratio * a) * (1 - u))
    by (apply Rmult_le_compat_r; lra).
  assert (H4 : b * c * (2 * u) < 1).
  { assert (b * c <= 2147483648 * 512) by nra.
    assert (0 <= b * c) by nra.
    assert (b * c * (2 * u) <= 2147483648 * 512 * (2 * u)) by nra.
    lra. }
  assert (H5 : 0 <= b * c * (u * u)) by (apply Rmult_le_pos; nra).
  nra.
Qed.

(** The length along an axis never exceeds that axis's maximum [c], for
    any ratio that is at most [c / a]. *)
Lemma axis_bounded (c a : Z) (r : spec_float) :
  (0 < c <= 512)%Z -> (1 <= a < 2 ^ 31)%Z -> good 160 r ->
  F2R r <= F2R (Float64.div (Float64.of_int c) (Float64.of_int a)) ->
  exists n : Z,
    Float64.to_int (Float64.int_mul a r) = Ok n /\ (0 <= n <= c)%Z
    /\ IZR a * F2R r * (1 - u) - 1 < IZR n <= IZR a * F2R r * (1 + u).
Proof.
  intros Hc Ha Gr Hle.
  destruct (ratio_spec c a ltac:(lia) ltac:(lia)) as (_ & Gq & Vq).
  destruct (scaled_spec a r ltac:(lia) Gr) as (n & Hn & Hn0 & Vn).
  exists n. split; [exact Hn|]. split; [|exact Vn]. split; [exact Hn0|].
  pose proof (good_pos _ _ Gr) as Hr0.
  assert (Ha0 : 1 <= IZR a) by (apply IZR_le; lia).
  assert (Hc0 : 0 < IZR c <= 512) by (split; [apply IZR_lt|apply IZR_le]; lia).
  assert (Hlt : IZR n < IZR c + 1).
  { apply (scaled_upper (IZR c)
             (F2R (Float64.div (Float64.of_int c) (Float64.of_int a)) * IZR a)
             (IZR a * F2R r)); try lra;
      (split; [apply Rmult_lt_0_compat; lra
              |rewrite (Rmult_comm (IZR a)); apply Rmult_le_compat_r; lra]). }
  assert (n < c + 1)%Z; [|lia]. apply lt_IZR. now rewrite plus_IZR.
Qed.

(** With the ratio [c / a] itself, the length along [a] is [c] or
    [c - 1], and the length along the other axis is within one pixel
    below [c * b / a]. *)
Lemma axis_fixed (c a b na nb : Z) :
  (0 < c <= 512)%Z -> (1 <= a < 2 ^ 31)%Z -> (1 <= b < 2 ^ 31)%Z ->
  let r := Float64.div (Float64.of_int c) (Float64.of_int a) in
  Float64.to_int (Float64.int_mul a r) = Ok na ->
  Float64.to_int (Float64.int_mul b r) = Ok nb ->
  (c - 1 <= na /\ c * b - a <= nb * a <= c * b)%Z.
Proof.
  intros Hc Ha Hb r Hna Hnb.
  destruct (ratio_spec c a ltac:(lia) ltac:(lia)) as (_ & Gr & Vr). fold r in Gr, Vr.
  destruct (scaled_spec a r ltac:(lia) Gr) as (na' & Hna' & _ & Va).
  destruct (scaled_spec b r ltac:(lia) Gr) as (nb' & Hnb' & _ & Vb).
  rewrite Hna in Hna'. rewrite Hnb in Hnb'. inversion Hna'. inversion Hnb'. subst na' nb'.
  pose proof (good_pos _ _ Gr) as Hr0.
  assert (Ha0 : 1 <= IZR a) by (apply IZR_le; lia).
  assert (Hb0 : 1 <= IZR b <= 2147483648) by (split; apply IZR_le; lia).
  assert (Hc0 : 0 < IZR c <= 512) by (split; [apply IZR_lt|apply IZR_le]; lia).
  split; [|split].
  - assert (Hlo : IZR c - 1 < IZR na + 1).
    { apply (scaled_lower (IZR c) (F2R r * IZR a)); lra. }
    assert (c - 1 < na + 1)%Z; [|lia]. apply lt_IZR. rewrite minus_IZR, plus_IZR. exact Hlo.
  - assert (Hlo : IZR c * IZR b - 1 < IZR nb * IZR a + IZR a)
      by (apply (aspect_lower (IZR c) (IZR a) (IZR b) (F2R r)); lra).
    assert (c * b - 1 < nb * a + a)%Z; [|lia]. apply lt_IZR.
    rewrite minus_IZR, plus_IZR, !mult_IZR. exact Hlo.
  - assert (Hhi : IZR nb * IZR a < IZR c * IZR b + 1)
      by (apply (aspect_upper (IZR c) (IZR a) (IZR b) (F2R r)); lra).
    assert (nb * a < c * b + 1)%Z; [|lia]. apply lt_IZR.
    rewrite plus_IZR, !mult_IZR. exact Hhi.
Qed.

(** The size [optimize_image] asks [resize] for. *)
Lemma new_size_spec (width height : Z) :
  (1 <= width < 2 ^ 31)%Z -> (1 <= height < 2 ^ 31)%Z ->
  exists nw nh : Z,
    new_size width height = Ok (nw, nh)
    /\ (0 <= nw <= MAX_WIDTH)%Z /\ (0 <= nh <= MAX_HEIGHT)%Z
    /\ ((MAX_WIDTH - 1 <= nw
         /\ MAX_WIDTH * height - width <= nh * width <= MAX_WIDTH * height)
        \/ (MAX_HEIGHT - 1 <= nh
            /\ MAX_HEIGHT * width - height <= nw * height <= MAX_HEIGHT * width))%Z.
Proof.
  intros Hw Hh. unfold MAX_WIDTH, MAX_HEIGHT.
  destruct (ratio_spec 512 width ltac:(lia) ltac:(lia)) as (Ew & Gw & _).
  destruct (ratio_spec 342 height ltac:(lia) ltac:(lia)) as (Eh & Gh & _).
  unfold new_size, MAX_WIDTH, MAX_HEIGHT. rewrite Ew, Eh. cbn [rbind].
  set (rw := Float64.div (Float64.of_int 512) (Float64.of_int width)) in *.
  set (rh := Float64.div (Float64.of_int 342) (Float64.of_int height)) in *.
  destruct (min2_spec _ _ _ _ Gw Gh) as (Hcase & Hlw & Hlh).
  set (r := Float64.min2 rw rh) in *.
  assert (Gr : good 160 r) by (destruct Hcase as [-> | ->]; assumption).
  destruct (axis_bounded 512 width r ltac:(lia) Hw Gr Hlw) as (nw & Enw & Bw & _).
  destruct (axis_bounded 342 height r ltac:(lia) Hh Gr Hlh) as (nh & Enh & Bh & _).
  rewrite Enw, Enh. cbn [rbind].
  exists nw, nh. split; [reflexivity|]. split; [exact Bw|]. split; [exact Bh|].
  destruct Hcase as [Hc|Hc]; rewrite Hc in Enw, Enh.
  - left. exact (axis_fixed 512 width height nw nh ltac:(lia) Hw Hh Enw Enh).
  - right. exact (axis_fixed 342 height width nh nw ltac:(lia) Hh Hw Enh Enw).
Qed.

End FloatBounds.

(* ================================================================== *)
(** * The image transform *)
(* ================================================================== *)

(** C9, as the code has it. The image that is saved has mode "1". An
    image within both maxima keeps its size. An image that exceeds one
    is resized to [(int(w * r), int(h * r))] with the one ratio
    [r = min(512 / w, 342 / h)]: neither new dimension exceeds its
    maximum; along the axis that fixes the ratio (not always the larger
    one) the new dimension is the maximum or one pixel less; along the
    other axis it is within one pixel below the exactly scaled length.
    When a new dimension comes out as zero, [resize] raises and nothing
    is saved. *)
Theorem optimize_image_size (pil : Pil) (img : Image) (width height : Z) :
  img_size img = (width, height) ->
  1 <= width < 2 ^ 31 -> 1 <= height < 2 ^ 31 ->
  if (width >? MAX_WIDTH) || (height >? MAX_HEIGHT) then
    exists nw nh : Z,
      new_size width height = Ok (nw, nh)
      /\ 0 <= nw <= MAX_WIDTH /\ 0 <= nh <= MAX_HEIGHT
      /\ ((MAX_WIDTH - 1 <= nw
           /\ MAX_WIDTH * height - width <= nh * width <= MAX_WIDTH * height)
          \/ (MAX_HEIGHT - 1 <= nh
              /\ MAX_HEIGHT * width - height <= nw * height <= MAX_HEIGHT * width))
      /\ optimize_decoded pil img
         = if (nw <? 1) || (nh <? 1)
           then Raise (ValueError "height and width must be > 0")
           else Ok (Image_convert_1 pil
                      (mkImage (nw, nh) (img_mode img) (pil_lanczos pil img (nw, nh))))
  else
    optimize_decoded pil img = Ok (mkImage (width, height) "1" (pil_dither pil img)).
Proof.
  intros Hsize Hw Hh. unfold optimize_decoded. rewrite Hsize.
  destruct ((width >? MAX_WIDTH) || (height >? MAX_HEIGHT)) eqn:Hbig.
  - destruct (new_size_spec width height Hw Hh) as (nw & nh & Hn & Bw & Bh & Hax).
    exists nw, nh. rewrite Hn. cbn [rbind]. unfold Image_resize. cbn [fst snd].
    split; [reflexivity|]. split; [exact Bw|]. split; [exact Bh|]. split; [exact Hax|].
    destruct ((nw <? 1) || (nh <? 1)); reflexivity.
  - cbn [rbind]. unfold Image_convert_1. now rewrite Hsize.
Qed.

(** C9 as stated fails: a 500 x 400 image is scaled by 342 / 400, and
    its larger output dimension is 427, not the maximal width 512. *)
Lemma larger_dimension_below_maximum :
  let img := mkImage (500, 400) "RGB" "pixels" in
  new_size 500 400 = Ok (427, 342)
  /\ option_map img_size
       (match optimize_decoded Demo.demo_pil img with Ok out => Some out | Raise _ => None end)
     = Some (427, 342)
  /\ Z.max 427 342 = 427
  /\ ~ (MAX_WIDTH - 1 <= 427 <= MAX_WIDTH).
Proof.
  cbv zeta. split; [vm_compute; reflexivity|]. split; [vm_compute; reflexivity|].
  split; [reflexivity|]. unfold MAX_WIDTH. lia.
Qed.

(** C9 on a run: a 784 x 100 image, for which binary64 rounding makes the
    new width 511. *)
Lemma optimize_image_size_witness :
  let img := mkImage (784, 100) "RGB" "pixels" in
  img_size img = (784, 100)
  /\ 1 <= 784 < 2 ^ 31 /\ 1 <= 100 < 2 ^ 31
  /\ exists nw nh : Z,
       new_size 784 100 = Ok (nw, nh)
       /\ 0 <= nw <= MAX_WIDTH /\ 0 <= nh <= MAX_HEIGHT
       /\ ((MAX_WIDTH - 1 <= nw
            /\ MAX_WIDTH * 100 - 784 <= nh * 784 <= MAX_WIDTH * 100)
           \/ (MAX_HEIGHT - 1 <= nh
               /\ MAX_HEIGHT * 784 - 100 <= nw * 100 <= MAX_HEIGHT * 784))
       /\ optimize_decoded Demo.demo_pil img
          = if (nw <? 1) || (nh <? 1)
            then Raise (ValueError "height and width must be > 0")
            else Ok (Image_convert_1 Demo.demo_pil
                       (mkImage (nw, nh) (img_mode img)
                                (pil_lanczos Demo.demo_pil img (nw, nh)))).
Proof.
  cbv zeta. split; [reflexivity|]. split; [lia|]. split; [lia|].
  exact (optimize_image_size Demo.demo_pil (mkImage (784, 100) "RGB" "pixels") 784 100
           eq_refl ltac:(lia) ltac:(lia)).
Defined.

(* ================================================================== *)
(** * What the client receives *)
(* ================================================================== *)

(** The default fetcher answers a failed fetch with the marked page. *)
Lemma default_failure_is_marked {Ext} (lib : Lib Ext) (app_config : AppConfig)
      (request : Request) (w : World Ext) (r : Result Response) (w' : World Ext) :
  handle_default_request lib app_config request w = (r, w') ->
  match r with
  | Ok _ => True
  | Raise e => exists cause, e = HTTPException 500 (ERROR_HEADER ++ exn_str cause)
  end.
Proof.
  unfold handle_default_request, try_except.
  destruct (bind _ _ w) as [[resp|e] w1]; intros H; inversion H; subst; [exact I|].
  now exists e.
Qed.

(** C2 on a concrete run: the exception of a failing handler leaves
    [handle_request] as it was raised, on the host-match path and on the
    override path, so the client gets the stock page without the marker;
    the override slot is as before. The default path, for comparison,
    turns a failed fetch into the marked page. *)
Lemma failing_handler_is_not_contained :
  let lib := Demo.demo_lib Demo.always_ok in
  let exts := [Demo.ext_failing "hack" "example.com"] in
  let request := Demo.get "http://example.com/" in
  handle_request lib Demo.config exts request Demo.fresh
  = (Raise (OtherException "boom"), mkWorld None [] 0%nat [EvHandler "hack"])
  /\ handle_request lib Demo.config exts request (Demo.with_override "extensions.hack.hack")
     = (Raise (OtherException "boom"),
        mkWorld (Some "extensions.hack.hack") [] 0%nat [EvHandler "hack"])
  /\ carries_marker (flask_finalize (Raise (OtherException "boom"))) = false
  /\ fst (handle_request (Demo.make_lib Demo.always_ok false) Demo.config [] request Demo.fresh)
     = Raise (HTTPException 500 (ERROR_HEADER ++ "connection refused"))
  /\ carries_marker
       (flask_finalize (Raise (HTTPException 500 (ERROR_HEADER ++ "connection refused"))))
     = true.
Proof.
  cbv zeta. repeat split; vm_compute; reflexivity.
Qed.

(** The outbound headers: the three allowlisted ones copied from the
    inbound request, and the User-Agent constant of the module. *)
Lemma prepare_headers_allowlist (request : Request) :
  PyDict.keys (prepare_headers request) = ["Accept"; "Accept-Language"; "Referer"; "User-Agent"]
  /\ PyDict.get (prepare_headers request) "Accept" = Some (Wz.get (req_headers request) "Accept")
  /\ PyDict.get (prepare_headers request) "Accept-Language"
     = Some (Wz.get (req_headers request) "Accept-Language")
  /\ PyDict.get (prepare_headers request) "Referer"
     = Some (Wz.get (req_headers request) "Referer")
  /\ PyDict.get (prepare_headers request) "User-Agent" = Some (Some USER_AGENT).
Proof. repeat split. Qed.

(** C6 on a concrete run: started with [--user-agent Mozilla/5.0], the
    proxy still sends the User-Agent constant of the module; the
    configured value is stored in [app.config] and never read. *)
Lemma configured_user_agent_is_not_sent :
  let lib := Demo.demo_lib Demo.always_ok in
  let request := Demo.get "http://example.com/" in
  cfg_USER_AGENT Demo.config = "Mozilla/5.0"
  /\ trace (snd (handle_request lib Demo.config [] request Demo.fresh))
     = [EvUpstream "GET" "http://example.com/"
          [("Accept", Some "text/html"); ("Accept-Language", None); ("Referer", None);
           ("User-Agent", Some USER_AGENT)]]
  /\ USER_AGENT <> cfg_USER_AGENT Demo.config.
Proof.
  cbv zeta. split; [reflexivity|]. split; [reflexivity|]. discriminate.
Qed.

(* ================================================================== *)
(** * The cache as a store *)
(* ================================================================== *)

Lemma dict_get_set_same {V} (d : PyDict.t V) (k : string) (v : V) :
  PyDict.get (PyDict.set d k v) k = Some v.
Proof.
  induction d as [|[k' v'] d IH]; cbn.
  - now rewrite String.eqb_refl.
  - destruct (String.eqb k' k) eqn:E; cbn; rewrite E; auto.
Qed.

Lemma dict_get_set_other {V} (d : PyDict.t V) (k k' : string) (v : V) :
  k <> k' -> PyDict.get (PyDict.set d k v) k' = PyDict.get d k'.
Proof.
  intros Hk. induction d as [|[a x] d IH]; cbn.
  - apply String.eqb_neq in Hk. now rewrite Hk.
  - destruct (String.eqb a k) eqn:E; cbn.
    + apply String.eqb_eq in E. subst a.
      apply String.eqb_neq in Hk. now rewrite Hk.
    + destruct (String.eqb a k'); [reflexivity|exact IH].
Qed.

Lemma dict_mem_false {V} (d : PyDict.t V) (k : string) :
  PyDict.mem d k = false -> PyDict.get d k = None.
Proof. unfold PyDict.mem. now destruct (PyDict.get d k). Qed.

Lemma cache_grows_refl {Ext} (w : World Ext) : cache_grows w w.
Proof. intros f d H. exact H. Qed.

Lemma cache_grows_trans {Ext} (w1 w2 w3 : World Ext) :
  cache_grows w1 w2 -> cache_grows w2 w3 -> cache_grows w1 w3.
Proof. intros H1 H2 f d H. apply H2, H1, H. Qed.

Lemma cache_grows_same_dir {Ext} (w w' : World Ext) :
  cache_dir w' = cache_dir w -> cache_grows w w'.
Proof. intros E f d H. now rewrite E. Qed.

Section CacheStore.

Context {Ext : Type}.
Variable lib : Lib Ext.

(** One call of [fetch_and_cache_image], outcome by outcome: either it
    returns nothing and the cache is as before, or it returns the
    reference of the URL and the cache is as before with the entry
    already there, or it returns the reference after writing the
    optimized image under a key that was free. *)
Lemma fetch_outcomes (url : string) (w : World Ext) :
  exists (r : option string) (w' : World Ext),
    fetch_and_cache_image lib url w = (Ok r, w')
    /\ override_extension w' = override_extension w
    /\ ((r = None /\ cache_dir w' = cache_dir w)
        \/ (r = Some (cache_ref lib url)
            /\ PyDict.mem (cache_dir w) (cache_key lib url) = true
            /\ cache_dir w' = cache_dir w)
        \/ (r = Some (cache_ref lib url)
            /\ PyDict.mem (cache_dir w) (cache_key lib url) = false
            /\ exists response o1 content o2 optimized,
                 requests_get_stream lib url image_headers (outside w) = (Ok response, o1)
                 /\ stream_content lib response o1 = (Ok content, o2)
                 /\ optimize_image (pil lib) content = Ok optimized
                 /\ cache_dir w' = PyDict.set (cache_dir w) (cache_key lib url) optimized)).
Proof.
  unfold fetch_and_cache_image, try_except, bind, emit, call_out, lift, cache_exists,
    cache_write, ret; cbn.
  destruct (requests_get_stream lib url image_headers (outside w)) as [[response|e] o1] eqn:Hg;
    cbn; [|do 2 eexists; split; [reflexivity|]; split; [reflexivity|]; left; auto].
  destruct (raise_for_status (stream_status response)) as [[]|e]; cbn;
    [|do 2 eexists; split; [reflexivity|]; split; [reflexivity|]; left; auto].
  fold (cache_key lib url).
  destruct (PyDict.mem (cache_dir w) (cache_key lib url)) eqn:Hmem; cbn.
  - do 2 eexists. split; [reflexivity|]. split; [reflexivity|]. right; left. auto.
  - destruct (stream_content lib response o1) as [[content|e] o2] eqn:Hc; cbn;
      [|do 2 eexists; split; [reflexivity|]; split; [reflexivity|]; left; auto].
    destruct (optimize_image (pil lib) content) as [optimized|e] eqn:Ho; cbn;
      [|do 2 eexists; split; [reflexivity|]; split; [reflexivity|]; left; auto].
    do 2 eexists. split; [reflexivity|]. split; [reflexivity|]. right; right.
    split; [reflexivity|]. split; [reflexivity|].
    exists response, o1, content, o2, optimized. auto.
Qed.


(** A file of the cache is never overwritten by [fetch_and_cache_image],
    whatever URL is asked for. *)
Lemma fetch_cache_grows (url : string) : keeps cache_grows (fetch_and_cache_image lib url).
Proof.
  intros w r w' E.
  destruct (fetch_outcomes url w) as (r0 & w0 & E0 & _ & H).
  rewrite E in E0. inversion E0; subst.
  destruct H as [[_ Hd]|[(_ & _ & Hd)|(_ & Hm & _ & _ & _ & _ & opt & _ & _ & _ & Hd)]];
    try (now apply cache_grows_same_dir).
  intros f d Hf. rewrite Hd.
  destruct (String.eqb_spec (cache_key lib url) f) as [<-|Hne].
  - apply dict_mem_false in Hm. congruence.
  - now rewrite dict_get_set_other.
Qed.


End CacheStore.

(* ================================================================== *)
(** * What a whole request does to the cache *)
(* ================================================================== *)

Lemma keeps_ret {Ext A} (R : World Ext -> World Ext -> Prop) (a : A) :
  (forall w, R w w) -> keeps R (ret a).
Proof. intros Hr w r w' E. inversion E; subst. apply Hr. Qed.

Lemma keeps_bind {Ext A B} (R : World Ext -> World Ext -> Prop) (m : @M Ext A) (k : A -> @M Ext B) :
  (forall w1 w2 w3, R w1 w2 -> R w2 w3 -> R w1 w3) ->
  keeps R m -> (forall a, keeps R (k a)) -> keeps R (bind m k).
Proof.
  intros Ht Hm Hk w r w'. unfold bind.
  destruct (m w) as [[a|e] w1] eqn:E.
  - intros E2. eapply Ht; [eapply Hm; eassumption|eapply Hk; eassumption].
  - intros E2. inversion E2; subst. eapply Hm; eassumption.
Qed.

Lemma keeps_try_except {Ext A} (R : World Ext -> World Ext -> Prop) (m : @M Ext A)
      (h : Exn -> @M Ext A) :
  (forall w1 w2 w3, R w1 w2 -> R w2 w3 -> R w1 w3) ->
  keeps R m -> (forall e, keeps R (h e)) -> keeps R (try_except m h).
Proof.
  intros Ht Hm Hh w r w'. unfold try_except.
  destruct (m w) as [[a|e] w1] eqn:E.
  - intros E2. inversion E2; subst. eapply Hm; eassumption.
  - intros E2. eapply Ht; [eapply Hm; eassumption|eapply Hh; eassumption].
Qed.

Section Frame.

Context {Ext : Type}.
Variable lib : Lib Ext.
Variable app_config : AppConfig.
Variable ENABLED_EXTENSIONS : list (ExtModule Ext).

(** A relation between the world before and the world after that holds
    across every step that leaves the cache directory as it is, and
    across every call of [fetch_and_cache_image]. *)
Variable R : World Ext -> World Ext -> Prop.
Hypothesis R_trans : forall w1 w2 w3, R w1 w2 -> R w2 w3 -> R w1 w3.
Hypothesis R_frame : forall w w', cache_dir w' = cache_dir w -> R w w'.
Hypothesis R_fetch : forall url, keeps R (fetch_and_cache_image lib url).

Lemma R_refl (w : World Ext) : R w w.
Proof. now apply R_frame. Qed.

Lemma frame_emit (ev : Event) : keeps R (emit ev).
Proof. intros w r w' E. inversion E; subst. now apply R_frame. Qed.

Lemma frame_call_out {A} (f : Ext -> Result A * Ext) : keeps R (call_out f).
Proof.
  intros w r w'. unfold call_out. destruct (f (outside w)) as [r0 o].
  intros E. inversion E; subst. now apply R_frame.
Qed.

Lemma frame_set_override (o : option string) : keeps R (set_override o).
Proof. intros w r w' E. inversion E; subst. now apply R_frame. Qed.

Lemma frame_pure {A} (m : @M Ext A) :
  (forall w, snd (m w) = w) -> keeps R m.
Proof.
  intros H w r w' E. specialize (H w). rewrite E in H. cbn in H. subst. apply R_refl.
Qed.

Ltac frame :=
  repeat first
    [ apply keeps_ret; exact R_refl
    | apply frame_emit
    | apply frame_call_out
    | apply frame_set_override
    | apply R_fetch
    | apply frame_pure; reflexivity
    | apply keeps_bind; [exact R_trans| |intros ?]
    | apply keeps_try_except; [exact R_trans| |intros ?] ].

Lemma frame_replace_one (base_url : string) (soup : Soup lib) (img : nat) :
  keeps R (replace_one lib base_url soup img).
Proof.
  unfold replace_one.
  destruct (PyStr.truthy (soup_get_src lib soup img)); [|frame].
  destruct (soup_get_src lib soup img) as [src|]; [|frame].
  apply keeps_bind; [exact R_trans|apply frame_pure; reflexivity|]. intros full_url.
  apply keeps_bind; [exact R_trans|apply R_fetch|]. intros c.
  destruct (PyStr.truthy c); [|frame]. destruct c; frame.
Qed.

Lemma frame_replace_loop (base_url : string) (imgs : list nat) (soup : Soup lib) :
  keeps R (replace_loop lib base_url imgs soup).
Proof.
  revert soup. induction imgs as [|img imgs IH]; intros soup; cbn; [frame|].
  apply keeps_bind; [exact R_trans|apply frame_replace_one|]. intros s. apply IH.
Qed.

Lemma frame_replace_image_urls (content base_url : string) :
  keeps R (replace_image_urls lib content base_url).
Proof.
  unfold replace_image_urls.
  apply keeps_bind; [exact R_trans|apply frame_pure; reflexivity|]. intros soup.
  apply keeps_bind; [exact R_trans|apply frame_replace_loop|]. intros s. frame.
Qed.

Lemma frame_process (response : ResponseLike) (base_url : string) :
  keeps R (process_response_with_image_caching lib app_config response base_url).
Proof.
  assert (P : forall c s h, keeps R (process_parts lib app_config c s h base_url)).
  { intros c s h. unfold process_parts.
    apply keeps_bind; [exact R_trans| |intros ?; frame].
    destruct (branch_of h); [|frame|frame].
    apply keeps_bind; [exact R_trans|apply frame_replace_image_urls|]. intros ?. frame. }
  destruct response as [c s h|c s|[c|]|r|c]; cbn; try apply P; frame.
Qed.

Lemma frame_default (request : Request) :
  keeps R (handle_default_request lib app_config request).
Proof.
  unfold handle_default_request.
  apply keeps_try_except; [exact R_trans| |intros e; frame].
  apply keeps_bind; [exact R_trans| |intros resp; apply frame_process].
  unfold send_request. destruct (String.eqb (req_method request) "POST"); frame.
Qed.

Lemma frame_matching (request : Request) (m : ExtModule Ext) :
  keeps R (handle_matching_extension lib app_config request m).
Proof.
  unfold handle_matching_extension.
  apply keeps_bind; [exact R_trans|frame|]. intros _.
  apply keeps_bind; [exact R_trans|frame|]. intros response.
  apply keeps_bind; [exact R_trans| |intros _; apply frame_process].
  destruct (ext_get_override_status m) as [g|]; [|frame].
  apply keeps_bind; [exact R_trans|frame|]. intros _.
  apply keeps_bind; [exact R_trans|frame|]. intros status. destruct status; frame.
Qed.

Lemma frame_override (request : Request) (scheme : string) :
  keeps R (handle_override_extension lib app_config ENABLED_EXTENSIONS request scheme).
Proof.
  unfold handle_override_extension.
  apply keeps_bind; [exact R_trans|frame|]. intros ov.
  destruct (PyStr.truthy ov); [|frame]. destruct ov as [name|]; [|frame].
  destruct (PyDict.get _ _) as [module|]; [|frame].
  destruct (existsb _ _); [|frame].
  apply keeps_bind; [exact R_trans|frame|]. intros _.
  apply keeps_bind; [exact R_trans|frame|]. intros response.
  apply keeps_bind; [exact R_trans| |intros _].
  - unfold check_override_status. destruct (ext_get_override_status module) as [g|]; [|frame].
    apply keeps_bind; [exact R_trans|frame|]. intros _.
    apply keeps_bind; [exact R_trans|frame|]. intros status. destruct (negb status); frame.
  - apply keeps_bind; [exact R_trans|apply frame_process|]. intros r. frame.
Qed.

Lemma frame_handle_request (request : Request) :
  keeps R (handle_request lib app_config ENABLED_EXTENSIONS request).
Proof.
  unfold handle_request.
  apply keeps_bind; [exact R_trans|apply frame_override|]. intros [r|].
  - apply frame_process.
  - destruct (find_matching_extension _ _) as [m|]; [apply frame_matching|apply frame_default].
Qed.

Lemma frame_serve (requests : list Request) (w : World Ext) :
  R w (serve lib app_config ENABLED_EXTENSIONS requests w).
Proof.
  revert w. induction requests as [|request rest IH]; intros w; cbn; [apply R_refl|].
  eapply R_trans; [|apply IH].
  destruct (handle_request lib app_config ENABLED_EXTENSIONS request w) as [r w'] eqn:E.
  cbn. eapply frame_handle_request. exact E.
Qed.

End Frame.

(* ================================================================== *)
(** * The cache over the life of the process *)
(* ================================================================== *)

(** X3. No request removes a file of the cache or changes its contents:
    neither one request, whichever path it takes and however it ends,
    nor any sequence of requests. *)
Theorem cache_is_append_only {Ext} (lib : Lib Ext) (app_config : AppConfig)
        (ENABLED_EXTENSIONS : list (ExtModule Ext)) :
  (forall (request : Request) (w : World Ext),
      cache_grows w (snd (handle_request lib app_config ENABLED_EXTENSIONS request w)))
  /\ (forall (requests : list Request) (w : World Ext),
         cache_grows w (serve lib app_config ENABLED_EXTENSIONS requests w)).
Proof.
  assert (F : forall url, keeps cache_grows (fetch_and_cache_image lib url))
    by apply fetch_cache_grows.
  split.
  - intros request w.
    destruct (handle_request lib app_config ENABLED_EXTENSIONS request w) as [r w'] eqn:E.
    exact (frame_handle_request lib app_config ENABLED_EXTENSIONS cache_grows
             cache_grows_trans cache_grows_same_dir F request w r w' E).
  - intros requests w.
    exact (frame_serve lib app_config ENABLED_EXTENSIONS cache_grows
             cache_grows_trans cache_grows_same_dir F requests w).
Qed.

(** X4. The references written into pages are served: once
    [fetch_and_cache_image] has returned a reference, it is
    [/cached_image/] followed by the name of a file of the cache, and
    the static route answers that name with [send_file] of the file's
    contents as [image/gif], then and after any further requests. *)
Theorem cached_reference_stays_served {Ext} (flask : Flask) (lib : Lib Ext)
        (app_config : AppConfig) (ENABLED_EXTENSIONS : list (ExtModule Ext))
        (url ref : string) (w0 w : World Ext) :
  fetch_and_cache_image lib url w0 = (Ok (Some ref), w) ->
  exists data,
    ref = "/cached_image/" ++ cache_key lib url
    /\ PyDict.get (cache_dir w) (cache_key lib url) = Some data
    /\ forall (requests : list Request) (request : Request),
         let w' := serve lib app_config ENABLED_EXTENSIONS requests w in
         serve_cached_image flask request (cache_key lib url) w'
         = (Ok (send_file flask request data "image/gif"), w').
Proof.
  intros E. destruct (fetch_some_cached lib url w0 w ref E) as [-> Hm].
  unfold PyDict.mem in Hm.
  destruct (PyDict.get (cache_dir w) (cache_key lib url)) as [data|] eqn:G; [|discriminate].
  exists data. split; [reflexivity|]. split; [reflexivity|].
  intros requests request w'.
  assert (F : forall url, keeps cache_grows (fetch_and_cache_image lib url))
    by apply fetch_cache_grows.
  pose proof (frame_serve lib app_config ENABLED_EXTENSIONS cache_grows
                cache_grows_trans cache_grows_same_dir F requests w _ _ G) as G'.
  unfold serve_cached_image, send_from_directory. fold w' in G'. now rewrite G'.
Qed.

(** A name that is no file of the cache, as every name is right after
    [clear_image_cache], is answered with 404. *)
Lemma unknown_image_is_not_found {Ext} (flask : Flask) (request : Request)
      (filename : string) (w : World Ext) :
  PyDict.get (cache_dir w) filename = None ->
  serve_cached_image flask request filename w = (Raise (HTTPException 404 NOT_FOUND_DESCRIPTION), w).
Proof. intros H. unfold serve_cached_image, send_from_directory. now rewrite H. Qed.

(* ================================================================== *)
(** * What the cache holds *)
(* ================================================================== *)





(** For such an image one of the new dimensions comes out as zero. *)
Lemma sliver_new_size (width height : Z) :
  1 <= width < 2 ^ 31 -> 1 <= height < 2 ^ 31 ->
  MAX_WIDTH * height < width \/ MAX_HEIGHT * width < height ->
  exists nw nh, new_size width height = Ok (nw, nh) /\ ((nw <? 1) || (nh <? 1)) = true.
Proof.
  intros Hw Hh Hs.
  destruct (new_size_spec width height Hw Hh) as (nw & nh & Hn & Bw & Bh & Hax).
  exists nw, nh. split; [exact Hn|].
  apply orb_true_iff. unfold MAX_WIDTH, MAX_HEIGHT in *.
  destruct Hs as [Hs|Hs].
  - right. apply Z.ltb_lt.
    destruct Hax as [[_ [_ H]]|[H1 [H2 _]]].
    + destruct (Z.lt_ge_cases nh 1) as [|Hge]; [assumption|].
      assert (1 * width <= nh * width) by (apply Z.mul_le_mono_nonneg_r; lia). lia.
    + assert (nw * height <= 512 * height) by (apply Z.mul_le_mono_nonneg_r; lia). lia.
  - left. apply Z.ltb_lt.
    destruct Hax as [[H1 [H2 _]]|[_ [_ H]]].
    + assert (nh * width <= 342 * width) by (apply Z.mul_le_mono_nonneg_r; lia). lia.
    + destruct (Z.lt_ge_cases nw 1) as [|Hge]; [assumption|].
      assert (1 * height <= nw * height) by (apply Z.mul_le_mono_nonneg_r; lia). lia.
Qed.

(** X6. An image more than 512 times as wide as it is high, or more than 342
    times as high as it is wide, cannot be optimized: a new dimension
    comes out as zero and [resize] raises, so the fetch that read it
    returns nothing and writes nothing. *)
Theorem sliver_image_is_never_cached {Ext} (lib : Lib Ext) (url : string) (w : World Ext)
        (response : StreamResponse) (o1 o2 : Ext) (content : bytes) (img : Image) :
  requests_get_stream lib url image_headers (outside w) = (Ok response, o1) ->
  raise_for_status (stream_status response) = Ok tt ->
  PyDict.mem (cache_dir w) (cache_key lib url) = false ->
  stream_content lib response o1 = (Ok content, o2) ->
  pil_open (pil lib) content = Ok img ->
  1 <= fst (img_size img) < 2 ^ 31 -> 1 <= snd (img_size img) < 2 ^ 31 ->
  MAX_WIDTH * snd (img_size img) < fst (img_size img)
  \/ MAX_HEIGHT * fst (img_size img) < snd (img_size img) ->
  optimize_image (pil lib) content = Raise (ValueError "height and width must be > 0")
  /\ fetch_and_cache_image lib url w
     = (Ok None,
        mkWorld (override_extension w) (cache_dir w) o2
                (trace w ++ [EvImageGet url; EvImageBody url; EvOptimize url])).
Proof.
  intros Hg Hs Hm Hc Ho Hw Hh Hsl.
  assert (Hopt : optimize_image (pil lib) content
                 = Raise (ValueError "height and width must be > 0")).
  { unfold optimize_image. rewrite Ho. cbn [rbind]. unfold optimize_decoded.
    destruct (img_size img) as [width height]. cbn [fst snd] in *.
    assert (Big : (width >? MAX_WIDTH) || (height >? MAX_HEIGHT) = true).
    { apply orb_true_iff. unfold MAX_WIDTH, MAX_HEIGHT in *.
      destruct Hsl; [left|right]; apply Z.gtb_lt; lia. }
    rewrite Big.
    destruct (sliver_new_size width height Hw Hh Hsl) as (nw & nh & Hn & Hz).
    rewrite Hn. cbn [rbind]. unfold Image_resize. cbn [fst snd]. rewrite Hz. reflexivity. }
  split; [exact Hopt|].
  unfold fetch_and_cache_image, try_except, bind, emit, call_out, lift, cache_exists,
    cache_write, ret; cbn.
  rewrite Hg; cbn. rewrite Hs; cbn. fold (cache_key lib url). rewrite Hm; cbn.
  rewrite Hc; cbn. rewrite Hopt; cbn. rewrite <- !app_assoc. reflexivity.
Qed.

(* ================================================================== *)
(** * Pages whose images cannot be fetched *)
(* ================================================================== *)

Section Unreachable.

Context {Ext : Type}.
Variable lib : Lib Ext.
Hypothesis Hdown : images_unreachable lib.

Lemma unreachable_fetch (url : string) (w : World Ext) :
  exists o, fetch_and_cache_image lib url w
            = (Ok None, mkWorld (override_extension w) (cache_dir w) o
                                (trace w ++ [EvImageGet url])).
Proof.
  unfold fetch_and_cache_image, try_except, bind, emit, call_out, lift, ret; cbn.
  pose proof (Hdown url (outside w)) as H.
  destruct (requests_get_stream lib url image_headers (outside w)) as [[response|e] o1]; cbn;
    [|eexists; reflexivity].
  destruct H as [e He]. rewrite He. cbn. eexists; reflexivity.
Qed.

Lemma unreachable_loop (base_url : string) (imgs : list nat) (soup : Soup lib) (w : World Ext) :
  exists w',
    replace_loop lib base_url imgs soup w
    = (match snd (image_urls lib base_url soup imgs) with
       | None => Ok soup
       | Some e => Raise e
       end, w')
    /\ cache_dir w' = cache_dir w
    /\ override_extension w' = override_extension w
    /\ trace w'
       = (trace w ++ map EvImageGet (fst (image_urls lib base_url soup imgs)))%list.
Proof.
  rewrite replace_loop_spec.
  revert w. induction imgs as [|img imgs IH]; intros w; cbn [spec_rewrite_tags image_urls].
  - exists w. repeat split. cbn. now rewrite app_nil_r.
  - destruct (soup_get_src lib soup img) as [[|c src]|]; cbn [PyStr.truthy String.eqb negb];
      try apply IH.
    destruct (urljoin lib base_url (String c src)) as [url|e]; cbn [fst snd map].
    + destruct (unreachable_fetch url w) as (o & ->).
      destruct (IH (mkWorld (override_extension w) (cache_dir w) o
                            (trace w ++ [EvImageGet url])))
        as (w' & E & Hc & Ho & Ht).
      exists w'. split; [exact E|]. split; [exact Hc|]. split; [exact Ho|].
      rewrite Ht. cbn [trace]. rewrite <- app_assoc. reflexivity.
    + exists w. repeat split. now rewrite app_nil_r.
Qed.

End Unreachable.

(** X7. When no image can be fetched, [replace_image_urls] caches nothing
    and leaves the slot alone. It asks once for each image that has a
    [src], in document order, up to the first [src] that [urljoin]
    refuses, and returns the document as parsed and serialised again,
    with every [src] as it was; when the parser rejects the markup or
    [urljoin] refuses a [src], that exception is what it ends with. *)
Theorem unreachable_images_leave_page_unrewritten {Ext} (lib : Lib Ext)
        (content base_url : string) (w : World Ext) :
  images_unreachable lib ->
  match soup_parse lib content with
  | Raise e => replace_image_urls lib content base_url w = (Raise e, w)
  | Ok soup =>
      let urls := image_urls lib base_url soup (soup_find_all_img lib soup) in
      exists w',
        replace_image_urls lib content base_url w
        = (match snd urls with
           | None => Ok (soup_str lib soup)
           | Some e => Raise e
           end, w')
        /\ cache_dir w' = cache_dir w
        /\ override_extension w' = override_extension w
        /\ trace w' = (trace w ++ map EvImageGet (fst urls))%list
  end.
Proof.
  intros Hdown. unfold replace_image_urls, bind at 1, lift.
  destruct (soup_parse lib content) as [soup|e]; [|reflexivity].
  cbv zeta. unfold bind.
  destruct (unreachable_loop lib Hdown base_url (soup_find_all_img lib soup) soup w)
    as (w' & E & H).
  rewrite E. exists w'. split; [|exact H].
  now destruct (snd (image_urls lib base_url soup (soup_find_all_img lib soup))).
Qed.

(* ================================================================== *)
(** * Failures of the normalizer *)
(* ================================================================== *)

Lemma spec_rewrite_tags_raises {Ext} (lib : Lib Ext) (base_url : string) (imgs : list nat)
      (soup : Soup lib) (w w' : World Ext) (e : Exn) :
  spec_rewrite_tags lib base_url imgs soup w = (Raise e, w') ->
  exists doc tag src,
    soup_get_src lib doc tag = Some src /\ src <> ""
    /\ urljoin lib base_url src = Raise e.
Proof.
  revert soup w. induction imgs as [|img imgs IH]; intros soup w; cbn [spec_rewrite_tags];
    [discriminate|].
  destruct (soup_get_src lib soup img) as [[|c src]|] eqn:G; try apply IH.
  destruct (urljoin lib base_url (String c src)) as [url|e0] eqn:J.
  - destruct (fetch_and_cache_image lib url w) as [[[reference|]|e1] w1]; apply IH.
  - intros E. inversion E; subst. exists soup, img, (String c src).
    split; [exact G|]. split; [discriminate|exact J].
Qed.

(** X8. What makes the normalizer raise: the tuple without elements
    ([IndexError], nothing done); for an HTML body the parser rejecting
    the markup (nothing done) or [urljoin] refusing the non-empty [src]
    of an [img] tag; and a header value with a newline in it. Nothing
    else does: in particular no image that cannot be fetched, decoded or
    optimized makes the normalizer fail. *)
Theorem normalizer_failure_causes {Ext} (lib : Lib Ext) (app_config : AppConfig)
        (response : ResponseLike) (base_url : string) (w w' : World Ext) (e : Exn) :
  process_response_with_image_caching lib app_config response base_url w = (Raise e, w') ->
  (response = TupleN None /\ e = IndexError /\ w' = w)
  \/ exists content status_code headers,
       decompose response = Some (content, status_code, headers)
       /\ ((branch_of headers = BranchHtml
            /\ soup_parse lib (spec_decode lib content) = Raise e /\ w' = w)
           \/ (branch_of headers = BranchHtml
               /\ exists doc tag src,
                    soup_get_src lib doc tag = Some src /\ src <> ""
                    /\ urljoin lib base_url src = Raise e)
           \/ (assignable headers = false
               /\ e = ValueError "Header values must not contain newline characters.")).
Proof.
  destruct (decompose response) as [[[c s] h]|] eqn:D.
  - rewrite (process_spec lib app_config response base_url w D).
    intros E. right. exists c, s, h. split; [reflexivity|].
    unfold spec_normalize, spec_body in E. unfold branch_of, content_type_of.
    assert (Hassemble : forall body,
               spec_assemble body s h = Raise e ->
               assignable h = false
               /\ e = ValueError "Header values must not contain newline characters.").
    { intros body. unfold spec_assemble. destruct (assignable h); [discriminate|].
      intros X. inversion X. auto. }
    destruct (PyStr.startswith "text/html" (PyStr.lower (PyDict.get_default h "Content-Type" ""))).
    + unfold spec_rewrite_images in E.
      destruct (soup_parse lib (spec_decode lib c)) as [soup|e0] eqn:P.
      * destruct (spec_rewrite_tags lib base_url (soup_find_all_img lib soup) soup w)
          as [[doc|e1] w1] eqn:L.
        -- inversion E as [[Ha Hw]]. right; right. eapply Hassemble; eassumption.
        -- inversion E; subst. right; left. split; [reflexivity|].
           eapply spec_rewrite_tags_raises; eassumption.
      * inversion E; subst. left. auto.
    + destruct (PyStr.startswith "text/" (PyStr.lower (PyDict.get_default h "Content-Type" "")));
        inversion E as [[Ha Hw]]; right; right; eapply Hassemble; eassumption.
  - destruct response as [? ? ?|? ?|[?|]|?|?]; try discriminate; cbn.
    intros E. inversion E. auto.
Qed.

(* ================================================================== *)
(** * The registry of extensions by name *)
(* ================================================================== *)

Lemma find_snoc {A} (f : A -> bool) (l : list A) (a : A) :
  find f (l ++ [a]) = match find f l with
                      | Some x => Some x
                      | None => if f a then Some a else None
                      end.
Proof.
  induction l as [|b l IH]; cbn; [reflexivity|]. destruct (f b); [reflexivity|exact IH].
Qed.

Lemma register_names_get {Ext} (l : list (ExtModule Ext)) (d0 : PyDict.t (ExtModule Ext))
      (n : string) :
  PyDict.get (register_names l d0) n
  = match last_with_name n l with
    | Some m => Some m
    | None => PyDict.get d0 n
    end.
Proof.
  revert d0. induction l as [|m l IH]; intros d0; [reflexivity|].
  unfold register_names in *. cbn [fold_left]. rewrite IH.
  unfold last_with_name. cbn [rev]. rewrite find_snoc.
  destruct (find _ (rev l)) as [x|]; [reflexivity|].
  destruct (String.eqb_spec (ext_name m) n) as [<-|Hne].
  - apply dict_get_set_same.
  - now apply dict_get_set_other.
Qed.

Lemma extensions_get {Ext} (exts : list (ExtModule Ext)) (n : string) :
  PyDict.get (extensions exts) n = last_with_name n exts.
Proof.
  rewrite extensions_eq, register_names_get. now destruct (last_with_name n exts).
Qed.

(** X9. The loading loop: under a name the registry holds an enabled
    extension of that name, the one enabled last; every enabled
    extension's name is registered; and the extension found for a host
    is an enabled one whose domain ends the host. *)
Theorem registry_holds_enabled_extensions {Ext} (exts : list (ExtModule Ext)) :
  (forall n m, PyDict.get (extensions exts) n = Some m ->
               In m exts /\ ext_name m = n /\ last_with_name n exts = Some m)
  /\ (forall m, In m exts ->
                exists m', PyDict.get (extensions exts) (ext_name m) = Some m'
                           /\ ext_name m' = ext_name m)
  /\ (forall host m, find_matching_extension exts host = Some m ->
                     In m exts /\ PyStr.endswith host (DOMAIN m) = true).
Proof.
  split; [|split].
  - intros n m H. rewrite extensions_get in H. pose proof H as H0.
    unfold last_with_name in H. apply find_some in H. destruct H as [Hin Hn].
    apply String.eqb_eq in Hn. split; [now apply in_rev|]. split; assumption.
  - intros m Hin. rewrite extensions_get. unfold last_with_name.
    destruct (find _ (rev exts)) as [m'|] eqn:E.
    + exists m'. split; [reflexivity|]. apply find_some in E. now apply String.eqb_eq.
    + apply in_rev in Hin. pose proof (find_none _ _ E m Hin) as Hf. cbn in Hf.
      now rewrite String.eqb_refl in Hf.
  - apply matching_extension_enabled.
Qed.

(* ================================================================== *)
(** * Module names and the override slot *)
(* ================================================================== *)

Lemma split_last_aux_app (sep : ascii) (a b acc : string) :
  PyStr.split_last_aux sep (a ++ b) acc
  = PyStr.split_last_aux sep b (PyStr.split_last_aux sep a acc).
Proof.
  revert acc. induction a as [|c a IH]; intros acc; cbn; [reflexivity|].
  destruct (Ascii.eqb c sep); apply IH.
Qed.

Lemma str_app_assoc (a b c : string) : ((a ++ b) ++ c)%string = (a ++ b ++ c)%string.
Proof. induction a as [|x a IH]; cbn; [reflexivity|now rewrite IH]. Qed.

Lemma str_app_nil_r (a : string) : (a ++ "")%string = a.
Proof. induction a as [|x a IH]; cbn; [reflexivity|now rewrite IH]. Qed.

Lemma split_last_aux_plain (sep : ascii) (n acc : string) :
  ~ In sep (list_ascii_of_string n) ->
  PyStr.split_last_aux sep n acc = (acc ++ n)%string.
Proof.
  revert acc. induction n as [|c n IH]; intros acc Hp; cbn.
  - now rewrite str_app_nil_r.
  - destruct (Ascii.eqb_spec c sep) as [->|Hne].
    + exfalso. apply Hp. now left.
    + rewrite IH.
      * now rewrite str_app_assoc.
      * intros Hin. apply Hp. now right.
Qed.

Lemma split_last_qualified (p n : string) :
  plain_name n -> PyStr.split_last "."%char (p ++ "." ++ n) = n.
Proof.
  intros Hp. unfold PyStr.split_last. rewrite split_last_aux_app.
  cbn [append PyStr.split_last_aux]. rewrite Ascii.eqb_refl.
  now rewrite split_last_aux_plain.
Qed.

Lemma module_name_split {Ext} (m : ExtModule Ext) :
  plain_name (ext_name m) -> PyStr.split_last "."%char (module_name m) = ext_name m.
Proof.
  intros Hp. unfold module_name.
  rewrite <- (str_app_assoc "extensions." (ext_name m) ("." ++ ext_name m)).
  now apply split_last_qualified.
Qed.

(* ================================================================== *)
(** * Every path through the dispatcher *)
(* ================================================================== *)

Section Paths.

Context {Ext : Type}.
Variable lib : Lib Ext.
Variable app_config : AppConfig.
Variable ENABLED_EXTENSIONS : list (ExtModule Ext).

Local Abbreviation registry := (extensions ENABLED_EXTENSIONS).
Local Abbreviation handle := (handle_request lib app_config ENABLED_EXTENSIONS).
Local Abbreviation quiet := (Forall (fun ev => dispatch_event ev = false)).

Lemma supported_dec (request : Request) : {supported lib request} + {~ supported lib request}.
Proof. apply in_dec, string_dec. Qed.

Lemma unsupported_existsb [request : Request] :
  ~ supported lib request ->
  existsb (String.eqb (scheme (urlparse lib (req_url request)))) ["http"; "https"; "ftp"] = false.
Proof.
  intros H. destruct (existsb _ _) eqn:E; [|reflexivity].
  apply existsb_exists in E. destruct E as (x & Hin & Hx).
  apply String.eqb_eq in Hx. subst x. contradiction.
Qed.

Lemma override_unsupported [request : Request] [name : string] [module : ExtModule Ext]
      [w : World Ext] :
  override_extension w = Some name -> name <> "" ->
  PyDict.get registry (PyStr.split_last "."%char name) = Some module ->
  ~ supported lib request ->
  handle_override_extension lib app_config ENABLED_EXTENSIONS request
    (scheme (urlparse lib (req_url request))) w = (Ok None, w).
Proof.
  intros Ho Hn Hg Hs. unfold handle_override_extension, bind, get_override.
  rewrite Ho, (truthy_some Hn), Hg, (unsupported_existsb Hs). reflexivity.
Qed.

Lemma handle_after_no_override [request : Request] [w w1 : World Ext] :
  handle_override_extension lib app_config ENABLED_EXTENSIONS request
    (scheme (urlparse lib (req_url request))) w = (Ok None, w1) ->
  handle request w = by_host lib app_config ENABLED_EXTENSIONS request w1.
Proof.
  intros H. unfold handle_request, by_host, request_host, bind. rewrite H.
  now destruct (find_matching_extension ENABLED_EXTENSIONS _).
Qed.

(** The four ways through [handle_request], by the state of the slot. *)
Lemma handle_request_cases (request : Request) (w : World Ext) :
  (exists name module,
      override_extension w = Some name /\ name <> ""
      /\ PyDict.get registry (PyStr.split_last "."%char name) = Some module
      /\ supported lib request
      /\ handle request w
         = override_path lib app_config request (PyStr.split_last "."%char name) module w)
  \/ (handle request w = by_host lib app_config ENABLED_EXTENSIONS request w)
  \/ (exists name,
         override_extension w = Some name /\ name <> ""
         /\ PyDict.get registry (PyStr.split_last "."%char name) = None
         /\ handle request w = by_host lib app_config ENABLED_EXTENSIONS request (cleared w)).
Proof.
  destruct (PyStr.truthy (override_extension w)) eqn:T.
  - destruct (override_extension w) as [name|] eqn:Ho; [|discriminate].
    assert (Hn : name <> "").
    { intros ->. discriminate. }
    destruct (PyDict.get registry (PyStr.split_last "."%char name)) as [module|] eqn:Hg.
    + destruct (supported_dec request) as [Hs|Hs].
      * left. exists name, module. split; [reflexivity|]. repeat (split; [assumption|]).
        now apply handle_request_override.
      * right; left. apply handle_after_no_override.
        eapply override_unsupported; eassumption.
    + right; right. exists name. split; [reflexivity|]. repeat (split; [assumption|]).
      apply handle_after_no_override. eapply override_stale; eassumption.
  - right; left. apply handle_after_no_override. now apply override_inactive.
Qed.

Lemma by_host_post (request : Request) (w : World Ext) :
  exists r w' ev rest,
    by_host lib app_config ENABLED_EXTENSIONS request w = (r, w')
    /\ dispatch_event ev = true
    /\ trace w' = (trace w ++ ev :: rest)%list
    /\ quiet rest
    /\ (override_extension w' = override_extension w
        \/ exists m, In m ENABLED_EXTENSIONS /\ override_extension w' = Some (module_name m)).
Proof.
  unfold by_host.
  destruct (find_matching_extension ENABLED_EXTENSIONS (request_host lib request))
    as [m|] eqn:F.
  - destruct (matching_path_post lib app_config request m w) as (r & w' & rest & E & T & Q & O).
    exists r, w', (EvHandler (ext_name m)), rest.
    split; [exact E|]. split; [reflexivity|]. split; [exact T|]. split; [exact Q|].
    destruct O as [O|O]; [now left|right].
    exists m. split; [|exact O]. now apply matching_extension_enabled in F.
  - destruct (default_path_post lib app_config request w) as (r & w' & ev & rest & E & D & T & Q & O).
    exists r, w', ev, rest. repeat (split; [assumption|]). now left.
Qed.

Lemma handle_request_post (request : Request) (w : World Ext) :
  exists r w' ev rest,
    handle request w = (r, w')
    /\ dispatch_event ev = true
    /\ trace w' = (trace w ++ ev :: rest)%list
    /\ quiet rest
    /\ (override_extension w' = None
        \/ override_extension w' = override_extension w
        \/ exists m, In m ENABLED_EXTENSIONS /\ override_extension w' = Some (module_name m)).
Proof.
  destruct (handle_request_cases request w)
    as [(name & module & Ho & Hn & Hg & Hs & ->)|[->|(name & Ho & Hn & Hg & ->)]].
  - destruct (override_path_post lib app_config request
                (PyStr.split_last "."%char name) module w) as (r & w' & rest & E & T & Q & O).
    exists r, w', (EvHandler (ext_name module)), rest.
    split; [exact E|]. split; [reflexivity|]. split; [exact T|]. split; [exact Q|].
    rewrite O. destruct (released _ _ _); auto.
  - destruct (by_host_post request w) as (r & w' & ev & rest & E & D & T & Q & O).
    exists r, w', ev, rest. repeat (split; [assumption|]). destruct O; auto.
  - destruct (by_host_post request (cleared w)) as (r & w' & ev & rest & E & D & T & Q & O).
    exists r, w', ev, rest. repeat (split; [assumption|]). destruct O; auto.
Qed.


(** X11. A request whose scheme is none of http, https and ftp is not given
    to the override extension, registered though it is: it is handled
    by host match or by the default fetcher, from the same world, slot
    included. *)
Theorem unsupported_scheme_bypasses_override (request : Request) (name : string)
        (module : ExtModule Ext) (w : World Ext) :
  override_extension w = Some name -> name <> "" ->
  PyDict.get registry (PyStr.split_last "."%char name) = Some module ->
  ~ supported lib request ->
  handle_override_extension lib app_config ENABLED_EXTENSIONS request
    (scheme (urlparse lib (req_url request))) w = (Ok None, w)
  /\ handle request w
     = match find_matching_extension ENABLED_EXTENSIONS (request_host lib request) with
       | Some m => handle_matching_extension lib app_config request m w
       | None => handle_default_request lib app_config request w
       end.
Proof.
  intros Ho Hn Hg Hs.
  pose proof (override_unsupported Ho Hn Hg Hs) as H. split; [exact H|].
  rewrite (handle_after_no_override H). unfold by_host.
  now destruct (find_matching_extension ENABLED_EXTENSIONS _).
Qed.

Lemma enabled_name_registered (m : ExtModule Ext) :
  In m ENABLED_EXTENSIONS ->
  exists m', PyDict.get registry (ext_name m) = Some m' /\ ext_name m' = ext_name m.
Proof.
  intros Hin. rewrite extensions_get. unfold last_with_name.
  destruct (find _ (rev ENABLED_EXTENSIONS)) as [m'|] eqn:E.
  - exists m'. split; [reflexivity|]. apply find_some in E. now apply String.eqb_eq.
  - apply in_rev in Hin. pose proof (find_none _ _ E m Hin) as Hf. cbn in Hf.
    now rewrite String.eqb_refl in Hf.
Qed.

Lemma module_name_registered (m : ExtModule Ext) :
  plain_name (ext_name m) -> In m ENABLED_EXTENSIONS ->
  module_name m <> ""
  /\ exists m', PyDict.get registry (PyStr.split_last "."%char (module_name m)) = Some m'
                /\ ext_name m' = ext_name m.
Proof.
  intros Hp Hin. split; [discriminate|].
  rewrite (module_name_split m Hp). now apply enabled_name_registered.
Qed.

Lemma handle_keeps_registered (request : Request) (w : World Ext) :
  Forall (fun m => plain_name (ext_name m)) ENABLED_EXTENSIONS ->
  override_registered ENABLED_EXTENSIONS w ->
  override_registered ENABLED_EXTENSIONS (snd (handle request w)).
Proof.
  intros Hp Hr.
  destruct (handle_request_post request w) as (r & w' & ev & rest & E & _ & _ & _ & O).
  rewrite E. cbn [snd]. unfold override_registered in *.
  destruct O as [O|[O|(m & Hin & O)]]; rewrite O; [exact I|exact Hr|].
  rewrite Forall_forall in Hp.
  destruct (module_name_registered m (Hp m Hin) Hin) as (Hne & m' & Hg & _).
  split; [exact Hne|]. now exists m'.
Qed.

(** X12. With extension names that have no dot, the override slot, empty at
    start-up, is at every later moment empty or names a registered
    extension: the branch of [handle_override_extension] that resets an
    unknown override is never taken. *)
Theorem override_slot_names_registered_extension (requests : list Request) (w : World Ext) :
  Forall (fun m => plain_name (ext_name m)) ENABLED_EXTENSIONS ->
  override_extension w = None ->
  override_registered ENABLED_EXTENSIONS (serve lib app_config ENABLED_EXTENSIONS requests w)
  /\ forall request name,
       override_extension (serve lib app_config ENABLED_EXTENSIONS requests w) = Some name ->
       exists module,
         PyDict.get registry (PyStr.split_last "."%char name) = Some module
         /\ (supported lib request ->
             handle request (serve lib app_config ENABLED_EXTENSIONS requests w)
             = override_path lib app_config request (PyStr.split_last "."%char name) module
                 (serve lib app_config ENABLED_EXTENSIONS requests w)).
Proof.
  intros Hp H0.
  assert (Inv : forall rs w1, override_registered ENABLED_EXTENSIONS w1 ->
                  override_registered ENABLED_EXTENSIONS
                    (serve lib app_config ENABLED_EXTENSIONS rs w1)).
  { induction rs as [|rq rs IH]; intros w1 H1; cbn [serve]; [exact H1|].
    apply IH. now apply handle_keeps_registered. }
  assert (R0 : override_registered ENABLED_EXTENSIONS w)
    by (unfold override_registered; now rewrite H0).
  specialize (Inv requests w R0). split; [exact Inv|].
  intros request name Hn. unfold override_registered in Inv. rewrite Hn in Inv.
  destruct Inv as (Hne & module & Hg). exists module. split; [exact Hg|].
  intros Hs. now apply handle_request_override.
Qed.

(** X13. Capture: when the extension matched by host reports override status
    true after its handler has returned, the slot holds its module name
    at the end of the request, whatever the normalizer then does, and
    the next request with a supported scheme goes to the handler of the
    extension of that name, whatever its host. *)
Theorem host_match_capture_takes_next_request (request : Request) (w : World Ext)
        (m : ExtModule Ext) (response : ResponseLike) (o1 o2 : Ext)
        (status : Ext -> Result bool * Ext) :
  PyStr.truthy (override_extension w) = false ->
  find_matching_extension ENABLED_EXTENSIONS (request_host lib request) = Some m ->
  plain_name (ext_name m) ->
  ext_handle_request m request (outside w) = (Ok response, o1) ->
  ext_get_override_status m = Some status ->
  status o1 = (Ok true, o2) ->
  exists r w',
    handle request w = (r, w')
    /\ override_extension w' = Some (module_name m)
    /\ forall request2, supported lib request2 ->
         exists r2 w2 rest,
           handle request2 w' = (r2, w2)
           /\ trace w2 = (trace w' ++ EvHandler (ext_name m) :: rest)%list
           /\ quiet rest.
Proof.
  intros Ht Hf Hp Hh Hs Hst.
  rewrite (handle_request_no_override lib app_config ENABLED_EXTENSIONS request Ht), Hf.
  unfold handle_matching_extension, bind, emit, call_out, set_override, ret; cbn.
  rewrite Hh; cbn. rewrite Hs; cbn. rewrite Hst; cbn.
  match goal with
  | |- context [process_response_with_image_caching lib app_config ?resp ?u ?w0] =>
      destruct (process_response_with_image_caching lib app_config resp u w0)
        as [r w'] eqn:Hproc
  end.
  apply process_response_image_step in Hproc. destruct Hproc as [Hov _]. cbn in Hov.
  exists r, w'. split; [reflexivity|]. split; [exact Hov|].
  intros request2 Hs2.
  destruct (matching_extension_enabled _ _ _ Hf) as [Hin _].
  destruct (module_name_registered m Hp Hin) as (Hne & m' & Hg & Hname).
  rewrite (handle_request_override lib app_config ENABLED_EXTENSIONS Hov Hne Hg Hs2).
  destruct (override_path_post lib app_config request2
              (PyStr.split_last "."%char (module_name m)) m' w')
    as (r2 & w2 & rest & E & T & Q & _).
  exists r2, w2, rest. split; [exact E|]. split; [|exact Q]. now rewrite T, Hname.
Qed.

End Paths.

(* ================================================================== *)
(** * The default fetcher *)
(* ================================================================== *)

Section DefaultFetcher.

Context {Ext : Type}.
Variable lib : Lib Ext.
Variable app_config : AppConfig.

Lemma send_request_eq (request : Request) (url : string) (headers : PyDict.t (option string)) :
  send_request lib request url headers
  = (emit (EvUpstream (outbound_method request) url headers) ;;;
     call_out (session_send lib (outbound_method request) url (outbound_payload request) headers)).
Proof.
  unfold send_request, outbound_method, outbound_payload.
  now destruct (String.eqb (req_method request) "POST").
Qed.

Lemma default_run (request : Request) (w : World Ext) :
  handle_default_request lib app_config request w
  = match session_send lib (outbound_method request) (outbound_url request)
                       (outbound_payload request) (prepare_headers request) (outside w) with
    | (Ok resp, o) =>
        match process_response_with_image_caching lib app_config
                (Tuple3 (Bytes (http_content resp)) (http_status resp) (http_headers resp))
                (outbound_url request) (after_upstream request w o) with
        | (Ok r, w') => (Ok r, w')
        | (Raise e, w') => (Raise (HTTPException 500 (ERROR_HEADER ++ exn_str e)), w')
        end
    | (Raise e, o) =>
        (Raise (HTTPException 500 (ERROR_HEADER ++ exn_str e)), after_upstream request w o)
    end.
Proof.
  unfold handle_default_request, try_except, bind at 1. rewrite send_request_eq.
  fold (outbound_url request).
  unfold bind at 1, emit, call_out, after_upstream; cbn [outside override_extension cache_dir trace].
  destruct (session_send lib _ _ _ _ (outside w)) as [[resp|e] o]; reflexivity.
Qed.

(** X14. The default fetcher hands whatever the upstream server answers,
    error statuses included, to the normalizer: there is no status check
    on this path. The one upstream request is a POST with the form when
    the inbound method is POST and a GET with the query arguments for
    every other method. When the normalizer returns a response, that is
    the result, and it has the upstream status; it does return one
    whenever the upstream content is not HTML and no upstream header
    value has a newline in it. When the normalizer raises, the result is
    [abort(500, ERROR_HEADER + str(e))]. *)
Theorem default_fetch_relays_upstream_status (request : Request) (w : World Ext)
        (resp : HttpResponse) (o : Ext) :
  session_send lib (outbound_method request) (outbound_url request) (outbound_payload request)
               (prepare_headers request) (outside w) = (Ok resp, o) ->
  let normalized :=
    process_response_with_image_caching lib app_config
      (Tuple3 (Bytes (http_content resp)) (http_status resp) (http_headers resp))
      (outbound_url request) (after_upstream request w o) in
  (forall r w', normalized = (Ok r, w') ->
                handle_default_request lib app_config request w = (Ok r, w')
                /\ resp_status r = http_status resp)
  /\ (forall e w', normalized = (Raise e, w') ->
                   handle_default_request lib app_config request w
                   = (Raise (HTTPException 500 (ERROR_HEADER ++ exn_str e)), w'))
  /\ (assignable (http_headers resp) = true ->
      branch_of (http_headers resp) <> BranchHtml ->
      exists r,
        handle_default_request lib app_config request w = (Ok r, after_upstream request w o)
        /\ resp_status r = http_status resp).
Proof.
  intros H normalized. rewrite default_run, H. fold normalized.
  assert (Hstatus : forall r w', normalized = (Ok r, w') -> resp_status r = http_status resp).
  { intros r w' E. unfold normalized in E.
    rewrite (process_spec lib app_config
               (Tuple3 (Bytes (http_content resp)) (http_status resp) (http_headers resp))
               (outbound_url request) (after_upstream request w o) eq_refl) in E.
    unfold spec_normalize in E.
    destruct (spec_body lib app_config _ _ _ _) as [[body|e] w1]; [|discriminate].
    inversion E as [[Ha Hw]]. now apply spec_assemble_ok in Ha. }
  split; [|split].
  - intros r w' E. rewrite E. split; [reflexivity|eapply Hstatus; eassumption].
  - intros e w' E. now rewrite E.
  - intros Ha Hb.
    assert (E : exists r, normalized = (Ok r, after_upstream request w o)).
    { unfold normalized. rewrite (process_spec lib app_config
               (Tuple3 (Bytes (http_content resp)) (http_status resp) (http_headers resp))
               (outbound_url request) (after_upstream request w o) eq_refl).
      unfold spec_normalize, spec_body, spec_assemble. rewrite Ha.
      unfold branch_of, content_type_of in Hb.
      destruct (PyStr.startswith "text/html" _); [contradiction|].
      destruct (PyStr.startswith "text/" _); eexists; reflexivity. }
    destruct E as [r E]. exists r. rewrite E. split; [reflexivity|eapply Hstatus; eassumption].
Qed.

Lemma prefix_app (a s : string) : String.prefix a (a ++ s) = true.
Proof.
  induction a as [|c a IH]; cbn; [now destruct s|].
  destruct (ascii_dec c c); [exact IH|contradiction].
Qed.

Lemma contains_app (a s : string) : contains a (a ++ s) = true.
Proof.
  destruct a as [|c a]; [now destruct s|].
  cbn [append contains]. change (String c (a ++ s)) with (String c a ++ s)%string.
  now rewrite prefix_app.
Qed.

Lemma contains_skip (a p s : string) : contains a s = true -> contains a (p ++ s) = true.
Proof.
  intros H. induction p as [|c p IH]; [exact H|].
  cbn [append contains]. rewrite IH. apply orb_true_r.
Qed.

Lemma html_escape_app (a b : string) :
  html_escape (a ++ b) = (html_escape a ++ html_escape b)%string.
Proof.
  induction a as [|c a IH]; [reflexivity|].
  cbn [append html_escape]. now rewrite IH, str_app_assoc.
Qed.

Lemma br_newlines_app (a b : string) :
  br_newlines (a ++ b) = (br_newlines a ++ br_newlines b)%string.
Proof.
  induction a as [|c a IH]; [reflexivity|].
  cbn [append br_newlines]. now rewrite IH, str_app_assoc.
Qed.

(** The marker has no character that is escaped, so it is on the error
    page as it is. *)
Lemma error_page_carries_marker (code : Z) (text : string) :
  contains ERROR_HEADER (error_page code (ERROR_HEADER ++ text)) = true.
Proof.
  unfold error_page. rewrite html_escape_app, br_newlines_app.
  change (br_newlines (html_escape ERROR_HEADER)) with ERROR_HEADER.
  do 15 apply contains_skip. rewrite str_app_assoc. apply contains_app.
Qed.

(** X15. No exception leaves the default fetcher but its own abort:
    whatever raised in the guarded block, the upstream request or the
    normalizer on what came back, the result is
    [abort(500, ERROR_HEADER + str(e))], and the page the client receives
    for it has status 500 and the marker in its body. *)
Theorem default_fetch_failures_are_marked (request : Request) (w w' : World Ext) (x : Exn) :
  handle_default_request lib app_config request w = (Raise x, w') ->
  exists e,
    x = HTTPException 500 (ERROR_HEADER ++ exn_str e)
    /\ ((exists o,
            session_send lib (outbound_method request) (outbound_url request)
                         (outbound_payload request) (prepare_headers request) (outside w)
            = (Raise e, o)
            /\ w' = after_upstream request w o)
        \/ (exists resp o,
               session_send lib (outbound_method request) (outbound_url request)
                            (outbound_payload request) (prepare_headers request) (outside w)
               = (Ok resp, o)
               /\ process_response_with_image_caching lib app_config
                    (Tuple3 (Bytes (http_content resp)) (http_status resp) (http_headers resp))
                    (outbound_url request) (after_upstream request w o)
                  = (Raise e, w')))
    /\ resp_status (flask_finalize (Raise x)) = 500
    /\ carries_marker (flask_finalize (Raise x)) = true.
Proof.
  rewrite default_run.
  destruct (session_send lib _ _ _ _ (outside w)) as [[resp|e] o] eqn:S.
  - destruct (process_response_with_image_caching lib app_config _ _ _) as [[r|e] w1] eqn:P;
      [discriminate|].
    intros H.
    assert (Hx : x = HTTPException 500 (ERROR_HEADER ++ exn_str e)) by congruence.
    assert (Hw : w' = w1) by congruence.
    subst x w'. exists e. split; [reflexivity|].
    split; [right; exists resp, o; auto|].
    split; [reflexivity|]. apply error_page_carries_marker.
  - intros H.
    assert (Hx : x = HTTPException 500 (ERROR_HEADER ++ exn_str e)) by congruence.
    assert (Hw : w' = after_upstream request w o) by congruence.
    subst x w'. exists e. split; [reflexivity|].
    split; [left; exists o; auto|].
    split; [reflexivity|]. apply error_page_carries_marker.
Qed.

(** X16. Of the inbound request the default fetcher uses the URL, the method,
    the payload that goes with the method, and the headers Accept,
    Accept-Language and Referer. Two requests that agree on these are
    handled alike, whatever else they carry: no other inbound header,
    such as a cookie, reaches the upstream server or affects the
    response. *)
Theorem default_fetch_ignores_other_headers (request1 request2 : Request) (w : World Ext) :
  req_url request1 = req_url request2 ->
  req_method request1 = req_method request2 ->
  outbound_payload request1 = outbound_payload request2 ->
  Wz.get (req_headers request1) "Accept" = Wz.get (req_headers request2) "Accept" ->
  Wz.get (req_headers request1) "Accept-Language"
  = Wz.get (req_headers request2) "Accept-Language" ->
  Wz.get (req_headers request1) "Referer" = Wz.get (req_headers request2) "Referer" ->
  handle_default_request lib app_config request1 w
  = handle_default_request lib app_config request2 w.
Proof.
  intros Hu Hm Hp Ha Hl Hr. rewrite !default_run.
  assert (Hh : prepare_headers request1 = prepare_headers request2)
    by (unfold prepare_headers; now rewrite Ha, Hl, Hr).
  assert (Ho : outbound_url request1 = outbound_url request2)
    by (unfold outbound_url; now rewrite Hu).
  assert (Hmm : outbound_method request1 = outbound_method request2)
    by (unfold outbound_method; now rewrite Hm).
  unfold after_upstream. now rewrite Hh, Ho, Hmm, Hp.
Qed.

End DefaultFetcher.

(* ================================================================== *)
(** * The URL sent upstream *)
(* ================================================================== *)





(* ================================================================== *)
(** * The response hook *)
(* ================================================================== *)

(** X18. [apply_caching] changes nothing but the Content-Type header:
    status, body and every other header are as they were. With
    [g.content_type] set to a value without a newline the header has
    that value afterwards, whatever it was before; with a value that has
    a newline in it the assignment is refused, the bare [except]
    swallows that, and the response is returned as it is, as it is when
    the attribute is not set. *)
Theorem apply_caching_changes_only_content_type (g_content_type : option string)
        (resp : Response) :
  resp_data (apply_caching g_content_type resp) = resp_data resp
  /\ resp_status (apply_caching g_content_type resp) = resp_status resp
  /\ (forall k, Wz.key_eqb "Content-Type" k = false ->
                Wz.get (resp_headers (apply_caching g_content_type resp)) k
                = Wz.get (resp_headers resp) k)
  /\ (forall content_type,
        g_content_type = Some content_type -> has_newline content_type = false ->
        Wz.get (resp_headers (apply_caching g_content_type resp)) "content-type"
        = Some content_type)
  /\ (forall content_type,
        g_content_type = Some content_type -> has_newline content_type = true ->
        apply_caching g_content_type resp = resp)
  /\ (g_content_type = None -> apply_caching g_content_type resp = resp).
Proof.
  destruct g_content_type as [ct|]; unfold apply_caching, Response_set_header; cbn [snd fst].
  - destruct (has_newline ct) eqn:N; cbn [resp_data resp_status resp_headers].
    + repeat (split; [reflexivity|]).
      split; [intros c E X; inversion E; subst; congruence|].
      split; [reflexivity|discriminate].
    + split; [reflexivity|]. split; [reflexivity|]. split.
      * intros k Hk. now apply wz_get_set_other.
      * split; [|split; [intros c E X; inversion E; subst; congruence|discriminate]].
        intros c E _. inversion E; subst.
        induction (resp_headers resp) as [|[a x] h IH]; cbn; [reflexivity|].
        destruct (Wz.key_eqb a "Content-Type") eqn:Ea; cbn; [reflexivity|].
        assert (Eb : Wz.key_eqb a "content-type" = false) by exact Ea.
        rewrite Eb. exact IH.
  - repeat split; discriminate.
Qed.

(* ================================================================== *)
(** * Runs in the concrete world *)
(* ================================================================== *)


(** The reference of a fetched image is served, also after a page has
    been requested. *)
Lemma cached_reference_stays_served_witness :
  let lib := Demo.demo_lib Demo.always_ok in
  let url := "http://h/a.png" in
  let w := snd (fetch_and_cache_image lib url Demo.fresh) in
  fetch_and_cache_image lib url Demo.fresh
  = (Ok (Some "/cached_image/md5-of-http://h/a.png.gif"), w)
  /\ exists data,
       "/cached_image/md5-of-http://h/a.png.gif" = "/cached_image/" ++ cache_key lib url
       /\ PyDict.get (cache_dir w) (cache_key lib url) = Some data
       /\ forall (requests : list Request) (request : Request),
            let w' := serve lib Demo.config [] requests w in
            serve_cached_image Scenes.flask request (cache_key lib url) w'
            = (Ok (send_file Scenes.flask request data "image/gif"), w').
Proof.
  cbv zeta.
  assert (E : fetch_and_cache_image (Demo.demo_lib Demo.always_ok) "http://h/a.png" Demo.fresh
              = (Ok (Some "/cached_image/md5-of-http://h/a.png.gif"),
                 snd (fetch_and_cache_image (Demo.demo_lib Demo.always_ok) "http://h/a.png"
                                            Demo.fresh)))
    by (vm_compute; reflexivity).
  split; [exact E|].
  exact (cached_reference_stays_served Scenes.flask (Demo.demo_lib Demo.always_ok)
           Demo.config [] "http://h/a.png" "/cached_image/md5-of-http://h/a.png.gif"
           Demo.fresh _ E).
Defined.



(** An image of 1024 x 1: the new height is [int(1 * 0.5) = 0]. *)
Lemma sliver_image_is_never_cached_witness :
  let url := "http://h/rule.png" in
  pil_open (pil Scenes.sliver_lib) "image-bytes" = Ok (mkImage (1024, 1) "RGB" "image-bytes")
  /\ new_size 1024 1 = Ok (512, 0)
  /\ optimize_image (pil Scenes.sliver_lib) "image-bytes"
     = Raise (ValueError "height and width must be > 0")
  /\ fetch_and_cache_image Scenes.sliver_lib url Demo.fresh
     = (Ok None,
        mkWorld None [] 1%nat [EvImageGet url; EvImageBody url; EvOptimize url]).
Proof.
  cbv zeta. split; [reflexivity|]. split; [vm_compute; reflexivity|].
  exact (sliver_image_is_never_cached Scenes.sliver_lib "http://h/rule.png" Demo.fresh
           (mkStreamResponse 200 0) 1%nat 1%nat "image-bytes"
           (mkImage (1024, 1) "RGB" "image-bytes")
           eq_refl eq_refl eq_refl eq_refl eq_refl
           ltac:(cbn; lia) ltac:(cbn; lia) ltac:(left; cbn; lia)).
Defined.

Lemma demo_images_unreachable : images_unreachable (Demo.demo_lib Scenes.always_503).
Proof. intros url o. cbn. eexists. reflexivity. Qed.

(** A page whose image server answers 503: the page keeps its [src]. *)
Lemma unreachable_images_witness :
  let lib := Demo.demo_lib Scenes.always_503 in
  images_unreachable lib
  /\ exists w',
       replace_image_urls lib "<img src='http://h/a.png'>" "http://example.com/" Demo.fresh
       = (Ok "<img src='http://h/a.png'>", w')
       /\ cache_dir w' = []
       /\ override_extension w' = None
       /\ trace w' = [EvImageGet "http://h/a.png"].
Proof.
  cbv zeta. split; [exact demo_images_unreachable|].
  exact (unreachable_images_leave_page_unrewritten (Demo.demo_lib Scenes.always_503)
           "<img src='http://h/a.png'>" "http://example.com/" Demo.fresh
           demo_images_unreachable).
Defined.

(** An HTML page whose image source is no URL: the cause is named. *)
Lemma normalizer_failure_witness :
  let lib := Demo.demo_lib Demo.always_ok in
  let response := Tuple3 (Bytes "<img src='//['>") 200 [("Content-Type", "text/html")] in
  process_response_with_image_caching lib Demo.config response "http://h/" Demo.fresh
  = (Raise (ValueError "Invalid IPv6 URL"), Demo.fresh)
  /\ ((response = TupleN None /\ ValueError "Invalid IPv6 URL" = IndexError
       /\ Demo.fresh = Demo.fresh)
      \/ exists content status_code headers,
           decompose response = Some (content, status_code, headers)
           /\ ((branch_of headers = BranchHtml
                /\ soup_parse lib (spec_decode lib content) = Raise (ValueError "Invalid IPv6 URL")
                /\ Demo.fresh = Demo.fresh)
               \/ (branch_of headers = BranchHtml
                   /\ exists doc tag src,
                        soup_get_src lib doc tag = Some src /\ src <> ""
                        /\ urljoin lib "http://h/" src = Raise (ValueError "Invalid IPv6 URL"))
               \/ (assignable headers = false
                   /\ ValueError "Invalid IPv6 URL"
                      = ValueError "Header values must not contain newline characters."))).
Proof.
  cbv zeta. split; [reflexivity|].
  exact (normalizer_failure_causes (Demo.demo_lib Demo.always_ok) Demo.config
           (Tuple3 (Bytes "<img src='//['>") 200 [("Content-Type", "text/html")])
           "http://h/" Demo.fresh Demo.fresh (ValueError "Invalid IPv6 URL") eq_refl).
Defined.

(** A gopher URL while the override names a registered extension: the
    request goes to the default fetcher. *)
Lemma unsupported_scheme_witness :
  let lib := Demo.demo_lib Demo.always_ok in
  let exts := [Demo.ext_plain "wiki" "wikipedia.org"] in
  let request := Demo.get "gopher://example.com/" in
  let w := Demo.with_override "extensions.wiki.wiki" in
  ~ supported lib request
  /\ handle_override_extension lib Demo.config exts request
       (scheme (urlparse lib (req_url request))) w = (Ok None, w)
  /\ handle_request lib Demo.config exts request w
     = handle_default_request lib Demo.config request w.
Proof.
  cbv zeta.
  assert (Hs : ~ supported (Demo.demo_lib Demo.always_ok) (Demo.get "gopher://example.com/"))
    by (cbn; intuition discriminate).
  split; [exact Hs|].
  exact (unsupported_scheme_bypasses_override (Demo.demo_lib Demo.always_ok) Demo.config
           [Demo.ext_plain "wiki" "wikipedia.org"] (Demo.get "gopher://example.com/")
           "extensions.wiki.wiki" (Demo.ext_plain "wiki" "wikipedia.org")
           (Demo.with_override "extensions.wiki.wiki")
           eq_refl ltac:(discriminate) eq_refl Hs).
Defined.

Lemma wiki_name_plain :
  Forall (fun m : ExtModule nat => plain_name (ext_name m))
         [Demo.ext_status "wiki" "wikipedia.org" true].
Proof. repeat constructor. unfold plain_name. cbn. intuition discriminate. Qed.

(** One request to an extension that asks for the override: the slot
    then names it, and the name is registered. *)
Lemma override_slot_witness :
  let lib := Demo.demo_lib Demo.always_ok in
  let exts := [Demo.ext_status "wiki" "wikipedia.org" true] in
  let w := serve lib Demo.config exts [Demo.get "http://en.wikipedia.org/"] Demo.fresh in
  override_extension w = Some "extensions.wiki.wiki"
  /\ override_registered exts w.
Proof.
  cbv zeta. split; [reflexivity|].
  exact (proj1 (override_slot_names_registered_extension
                  (Demo.demo_lib Demo.always_ok) Demo.config
                  [Demo.ext_status "wiki" "wikipedia.org" true]
                  [Demo.get "http://en.wikipedia.org/"] Demo.fresh
                  wiki_name_plain eq_refl)).
Defined.

(** Capture by host match, then a request for another host. *)
Lemma host_match_capture_witness :
  let lib := Demo.demo_lib Demo.always_ok in
  let wiki := Demo.ext_status "wiki" "wikipedia.org" true in
  let request := Demo.get "http://en.wikipedia.org/" in
  find_matching_extension [wiki] (request_host lib request) = Some wiki
  /\ exists r w',
       handle_request lib Demo.config [wiki] request Demo.fresh = (r, w')
       /\ override_extension w' = Some (module_name wiki)
       /\ forall request2, supported lib request2 ->
            exists r2 w2 rest,
              handle_request lib Demo.config [wiki] request2 w' = (r2, w2)
              /\ trace w2 = (trace w' ++ EvHandler (ext_name wiki) :: rest)%list
              /\ Forall (fun ev => dispatch_event ev = false) rest.
Proof.
  cbv zeta. split; [reflexivity|].
  exact (host_match_capture_takes_next_request (Demo.demo_lib Demo.always_ok) Demo.config
           [Demo.ext_status "wiki" "wikipedia.org" true]
           (Demo.get "http://en.wikipedia.org/") Demo.fresh
           (Demo.ext_status "wiki" "wikipedia.org" true) Demo.html_page 0%nat 0%nat
           (fun n => (Ok true, n))
           eq_refl eq_refl ltac:(unfold plain_name; cbn; intuition discriminate)
           eq_refl eq_refl eq_refl).
Defined.

(** An upstream 404 reaches the client as a 404 with the upstream body. *)
Lemma default_fetch_relays_witness :
  let lib := Demo.demo_lib Scenes.always_404 in
  let request := Demo.get "https://example.com/missing" in
  outbound_url request = "http://example.com/missing"
  /\ session_send lib (outbound_method request) (outbound_url request)
                  (outbound_payload request) (prepare_headers request) (outside Demo.fresh)
     = (Ok (mkHttpResponse 404 "<p>upstream</p>" [("Content-Type", "text/html")]), 1%nat)
  /\ exists r w',
       process_response_with_image_caching lib Demo.config
         (Tuple3 (Bytes "<p>upstream</p>") 404 [("Content-Type", "text/html")])
         (outbound_url request) (after_upstream request Demo.fresh 1%nat) = (Ok r, w')
       /\ handle_default_request lib Demo.config request Demo.fresh = (Ok r, w')
       /\ resp_status r = 404
       /\ resp_data r = Str "<transcoded><p>upstream</p>".
Proof.
  cbv zeta. split; [reflexivity|]. split; [reflexivity|].
  destruct (process_response_with_image_caching (Demo.demo_lib Scenes.always_404) Demo.config
              (Tuple3 (Bytes "<p>upstream</p>") 404 [("Content-Type", "text/html")])
              (outbound_url (Demo.get "https://example.com/missing"))
              (after_upstream (Demo.get "https://example.com/missing") Demo.fresh 1%nat))
    as [[r|e] w'] eqn:E; [|vm_compute in E; discriminate].
  exists r, w'. split; [reflexivity|].
  destruct (proj1 (default_fetch_relays_upstream_status
                     (Demo.demo_lib Scenes.always_404) Demo.config
                     (Demo.get "https://example.com/missing") Demo.fresh
                     (mkHttpResponse 404 "<p>upstream</p>" [("Content-Type", "text/html")])
                     1%nat eq_refl) r w' E) as [H1 H2].
  split; [exact H1|]. split; [exact H2|].
  vm_compute in E. inversion E. reflexivity.
Defined.

(** No upstream server: the marked page. *)
Lemma default_fetch_fails_witness :
  let lib := Demo.make_lib Demo.always_ok false in
  let request := Demo.get "http://example.com/" in
  let x := HTTPException 500 (ERROR_HEADER ++ "connection refused") in
  handle_default_request lib Demo.config request Demo.fresh
  = (Raise x, after_upstream request Demo.fresh 0%nat)
  /\ exists e,
       x = HTTPException 500 (ERROR_HEADER ++ exn_str e)
       /\ ((exists o,
               session_send lib (outbound_method request) (outbound_url request)
                            (outbound_payload request) (prepare_headers request)
                            (outside Demo.fresh) = (Raise e, o)
               /\ after_upstream request Demo.fresh 0%nat = after_upstream request Demo.fresh o)
           \/ (exists resp o,
                  session_send lib (outbound_method request) (outbound_url request)
                               (outbound_payload request) (prepare_headers request)
                               (outside Demo.fresh) = (Ok resp, o)
                  /\ process_response_with_image_caching lib Demo.config
                       (Tuple3 (Bytes (http_content resp)) (http_status resp)
                               (http_headers resp))
                       (outbound_url request) (after_upstream request Demo.fresh o)
                     = (Raise e, after_upstream request Demo.fresh 0%nat)))
       /\ resp_status (flask_finalize (Raise x)) = 500
       /\ carries_marker (flask_finalize (Raise x)) = true.
Proof.
  cbv zeta. split; [reflexivity|].
  exact (default_fetch_failures_are_marked (Demo.make_lib Demo.always_ok false)
           Demo.config (Demo.get "http://example.com/") Demo.fresh
           (after_upstream (Demo.get "http://example.com/") Demo.fresh 0%nat)
           (HTTPException 500 (ERROR_HEADER ++ "connection refused")) eq_refl).
Defined.

(** An upstream page with an image source that is no URL: the
    normalizer raises, and the client gets the marked page as well. *)
Lemma default_fetch_marks_normalizer_failure :
  let lib := Scenes.with_upstream_page (Demo.demo_lib Demo.always_ok) "<img src='//['>" in
  let request := Demo.get "http://example.com/" in
  handle_default_request lib Demo.config request Demo.fresh
  = (Raise (HTTPException 500 (ERROR_HEADER ++ "Invalid IPv6 URL")),
     after_upstream request Demo.fresh 1%nat)
  /\ carries_marker
       (flask_finalize (Raise (HTTPException 500 (ERROR_HEADER ++ "Invalid IPv6 URL"))))
     = true.
Proof. cbv zeta. split; [reflexivity|vm_compute; reflexivity]. Qed.

(** The same GET with and without credentials. *)
Lemma default_fetch_ignores_witness :
  let lib := Demo.demo_lib Demo.always_ok in
  let url := "http://example.com/" in
  req_headers (Demo.get url) <> req_headers (Scenes.get_with_credentials url)
  /\ handle_default_request lib Demo.config (Demo.get url) Demo.fresh
     = handle_default_request lib Demo.config (Scenes.get_with_credentials url) Demo.fresh.
Proof.
  cbv zeta. split; [discriminate|].
  exact (default_fetch_ignores_other_headers (Demo.demo_lib Demo.always_ok) Demo.config
           (Demo.get "http://example.com/") (Scenes.get_with_credentials "http://example.com/")
           Demo.fresh eq_refl eq_refl eq_refl eq_refl eq_refl eq_refl).
Defined.
